(** * KalshiMarketDataCollector: flattening and reconciliation

    A shallow embedding of [app/market_collector.py] and
    [database/database_client.py].  JSON payloads, pandas data frames, the
    SQLite [markets] table, the logger and the clock are modelled as data;
    exceptions are explicit outcomes. *)

From stdpp Require Import base option list strings pretty gmap.

Open Scope string_scope.
Open Scope list_scope.
Set Warnings "-register-all".

(** ** JSON values, as returned by [resp.json()] *)

Inductive Json :=
| JNull
| JBool (b : bool)
| JNum (z : Z)
| JStr (s : string)
| JArr (l : list Json)
| JObj (kvs : list (string * Json)).

#[global] Instance Json_eq_dec : EqDecision Json.
Proof.
  unfold EqDecision, Decision. fix IH 1.
  intros a b; destruct a, b;
    try (right; discriminate); try (left; reflexivity).
  - destruct (decide (b = b0)) as [->|]; [left; reflexivity|right; congruence].
  - destruct (decide (z = z0)) as [->|]; [left; reflexivity|right; congruence].
  - destruct (decide (s = s0)) as [->|]; [left; reflexivity|right; congruence].
  - destruct (List.list_eq_dec IH l l0) as [->|];
      [left; reflexivity|right; congruence].
  - assert (Hp : ∀ p q : string * Json, {p = q} + {p ≠ q}).
    { intros [k v] [k' v'].
      destruct (decide (k = k')) as [->|]; [|right; congruence].
      destruct (IH v v') as [->|]; [left; reflexivity|right; congruence]. }
    destruct (List.list_eq_dec Hp kvs kvs0) as [->|];
      [left; reflexivity|right; congruence].
Defined.

(** A Python dict with string keys, in insertion order. *)
Definition Dict := list (string * Json).

Definition dict_get (d : Dict) (k : string) : option Json :=
  snd <$> List.find (λ kv, bool_decide (kv.1 = k)) d.

Definition is_dict (j : Json) : bool :=
  match j with JObj _ => true | _ => false end.

(** ** Exceptions and outcomes *)

Inductive Exn :=
| KeyError (key : string)
| TypeError
| ValueError
| SQLAlchemyError.

Inductive Outcome (A : Type) :=
| Returned (a : A)
| Raised (e : Exn).
Arguments Returned {A} a.
Arguments Raised {A} e.

#[global] Instance Outcome_ret : MRet Outcome := λ A a, Returned a.
#[global] Instance Outcome_bind : MBind Outcome := λ A B f m,
  match m with
  | Returned a => f a
  | Raised e => Raised e
  end.

#[global] Instance Outcome_fmap : FMap Outcome := λ A B f m,
  match m with
  | Returned a => Returned (f a)
  | Raised e => Raised e
  end.

(** [for x in xs: ...] over a body that may raise. *)
Fixpoint mapO {A B} (f : A → Outcome B) (xs : list A) : Outcome (list B) :=
  match xs with
  | [] => Returned []
  | x :: xs' => y ← f x; ys ← mapO f xs'; mret (y :: ys)
  end.

(** ** The fragment of pandas used by the collector *)

Module pd.

(** A row maps column labels to cells; a label without a binding is a
    missing value (NaN / None), as is an explicit JSON null. *)
Record DataFrame := {
  columns : list string;
  rows : list (gmap string Json)
}.

Definition cell (r : gmap string Json) (c : string) : Json :=
  default JNull (r !! c).

Definition empty : DataFrame := {| columns := []; rows := [] |}.

Definition len (df : DataFrame) : nat := length (rows df).

(** Labels in order of first appearance. *)
Fixpoint uniq (seen l : list string) : list string :=
  match l with
  | [] => []
  | x :: l' =>
      if bool_decide (x ∈ seen) then uniq seen l'
      else x :: uniq (x :: seen) l'
  end.

(** [pd.DataFrame(records)] for a list of dicts: one row per record, the
    columns are the union of the keys. *)
Definition DataFrame_of_records (recs : list Dict) : DataFrame :=
  {| columns := uniq [] (concat (map (map fst) recs));
     rows := map (λ d, list_to_map d) recs |}.

(** [nested_to_record]: sub-objects become dotted columns. *)
Fixpoint flatten_under (prefix : string) (j : Json) : Dict :=
  match j with
  | JObj kvs =>
      (fix go (kvs : list (string * Json)) : Dict :=
         match kvs with
         | [] => []
         | (k, v) :: rest => flatten_under (prefix +:+ "." +:+ k) v ++ go rest
         end) kvs
  | v => [(prefix, v)]
  end.

Definition nested_to_record (d : Dict) : Dict :=
  filter (λ kv, is_dict kv.2 = false) d
  ++ concat (map (λ kv, if is_dict kv.2 then flatten_under kv.1 kv.2 else []) d).

Definition add_prefix (p : string) (d : Dict) : Dict :=
  map (λ kv, (p +:+ kv.1, kv.2)) d.

(** [_pull_field(obj, key)] with [errors='raise']. *)
Definition pull_field (obj : Json) (key : string) : Outcome Json :=
  match obj with
  | JObj kvs =>
      match dict_get kvs key with
      | Some v => Returned v
      | None => Raised (KeyError key)
      end
  | _ => Raised TypeError
  end.

(** [_pull_records(obj, key)]: the value must be a list; a null is read
    as the empty list.  Every record is expected to be an object. *)
Definition pull_records (obj : Json) (key : string) : Outcome (list Dict) :=
  v ← pull_field obj key;
  match v with
  | JNull => Returned []
  | JArr l =>
      mapO (λ r, match r with
                 | JObj kvs => Returned (nested_to_record kvs)
                 | _ => Raised TypeError
                 end) l
  | _ => Raised TypeError
  end.

(** What [json_normalize] extracts from one element of [data]: its
    records under [record_path], prefixed, and its metadata fields,
    prefixed, which every one of these records will carry. *)
Definition normalize_one (record_path : string) (meta : list string)
    (record_prefix meta_prefix : string) (obj : Json)
    : Outcome (list Dict * Dict) :=
  recs ← pull_records obj record_path;
  metas ← mapO (λ k, v ← pull_field obj k; mret (meta_prefix +:+ k, v)) meta;
  mret (map (add_prefix record_prefix) recs, metas).

(** [pd.json_normalize(data, record_path=[p], meta=meta,
    record_prefix=..., meta_prefix=...)]: the record columns first, the
    metadata columns after them. *)
Definition json_normalize (data : list Json) (record_path : string)
    (meta : list string) (record_prefix meta_prefix : string)
    : Outcome DataFrame :=
  match data with
  | [] => Returned empty
  | _ =>
      per_obj ← mapO (normalize_one record_path meta record_prefix meta_prefix) data;
      mret {| columns :=
                uniq [] (concat (map (map fst) (concat (map fst per_obj))))
                ++ map (λ k, meta_prefix +:+ k) meta;
              rows := concat (map (λ rm, map (λ r, list_to_map (r ++ rm.2)) rm.1)
                                  per_obj) |}
  end.

(** [left.merge(right, left_on=.., right_on=.., how='left',
    suffixes=(sl, sr))].  A label carried by both frames gets the side's
    suffix.  A left row is paired with every right row whose key equals
    its own (missing keys pair with missing keys); without a partner it
    survives alone, the right-hand columns missing. *)
Definition suffixed (other : list string) (suffix c : string) : string :=
  if bool_decide (c ∈ other) then c +:+ suffix else c.

Definition rename_row (cols other : list string) (suffix : string)
    (r : gmap string Json) : gmap string Json :=
  list_to_map (omap (λ c, (λ v, (suffixed other suffix c, v)) <$> r !! c) cols).

Definition partners (right : DataFrame) (right_on : string) (key : Json)
    : list (gmap string Json) :=
  filter (λ r, cell r right_on = key) (rows right).

Definition merge_row (left right : DataFrame) (left_on right_on sl sr : string)
    (l : gmap string Json) : list (gmap string Json) :=
  let l' := rename_row (columns left) (columns right) sl l in
  match partners right right_on (cell l left_on) with
  | [] => [l']
  | ps => map (λ r, l' ∪ rename_row (columns right) (columns left) sr r) ps
  end.

Definition merge_left (left right : DataFrame) (left_on right_on sl sr : string)
    : Outcome DataFrame :=
  if negb (bool_decide (left_on ∈ columns left)) then Raised (KeyError left_on)
  else if negb (bool_decide (right_on ∈ columns right)) then Raised (KeyError right_on)
  else Returned
    {| columns := map (suffixed (columns right) sl) (columns left)
                  ++ map (suffixed (columns left) sr) (columns right);
       rows := concat (map (merge_row left right left_on right_on sl sr) (rows left)) |}.

(** [df[cols]] *)
Definition select (cols : list string) (df : DataFrame) : Outcome DataFrame :=
  match List.find (λ c, negb (bool_decide (c ∈ columns df))) cols with
  | Some c => Raised (KeyError c)
  | None =>
      Returned {| columns := cols;
                  rows := map (λ r, filter (λ kv, kv.1 ∈ cols) r) (rows df) |}
  end.

(** [df.loc[:, keep(df.columns)]] *)
Definition keep_columns (keep : string → bool) (df : DataFrame) : DataFrame :=
  {| columns := filter (λ c, keep c = true) (columns df);
     rows := map (λ r, filter (λ kv, keep kv.1 = true) r) (rows df) |}.

(** [df[c] = v] for a scalar [v] *)
Definition assign (c : string) (v : Json) (df : DataFrame) : DataFrame :=
  {| columns := if bool_decide (c ∈ columns df) then columns df
                else columns df ++ [c];
     rows := map (λ r, <[c := v]> r) (rows df) |}.

(** [df[c]] as the list of its cells *)
Definition column (df : DataFrame) (c : string) : Outcome (list Json) :=
  if bool_decide (c ∈ columns df) then Returned (map (λ r, cell r c) (rows df))
  else Raised (KeyError c).

(** [df[mask]] for a boolean mask *)
Definition boolean_index (df : DataFrame) (mask : list bool) : DataFrame :=
  {| columns := columns df;
     rows := snd <$> filter (λ br, br.1 = true) (zip mask (rows df)) |}.

(** [df.loc[df[key] == k, c] = v] *)
Definition assign_where (key : string) (k : Json) (c : string) (v : Json)
    (df : DataFrame) : DataFrame :=
  {| columns := columns df;
     rows := map (λ r, if bool_decide (cell r key = k) then <[c := v]> r else r)
                 (rows df) |}.

End pd.

(** [v in s] for a Python set of strings: lists and dicts cannot be
    hashed. *)
Definition py_in (v : Json) (s : gset string) : Outcome bool :=
  match v with
  | JStr x => Returned (bool_decide (x ∈ s))
  | JArr _ | JObj _ => Raised TypeError
  | _ => Returned false
  end.

(** ** The world the program runs in *)

(** [datetime.now(timezone.utc)], broken down. *)
Record datetime := {
  year : nat; month : nat; day : nat;
  hour : nat; minute : nat; second : nat; microsecond : nat
}.

Definition zfill (width : nat) (n : nat) : string :=
  let s := pretty n in
  String.string_of_list_ascii (replicate (width - String.length s) (Ascii.ascii_of_nat 48)) +:+ s.

(** [d.strftime('%Y-%m-%d')] *)
Definition strftime_date (d : datetime) : string :=
  zfill 4 (year d) +:+ "-" +:+ zfill 2 (month d) +:+ "-" +:+ zfill 2 (day d).

(** [d.isoformat()] for an aware datetime in UTC. *)
Definition isoformat (d : datetime) : string :=
  strftime_date d +:+ "T" +:+ zfill 2 (hour d) +:+ ":" +:+ zfill 2 (minute d)
  +:+ ":" +:+ zfill 2 (second d)
  +:+ (if bool_decide (microsecond d = 0) then String.EmptyString
       else "." +:+ zfill 6 (microsecond d))
  +:+ "+00:00".

Inductive Level := INFO | ERROR.

(** A record handed to the logger; [exc_info] is set by
    [logger.exception]. *)
Record LogRecord := {
  levelname : Level;
  msg : string;
  exc_info : option Exn
}.

(** The SQLite table: every column is TEXT, a label without a binding in a
    row is NULL. *)
Record Table := {
  t_columns : list string;
  t_rows : list (gmap string string)
}.

(** The database file with its [markets] table, the log, and the two
    things the program cannot decide: which round trip to the storage
    engine fails, and what the clock shows. *)
Record World := {
  db_file : string;
  db_file_exists : bool;
  markets : option Table;
  log : list LogRecord;
  storage_fails : nat → bool;
  round_trips : nat;
  utcnow : nat → datetime;
  clock_reads : nat
}.

Definition set_markets (t : option Table) (w : World) : World :=
  {| db_file := db_file w; db_file_exists := db_file_exists w; markets := t;
     log := log w; storage_fails := storage_fails w;
     round_trips := round_trips w; utcnow := utcnow w;
     clock_reads := clock_reads w |}.

Definition add_log (r : LogRecord) (w : World) : World :=
  {| db_file := db_file w; db_file_exists := db_file_exists w;
     markets := markets w; log := log w ++ [r];
     storage_fails := storage_fails w; round_trips := round_trips w;
     utcnow := utcnow w; clock_reads := clock_reads w |}.

(** A connection is opened: SQLite creates the file if it is not there. *)
Definition connected (w : World) : World :=
  {| db_file := db_file w; db_file_exists := true; markets := markets w;
     log := log w; storage_fails := storage_fails w;
     round_trips := S (round_trips w); utcnow := utcnow w;
     clock_reads := clock_reads w |}.

Definition refused (w : World) : World :=
  {| db_file := db_file w; db_file_exists := db_file_exists w;
     markets := markets w; log := log w; storage_fails := storage_fails w;
     round_trips := S (round_trips w); utcnow := utcnow w;
     clock_reads := clock_reads w |}.

Definition tick (w : World) : World :=
  {| db_file := db_file w; db_file_exists := db_file_exists w;
     markets := markets w; log := log w; storage_fails := storage_fails w;
     round_trips := round_trips w; utcnow := utcnow w;
     clock_reads := S (clock_reads w) |}.

(** Computations that read and change the world and may raise. *)
Definition M (A : Type) : Type := World → Outcome A * World.

#[global] Instance M_ret : MRet M := λ A a w, (Returned a, w).
#[global] Instance M_bind : MBind M := λ A B f m w,
  match m w with
  | (Returned a, w') => f a w'
  | (Raised e, w') => (Raised e, w')
  end.
#[global] Instance M_fmap : FMap M := λ A B f m w,
  match m w with
  | (Returned a, w') => (Returned (f a), w')
  | (Raised e, w') => (Raised e, w')
  end.

Definition raise {A} (e : Exn) : M A := λ w, (Raised e, w).

Definition lift {A} (o : Outcome A) : M A := λ w, (o, w).

(** [try: body  except exc.SQLAlchemyError: handler; raise] *)
Definition try_except_SQLAlchemyError {A} (body : M A) (handler : M unit) : M A :=
  λ w, match body w with
       | (Raised SQLAlchemyError, w') =>
           match handler w' with
           | (Returned _, w'') => (Raised SQLAlchemyError, w'')
           | (Raised e, w'') => (Raised e, w'')
           end
       | r => r
       end.

Definition logger_info (m : string) : M unit := λ w,
  (Returned (), add_log {| levelname := INFO; msg := m; exc_info := None |} w).

(** Only called from an [except] block: the record carries the exception
    being handled. *)
Definition logger_exception (m : string) (e : Exn) : M unit := λ w,
  (Returned (), add_log {| levelname := ERROR; msg := m; exc_info := Some e |} w).

Definition now_utc : M datetime := λ w,
  (Returned (utcnow w (clock_reads w)), tick w).

Definition os_path_exists : M bool := λ w, (Returned (db_file_exists w), w).

(** One round trip to the storage engine: it fails as a whole, changing
    nothing, or runs the statement. *)
Definition round_trip {A} (stmt : option Table → Outcome A * option Table) : M A :=
  λ w, if storage_fails w (round_trips w) then (Raised SQLAlchemyError, refused w)
       else let '(r, t) := stmt (markets w) in (r, set_markets t (connected w)).

(** ** The statements sent to the storage engine *)

Module sql.

Definition has_table (t : option Table) : Outcome bool * option Table :=
  (Returned (bool_decide (is_Some t)), t).

Definition get_columns (t : option Table)
    : Outcome (list string) * option Table :=
  match t with
  | Some tb => (Returned (t_columns tb), t)
  | None => (Raised SQLAlchemyError, t)
  end.

(** [pd.DataFrame(columns=cols).to_sql(.., if_exists="fail")] *)
Definition create_table (cols : list string) (t : option Table)
    : Outcome unit * option Table :=
  match t with
  | None => (Returned (), Some {| t_columns := cols; t_rows := [] |})
  | Some _ => (Raised ValueError, t)
  end.

(** [ALTER TABLE markets ADD COLUMN c TEXT] *)
Definition add_column (c : string) (t : option Table)
    : Outcome unit * option Table :=
  match t with
  | Some tb =>
      if bool_decide (c ∈ t_columns tb) then (Raised SQLAlchemyError, t)
      else (Returned (),
            Some {| t_columns := t_columns tb ++ [c]; t_rows := t_rows tb |})
  | None => (Raised SQLAlchemyError, t)
  end.

(** [pd.read_sql_table("markets", engine, columns=cols)] *)
Definition read_table (cols : list string) (t : option Table)
    : Outcome (list (gmap string string)) * option Table :=
  match t with
  | Some tb =>
      match List.find (λ c, negb (bool_decide (c ∈ t_columns tb))) cols with
      | Some c => (Raised (KeyError c), t)
      | None =>
          (Returned (map (λ r, filter (λ kv, kv.1 ∈ cols) r) (t_rows tb)), t)
      end
  | None => (Raised ValueError, t)
  end.

(** How sqlite3 binds a cell to a TEXT column; a list or a dict cannot
    be bound. *)
Definition bind (v : Json) : option (option string) :=
  match v with
  | JNull => Some None
  | JStr s => Some (Some s)
  | JNum z => Some (Some (pretty z))
  | JBool b => Some (Some (if b then "1" else "0"))
  | JArr _ | JObj _ => None
  end.

Fixpoint bind_row (cols : list string) (r : gmap string Json)
    : option (gmap string string) :=
  match cols with
  | [] => Some ∅
  | c :: cs =>
      v ← bind (pd.cell r c);
      m ← bind_row cs r;
      Some (match v with Some s => <[c := s]> m | None => m end)
  end.

(** [df.to_sql("markets", engine, if_exists="append", index=False)]:
    all rows are written in one transaction, or none. *)
Definition append (df : pd.DataFrame) (t : option Table)
    : Outcome unit * option Table :=
  match mapM (bind_row (pd.columns df)) (pd.rows df) with
  | None => (Raised SQLAlchemyError, t)
  | Some rs =>
      match t with
      | None =>
          (Returned (),
           Some {| t_columns := pd.uniq [] (pd.columns df); t_rows := rs |})
      | Some tb =>
          if forallb (λ c, bool_decide (c ∈ t_columns tb)) (pd.columns df)
          then (Returned (),
                Some {| t_columns := t_columns tb; t_rows := t_rows tb ++ rs |})
          else (Raised SQLAlchemyError, t)
      end
  end.

(** [DELETE FROM markets WHERE market_ticker = :ticker] *)
Definition delete (ticker : string) (t : option Table)
    : Outcome unit * option Table :=
  match t with
  | Some tb =>
      if bool_decide ("market_ticker" ∈ t_columns tb)
      then (Returned (),
            Some {| t_columns := t_columns tb;
                    t_rows := filter (λ r, r !! "market_ticker" ≠ Some ticker)
                                     (t_rows tb) |})
      else (Raised SQLAlchemyError, t)
  | None => (Raised SQLAlchemyError, t)
  end.

End sql.

(** ** database_client.py *)

Module DatabaseClient.

Definition table_name : string := "markets".

(** [str(list_of_labels)] *)
Definition repr_list (l : list string) : string :=
  "[" +:+ String.concat ", " (map (λ c, "'" +:+ c +:+ "'") l) +:+ "]".

Definition _ensure_table (schema : list string) : M unit :=
  present ← round_trip sql.has_table;
  if present : bool then mret ()
  else
    round_trip (sql.create_table schema);;
    logger_info ("Created table '" +:+ table_name +:+ "' with columns: "
                 +:+ repr_list schema).

Definition _ensure_status_change_column : M unit :=
  cols ← round_trip sql.get_columns;
  if bool_decide ("market_status_change_time" ∈ cols) then mret ()
  else
    try_except_SQLAlchemyError
      (round_trip (sql.add_column "market_status_change_time");;
       logger_info "Added column 'market_status_change_time'.")
      (logger_exception "Failed to add status change column." SQLAlchemyError).

Definition __init__ (schema : list string) : M unit :=
  path ← (λ w, (Returned (db_file w), w));
  logger_info ("Connected to database at " +:+ path);;
  _ensure_table schema;;
  _ensure_status_change_column.

Definition get_existing_market_tickers : M (gset string) :=
  present ← round_trip sql.has_table;
  if negb present then mret ∅
  else
    df ← round_trip (sql.read_table ["market_ticker"]);
    mret (list_to_set (omap (λ r, r !! "market_ticker") df)).

(** [dict(zip(keys, values))]: a later pair replaces an earlier one with
    the same key. *)
Definition dict_zip (kvs : list (option string * option string))
    : gmap (option string) (option string) :=
  fold_left (λ m kv, <[kv.1 := kv.2]> m) kvs ∅.

Definition get_market_status_map : M (gmap (option string) (option string)) :=
  present ← round_trip sql.has_table;
  if negb present then mret ∅
  else
    df ← round_trip (sql.read_table ["market_ticker"; "market_status"]);
    mret (dict_zip (map (λ r, (r !! "market_ticker", r !! "market_status")) df)).

Definition append_dataframe (df : pd.DataFrame) : M unit :=
  try_except_SQLAlchemyError
    (round_trip (sql.append df);;
     logger_info ("Inserted " +:+ pretty (pd.len df) +:+ " new rows into '"
                  +:+ table_name +:+ "'."))
    (logger_exception "DB insert failed." SQLAlchemyError).

Definition delete_market (ticker : string) : M unit :=
  try_except_SQLAlchemyError
    (round_trip (sql.delete ticker);;
     logger_info ("Deleted market '" +:+ ticker +:+ "' from database."))
    (logger_exception ("Failed to delete market '" +:+ ticker +:+ "'.")
                      SQLAlchemyError).

End DatabaseClient.

(** ** market_collector.py: flattening (lines 69-90) *)

Module MarketCollector.

Definition CLOSED_STATUSES : gset string :=
  {[ "finalized"; "inactive"; "closed"; "settled" ]}.

(** Lines 69-81: one frame of events, one frame of markets carrying the
    parent's [event_ticker], [series_ticker] and [title], joined on the
    event ticker. *)
Definition normalize_data (events : list Dict) : Outcome pd.DataFrame :=
  let events_df := pd.DataFrame_of_records events in
  markets_df ← pd.json_normalize (JObj <$> events) "markets"
                 ["event_ticker"; "series_ticker"; "title"] "market_" "event_";
  pd.merge_left markets_df events_df
    "event_event_ticker" "event_ticker" "_market" "_event".

Definition leading_columns : list string :=
  ["title"; "sub_title"; "market_rules_primary"; "market_rules_secondary"].

(** Lines 83-90: reorder, drop the custom-strike columns and the raw
    [markets] column, add the empty change-time column. *)
Definition clean_up (df : pd.DataFrame) : Outcome pd.DataFrame :=
  let cols := leading_columns
              ++ filter (λ c, c ∉ leading_columns) (pd.columns df) in
  df ← pd.select cols df;
  let df := pd.keep_columns
              (λ c, negb (String.prefix "market_custom_strike" c)) df in
  let df := pd.keep_columns (λ c, negb (bool_decide (c = "markets"))) df in
  mret (pd.assign "market_status_change_time" JNull df).

Definition flatten (events : list Dict) : Outcome pd.DataFrame :=
  df ← normalize_data events; clean_up df.

(** ** Reconciliation (lines 92-128) *)

(** Line 103: the mask [~df['market_ticker'].isin(existing) &
    df['market_status'].eq('active')]. *)
Definition new_active_mask (existing : gset string) (df : pd.DataFrame)
    : Outcome (list bool) :=
  tickers ← pd.column df "market_ticker";
  tracked ← mapO (λ v, py_in v existing) tickers;
  statuses ← pd.column df "market_status";
  mret (zip_with (λ t s, negb t && bool_decide (s = JStr "active"))
                 tracked statuses).

(** Lines 102-107. *)
Definition insert_pass (existing : gset string) (df : pd.DataFrame) : M nat :=
  mask ← lift (new_active_mask existing df);
  let new_active := pd.boolean_index df mask in
  let opened_count := pd.len new_active in
  (if bool_decide (opened_count = 0) then mret ()
   else
     DatabaseClient.append_dataframe new_active;;
     logger_info ("Inserted " +:+ pretty opened_count
                  +:+ " new active records."));;
  mret opened_count.

(** The test of line 114 on one row, evaluated left to right and
    stopping at the first false conjunct; when it holds the row's ticker
    is a string, which is returned. *)
Definition closing (existing : gset string)
    (status_map : gmap (option string) (option string))
    (row : gmap string Json) : Outcome (option string) :=
  let ticker := pd.cell row "market_ticker" in
  let new_status := pd.cell row "market_status" in
  tracked ← py_in ticker existing;
  match ticker with
  | JStr t =>
      if tracked && bool_decide (status_map !! Some t = Some (Some "active"))
      then closed ← py_in new_status CLOSED_STATUSES;
           mret (if closed : bool then Some t else None)
      else mret None
  | _ => mret None
  end.

(** Lines 111-118, from the row the iteration has reached. *)
Fixpoint closure_loop (existing : gset string)
    (status_map : gmap (option string) (option string))
    (todo : list (gmap string Json)) (df : pd.DataFrame) (closed_count : nat)
    : M (pd.DataFrame * nat) :=
  match todo with
  | [] => mret (df, closed_count)
  | row :: rest =>
      hit ← lift (closing existing status_map row);
      match hit with
      | Some ticker =>
          change_time ← isoformat <$> now_utc;
          let df := pd.assign_where "market_ticker" (JStr ticker)
                      "market_status_change_time" (JStr change_time) df in
          DatabaseClient.delete_market ticker;;
          closure_loop existing status_map rest df (S closed_count)
      | None => closure_loop existing status_map rest df closed_count
      end
  end.

(** Lines 109-118. *)
Definition closure_pass (existing : gset string)
    (status_map : gmap (option string) (option string)) (df : pd.DataFrame)
    : M (pd.DataFrame * nat) :=
  closure_loop existing status_map (pd.rows df) df 0.

(** Lines 96-100. *)
Definition read_state
    : M (gset string * gmap (option string) (option string)) :=
  file ← os_path_exists;
  existing ← (if file : bool then DatabaseClient.get_existing_market_tickers
              else mret ∅);
  status_map ← DatabaseClient.get_market_status_map;
  mret (existing, status_map).

(** Lines 120-126. *)
Definition summary_report (opened_count closed_count : nat) : M unit :=
  total_active ← size <$> DatabaseClient.get_existing_market_tickers;
  summary_date ← strftime_date <$> now_utc;
  logger_info ("Summary for " +:+ summary_date +:+ ":");;
  logger_info ("   " +:+ pretty total_active +:+ ": number of active markets");;
  logger_info ("   " +:+ pretty closed_count
               +:+ ": number of markets closed since last run");;
  logger_info ("   " +:+ pretty opened_count
               +:+ ": number of markets opened since last run").

(** [get_events_dataframe] from line 69 on; [events] is the list that
    the pagination loop of lines 56-67 has accumulated. *)
Definition get_events_dataframe (events : list Dict) : M pd.DataFrame :=
  df ← lift (flatten events);
  DatabaseClient.__init__ (pd.uniq [] (pd.columns df));;
  '(existing, status_map) ← read_state;
  opened_count ← insert_pass existing df;
  '(df, closed_count) ← closure_pass existing status_map df;
  summary_report opened_count closed_count;;
  mret df.

End MarketCollector.

Import MarketCollector.

(** ** market_collector.py: fetching (lines 38-67) *)

Module requests.

(** The body of an answer of the events endpoint, as [resp.json()]
    returns it: an object whose [events] entry, where present, is a list
    of objects, and whose [cursor] entry, where present, is a string or
    null ([None] stands for an absent and for a null cursor). *)
Record Page := {
  events : option (list Dict);
  cursor : option string
}.

(** What one GET comes to: [session.get], [raise_for_status] or
    [resp.json()] raises, or the body is there. *)
Inductive Response :=
| RequestException
| Ok (body : Page).

(** The remote end: its answer to the n-th request of the session, the
    query parameters sent so far, and the number of [time.sleep(0.1)]
    calls made. *)
Record Net := {
  answers : nat → Dict → Response;
  sent : list Dict;
  naps : nat
}.

(** [session.get(url, headers=..., params=params)], then
    [raise_for_status()] and [json()]. *)
Definition get (params : Dict) (net : Net) : Response * Net :=
  (answers net (length (sent net)) params,
   {| answers := answers net; sent := sent net ++ [params];
      naps := naps net |}).

End requests.

Import requests.

Module time.

(** [time.sleep(0.1)] *)
Definition sleep (net : Net) : Net :=
  {| answers := answers net; sent := sent net; naps := S (naps net) |}.

End time.

Module Fetch.

(** What the fetch comes to: the events, or the exception of a
    request. *)
Inductive Fetched (A : Type) :=
| Got (a : A)
| Failed.
Arguments Got {A} a.
Arguments Failed {A}.

(** [if cursor:] and [while cursor:] on a string or [None]. *)
Definition truthy (cursor : option string) : bool :=
  match cursor with
  | Some s => negb (bool_decide (s = String.EmptyString))
  | None => false
  end.

(** Lines 44-46. *)
Definition params (limit : Z) (status : string) (cursor : option string)
    : Dict :=
  [("limit", JNum limit); ("status", JStr status);
   ("with_nested_markets", JStr "true")]
  ++ match cursor with
     | Some c => if truthy cursor then [("cursor", JStr c)] else []
     | None => []
     end.

(** Lines 38-49. *)
Definition get_open_events (limit : Z) (status : string)
    (cursor : option string) (net : Net) : Response * Net :=
  requests.get (params limit status cursor) net.

(** [response.get('events', [])] *)
Definition page_events (body : Page) : list Dict := default [] (events body).

(** Lines 62-67: the loop [while cursor:], run for at most [fuel]
    rounds.  The [logger.debug] call of line 63 is below the level of
    the records kept in the log. *)
Fixpoint pagination (fuel : nat) (limit : Z) (status : string)
    (evs : list Dict) (cur : option string) (net : Net)
    : option (Fetched (list Dict) * Net) :=
  if truthy cur then
    match fuel with
    | 0 => None
    | S fuel' =>
        match get_open_events limit status cur net with
        | (RequestException, net') => Some (Failed, net')
        | (Ok response, net') =>
            pagination fuel' limit status (evs ++ page_events response)
                       (cursor response) (time.sleep net')
        end
    end
  else Some (Got evs, net).

(** Lines 56-67. *)
Definition fetch_events (fuel : nat) (limit : Z) (status : string) (net : Net)
    : option (Fetched (list Dict) * Net) :=
  match get_open_events limit status None net with
  | (RequestException, net') => Some (Failed, net')
  | (Ok response, net') =>
      pagination fuel limit status (page_events response) (cursor response) net'
  end.

(** How a cycle ends. *)
Inductive Cycle :=
| Completed (df : pd.DataFrame)
| RequestFailed
| Aborted (e : Exn).

(** [get_events_dataframe(limit, status)] in full: lines 56-67, then
    line 69 on. *)
Definition collect (fuel : nat) (limit : Z) (status : string)
    (net : Net) (w : World) : option (Cycle * Net * World) :=
  match fetch_events fuel limit status net with
  | None => None
  | Some (Failed, net') => Some (RequestFailed, net', w)
  | Some (Got evs, net') =>
      match get_events_dataframe evs w with
      | (Returned df, w') => Some (Completed df, net', w')
      | (Raised e, w') => Some (Aborted e, net', w')
      end
  end.

End Fetch.

(** ** Vocabulary of the properties *)

(** The identifier of an event, as the join reads it. *)
Definition event_ticker (e : Dict) : Json :=
  default JNull (dict_get e "event_ticker").

(** [len(event.markets)] *)
Definition num_markets (e : Dict) : nat :=
  match dict_get e "markets" with
  | Some (JArr l) => length l
  | _ => 0
  end.

(** [sum(len(event.markets) for event in events)] *)
Definition total_markets (events : list Dict) : nat :=
  sum_list (num_markets <$> events).

(** The rows of the [markets] table; none when there is no table. *)
Definition stored_rows (w : World) : list (gmap string string) :=
  match markets w with
  | Some tb => t_rows tb
  | None => []
  end.

(** Log records, as [logger.info] and [logger.exception] write them. *)
Definition info (m : string) : LogRecord :=
  {| levelname := INFO; msg := m; exc_info := None |}.

Definition failure (m : string) : LogRecord :=
  {| levelname := ERROR; msg := m; exc_info := Some SQLAlchemyError |}.

Definition deleted_record (t : string) : LogRecord :=
  info ("Deleted market '" +:+ t +:+ "' from database.").

(** What [DELETE ... WHERE market_ticker = t] leaves. *)
Definition without_ticker (t : string) (rows : list (gmap string string)) :=
  filter (λ r, r !! "market_ticker" ≠ Some t) rows.

(** The spec's insert condition: the ticker is not in the existing-ticker
    set and the status equals exactly "active". *)
Definition tracked (existing : gset string) (ticker : Json) : bool :=
  match ticker with
  | JStr t => bool_decide (t ∈ existing)
  | _ => false
  end.

Definition new_and_active (existing : gset string) (r : gmap string Json) : bool :=
  negb (tracked existing (pd.cell r "market_ticker"))
  && bool_decide (pd.cell r "market_status" = JStr "active").

Definition inserted_rows_record (n : nat) : LogRecord :=
  info ("Inserted " +:+ pretty n +:+ " new rows into 'markets'.").

Definition inserted_active_record (n : nat) : LogRecord :=
  info ("Inserted " +:+ pretty n +:+ " new active records.").

(** The spec's closure condition: the ticker is in the existing-ticker
    set, its last stored status was exactly "active", and the current
    status is in the CLOSED set.  The ticker is returned. *)
Definition closure_eligible (existing : gset string)
    (status_map : gmap (option string) (option string))
    (r : gmap string Json) : option string :=
  match pd.cell r "market_ticker", pd.cell r "market_status" with
  | JStr t, JStr s =>
      if bool_decide (t ∈ existing)
         && bool_decide (status_map !! Some t = Some (Some "active"))
         && bool_decide (s ∈ MarketCollector.CLOSED_STATUSES)
      then Some t else None
  | _, _ => None
  end.

(** One stamping of line 116, seen from a single row; [stamp_row] is
    what a sequence of them leaves in the row. *)
Definition stamp (t : string) (d : datetime) (r : gmap string Json)
    : gmap string Json :=
  if bool_decide (pd.cell r "market_ticker" = JStr t)
  then <["market_status_change_time" := JStr (isoformat d)]> r else r.

Definition stamp_row (stamps : list (string * datetime)) (r : gmap string Json)
    : gmap string Json :=
  foldl (λ r td, stamp td.1 td.2 r) r stamps.

(** The rows none of the tickers [ts] selects. *)
Definition without_tickers (ts : list string) (rows : list (gmap string string)) :=
  filter (λ r, Forall (λ t, r !! "market_ticker" ≠ Some t) ts) rows.

(** The distinct non-NULL tickers of stored rows. *)
Definition tickers_of (rows : list (gmap string string)) : gset string :=
  list_to_set (omap (λ r, r !! "market_ticker") rows).

(** The status of the last stored row with ticker [t]. *)
Definition last_status (rows : list (gmap string string)) (t : string)
    : option (option string) :=
  (λ r, r !! "market_status")
    <$> last (filter (λ r, r !! "market_ticker" = Some t) rows).

(** The four lines of the summary report. *)
Definition summary_records (date : string) (total_active closed opened : nat)
    : list LogRecord :=
  [info ("Summary for " +:+ date +:+ ":");
   info ("   " +:+ pretty total_active +:+ ": number of active markets");
   info ("   " +:+ pretty closed +:+ ": number of markets closed since last run");
   info ("   " +:+ pretty opened +:+ ": number of markets opened since last run")].

(** A ticker as the data model has it: a string, or absent. *)
Definition string_or_missing (v : Json) : Prop :=
  v = JNull ∨ ∃ s, v = JStr s.

(** ** Vocabulary of the further properties *)

(** The number of events of the fetch that carry the event ticker of
    [e]. *)
Definition listings (events : list Dict) (e : Dict) : nat :=
  length (filter (λ e', event_ticker e' = event_ticker e) events).

(** An event the flattening accepts: [markets] is a list or null, and
    the three fields copied to its markets are there. *)
Definition well_formed_event (e : Dict) : Prop :=
  (dict_get e "markets" = Some JNull ∨ ∃ l, dict_get e "markets" = Some (JArr l))
  ∧ is_Some (dict_get e "event_ticker")
  ∧ is_Some (dict_get e "series_ticker")
  ∧ is_Some (dict_get e "title").

(** A cell that is neither a list nor a dict. *)
Definition scalar (v : Json) : Prop :=
  match v with JArr _ | JObj _ => False | _ => True end.

(** The ticker of a row, when it is a string. *)
Definition ticker_text (r : gmap string Json) : option string :=
  match pd.cell r "market_ticker" with JStr t => Some t | _ => None end.

(** The string tickers of the rows that are new and active. *)
Definition new_tickers (existing : gset string) (df : pd.DataFrame) : gset string :=
  list_to_set (omap ticker_text
                 (filter (λ r, new_and_active existing r = true) (pd.rows df))).

(** The table after [_ensure_status_change_column]. *)
Definition migrated (tb : Table) : Table :=
  if bool_decide ("market_status_change_time" ∈ t_columns tb) then tb
  else {| t_columns := t_columns tb ++ ["market_status_change_time"];
          t_rows := t_rows tb |}.

(** The round trips that setting up the client makes: the table check
    and the column check, the CREATE TABLE when there is no table, the
    ALTER TABLE when the table lacks the change-time column. *)
Definition setup_round_trips (schema : list string) (w : World) : nat :=
  2 + (match markets w with Some _ => 0 | None => 1 end)
    + (if bool_decide ("market_status_change_time"
                       ∈ t_columns (default {| t_columns := schema; t_rows := [] |}
                                            (markets w)))
       then 0 else 1).

(** Every cell under a column of the frame can be bound to TEXT. *)
Definition bindable (df : pd.DataFrame) : Prop :=
  ∀ r c, r ∈ pd.rows df → c ∈ pd.columns df → scalar (pd.cell r c).

(** The columns of the frame are columns of the table, if there is
    one. *)
Definition fits (df : pd.DataFrame) (w : World) : Prop :=
  ∀ tb c, markets w = Some tb → c ∈ pd.columns df → c ∈ t_columns tb.

(** The cursors that the requests carry when the answers are [pages]:
    [first], then the cursor of each answer but the last. *)
Definition cursors_sent (first : option string) (pages : list Page)
    : list (option string) :=
  take (length pages) (first :: (cursor <$> pages)).

(** The next requests are answered by [pages], in this order, and each
    page but the last names a cursor to follow. *)
Definition answered (limit : Z) (status : string) (first : option string)
    (pages : list Page) (net : Net) : Prop :=
  ∀ k p, pages !! k = Some p →
    (∃ c, (first :: (cursor <$> pages)) !! k = Some c
          ∧ answers net (length (sent net) + k) (Fetch.params limit status c)
            = Ok p)
    ∧ Fetch.truthy (cursor p) = bool_decide (S k < length pages).

(** The answers [pages] all name a cursor to follow, and the request
    after them is refused. *)
Definition refused_after (limit : Z) (status : string) (first : option string)
    (pages : list Page) (net : Net) : Prop :=
  (∀ k p, pages !! k = Some p →
     (∃ c, (first :: (cursor <$> pages)) !! k = Some c
           ∧ answers net (length (sent net) + k) (Fetch.params limit status c)
             = Ok p)
     ∧ Fetch.truthy (cursor p) = true)
  ∧ ∃ c, (first :: (cursor <$> pages)) !! length pages = Some c
         ∧ answers net (length (sent net) + length pages)
                   (Fetch.params limit status c) = RequestException.

(** A flattened table as the data model has it: every row has a string
    ticker and a string status, and no two rows share a ticker. *)
Definition one_row_per_ticker (df : pd.DataFrame) : Prop :=
  (∀ r, r ∈ pd.rows df →
        ∃ t s, pd.cell r "market_ticker" = JStr t
               ∧ pd.cell r "market_status" = JStr s)
  ∧ NoDup ((λ r, pd.cell r "market_ticker") <$> pd.rows df).

(** The storage engine answers every round trip. *)
Definition healthy (w : World) : Prop := ∀ k, storage_fails w k = false.

(** A computation that leaves the engine's faults as they are. *)
Definition steady {A} (m : M A) : Prop :=
  ∀ w, storage_fails (m w).2 = storage_fails w.

(** What setting up the client logs in world [w]. *)
Definition setup_records (schema : list string) (w : World) : list LogRecord :=
  [info ("Connected to database at " +:+ db_file w)]
  ++ match markets w with
     | Some _ => []
     | None => [info ("Created table 'markets' with columns: "
                      +:+ DatabaseClient.repr_list schema)]
     end
  ++ (if bool_decide
           ("market_status_change_time"
            ∈ t_columns (default {| t_columns := schema; t_rows := [] |}
                                 (markets w)))
      then [] else [info "Added column 'market_status_change_time'."]).

(** ** Sample data *)

Definition sample_market (ticker status : string) : Json :=
  JObj [("ticker", JStr ticker); ("status", JStr status);
        ("rules_primary", JStr "resolves to Yes if ...");
        ("rules_secondary", JStr "otherwise No");
        ("custom_strike", JObj [("Above", JNum 3)])].

Definition sample_event (ticker : string) (ms : list Json) : Dict :=
  [("event_ticker", JStr ticker); ("series_ticker", JStr "KX");
   ("title", JStr "Title"); ("sub_title", JStr "Subtitle");
   ("markets", JArr ms)].

Definition first_fetch : list Dict :=
  [sample_event "E1" [sample_market "M1" "active"; sample_market "M2" "settled"];
   sample_event "E2" [];
   sample_event "E3" [sample_market "M3" "active"]].

Definition second_fetch : list Dict :=
  [sample_event "E1" [sample_market "M1" "settled"; sample_market "M2" "settled"];
   sample_event "E3" [sample_market "M3" "active"; sample_market "M4" "active"]].

Definition repeated_event_fetch : list Dict :=
  [sample_event "E1" [sample_market "M1" "active"];
   sample_event "E1" [sample_market "M1" "active"]].

Definition sample_time : datetime :=
  {| year := 2026; month := 1; day := 2;
     hour := 3; minute := 4; second := 5; microsecond := 678 |}.

(** No database file yet; the storage engine never fails. *)
Definition fresh_world : World :=
  {| db_file := "/data/kalshi.db"; db_file_exists := false; markets := None;
     log := []; storage_fails := λ _, false; round_trips := 0;
     utcnow := λ _, sample_time; clock_reads := 0 |}.

(** The storage engine answers the first inspection and refuses the
    statement after it. *)
Definition read_only_world : World :=
  {| db_file := "/data/kalshi.db"; db_file_exists := false; markets := None;
     log := []; storage_fails := λ n, bool_decide (n = 1); round_trips := 0;
     utcnow := λ _, sample_time; clock_reads := 0 |}.

(** The value a run returned, [d] if it raised. *)
Definition value {A} (d : A) (r : Outcome A * World) : A :=
  match r.1 with Returned a => a | Raised _ => d end.

(** The world after a first cycle: M1 and M3 are stored, active. *)
Definition tracked_world : World :=
  (get_events_dataframe first_fetch fresh_world).2.

(** The stages of a second cycle, run in that world. *)
Definition sample_joined : pd.DataFrame :=
  match normalize_data second_fetch with Returned d => d | Raised _ => pd.empty end.

Definition sample_df : pd.DataFrame :=
  match clean_up sample_joined with Returned d => d | Raised _ => pd.empty end.

Definition sample_schema : list string := pd.uniq [] (pd.columns sample_df).

Definition cycle_init := DatabaseClient.__init__ sample_schema tracked_world.

Definition cycle_state := read_state cycle_init.2.

Definition sample_existing : gset string := (value (∅, ∅) cycle_state).1.
Definition sample_status_map : gmap (option string) (option string) :=
  (value (∅, ∅) cycle_state).2.

Definition cycle_insert := insert_pass sample_existing sample_df cycle_state.2.
Definition cycle_closure :=
  closure_pass sample_existing sample_status_map sample_df cycle_insert.2.

Definition returns {A} (o : Outcome A) : bool :=
  match o with Returned _ => true | Raised _ => false end.

(** A store seeded by hand: T1 twice, a row without ticker, T2. *)
Definition seeded_world : World :=
  {| db_file := "/data/kalshi.db"; db_file_exists := true;
     markets := Some {| t_columns := ["market_ticker"; "market_status";
                                      "market_status_change_time"];
                        t_rows := [ {[ "market_ticker" := "T1";
                                       "market_status" := "active" ]};
                                    {[ "market_ticker" := "T1";
                                       "market_status" := "active" ]};
                                    {[ "market_status" := "active" ]};
                                    {[ "market_ticker" := "T2";
                                       "market_status" := "active" ]} ] |};
     log := []; storage_fails := λ _, false; round_trips := 0;
     utcnow := λ _, sample_time; clock_reads := 0 |}.

(** A flattened fetch against the seeded store: T1 and T2 have closed,
    T3 is new. *)
Definition seeded_fetch : pd.DataFrame :=
  pd.DataFrame_of_records
    [[("market_ticker", JStr "T1"); ("market_status", JStr "settled")];
     [("market_ticker", JStr "T2"); ("market_status", JStr "closed")];
     [("market_ticker", JStr "T3"); ("market_status", JStr "active")]].

(** Nothing has changed for T1, and T3 is new but already closed. *)
Definition quiet_fetch : pd.DataFrame :=
  pd.DataFrame_of_records
    [[("market_ticker", JStr "T1"); ("market_status", JStr "active")];
     [("market_ticker", JStr "T3"); ("market_status", JStr "closed")]].

Definition seeded_existing : gset string := tickers_of (stored_rows seeded_world).

Definition seeded_status_map : gmap (option string) (option string) :=
  value ∅ (DatabaseClient.get_market_status_map seeded_world).

(** The seeded store behind an engine that refuses every statement. *)
Definition refusing_world : World :=
  {| db_file := db_file seeded_world; db_file_exists := true;
     markets := markets seeded_world; log := [];
     storage_fails := λ _, true; round_trips := 0;
     utcnow := λ _, sample_time; clock_reads := 0 |}.

(** The seeded store behind an engine that refuses the second
    statement. *)
Definition flaky_world : World :=
  {| db_file := db_file seeded_world; db_file_exists := true;
     markets := markets seeded_world; log := [];
     storage_fails := λ n, bool_decide (n = 1); round_trips := 0;
     utcnow := λ _, sample_time; clock_reads := 0 |}.

(** Two pages: the first names a cursor, the second ends the listing. *)
Definition sample_pages : list Page :=
  [ {| events := Some first_fetch; cursor := Some "page-2" |};
    {| events := Some [sample_event "E4" [sample_market "M5" "active"]];
       cursor := Some String.EmptyString |} ].

(** The remote end that serves these pages and refuses any further
    request. *)
Definition sample_net : Net :=
  {| answers := λ n _, match sample_pages !! n with
                       | Some p => Ok p
                       | None => RequestException
                       end;
     sent := []; naps := 0 |}.

(** A remote end that always names a next page. *)
Definition endless_net : Net :=
  {| answers := λ _ _, Ok {| events := None; cursor := Some "more" |};
     sent := []; naps := 0 |}.

Definition is_scalar (v : Json) : bool :=
  match v with JArr _ | JObj _ => false | _ => true end.

Definition raises {A} (o : Outcome A) : bool :=
  match o with Returned _ => false | Raised _ => true end.

(** The error a run raised, [d] if it returned. *)
Definition error {A} (d : Exn) (r : Outcome A * World) : Exn :=
  match r.1 with Returned _ => d | Raised e => e end.

Definition is_text (v : Json) : bool :=
  match v with JStr _ => true | _ => false end.

(** * Properties *)

(** ** Outcomes *)

Lemma bindO_Returned {A B} (m : Outcome A) (f : A → Outcome B) b :
  m ≫= f = Returned b → ∃ a, m = Returned a ∧ f a = Returned b.
Proof. destruct m as [a|e]; [eauto | discriminate]. Qed.

Lemma mapO_Returned {A B} (f : A → Outcome B) xs ys :
  mapO f xs = Returned ys → Forall2 (λ x y, f x = Returned y) xs ys.
Proof.
  revert ys; induction xs as [|x xs IH]; intros ys H; simpl in H.
  - injection H as <-. constructor.
  - apply bindO_Returned in H as (y & Hy & H).
    apply bindO_Returned in H as (ys' & Hys & H).
    injection H as <-. constructor; auto.
Qed.

(** ** Flattening *)

Lemma list_to_map_dict_get (d : Dict) k :
  (list_to_map d : gmap string Json) !! k = dict_get d k.
Proof.
  unfold dict_get. induction d as [|[k' v] d IH]; simpl.
  - apply lookup_empty.
  - rewrite lookup_insert. case_bool_decide; case_decide; simplify_eq; try done.
Qed.

Lemma pull_records_length e recs :
  pd.pull_records (JObj e) "markets" = Returned recs →
  length recs = num_markets e.
Proof.
  unfold pd.pull_records, pd.pull_field, num_markets.
  destruct (dict_get e "markets") as [v|]; simpl; [|discriminate].
  destruct v; try discriminate.
  - by intros [= <-].
  - intros H%mapO_Returned. symmetry. by eapply Forall2_length.
Qed.

Lemma lookup_prefixed_meta (r : Dict) (metas : Dict) :
  (list_to_map (pd.add_prefix "market_" r ++ metas) : gmap string Json)
    !! "event_event_ticker"
  = (list_to_map metas : gmap string Json) !! "event_event_ticker".
Proof.
  rewrite list_to_map_app. apply lookup_union_r.
  apply not_elem_of_list_to_map_1. unfold pd.add_prefix.
  rewrite <- list_fmap_compose. intros (kv & Hk & _)%list_elem_of_fmap.
  simpl in Hk. discriminate.
Qed.

Lemma normalize_one_spec e recs metas :
  pd.normalize_one "markets" ["event_ticker"; "series_ticker"; "title"]
    "market_" "event_" (JObj e) = Returned (recs, metas) →
  length recs = num_markets e
  ∧ ∀ r, r ∈ recs →
      pd.cell (list_to_map (r ++ metas)) "event_event_ticker" = event_ticker e.
Proof.
  unfold pd.normalize_one.
  intros (recs0 & Hrecs & H)%bindO_Returned.
  apply bindO_Returned in H as (metas0 & Hmetas & [= <- <-]).
  split.
  - rewrite length_fmap. by apply pull_records_length.
  - intros r (r0 & -> & _)%list_elem_of_fmap.
    unfold pd.cell. rewrite lookup_prefixed_meta.
    simpl in Hmetas. unfold event_ticker.
    destruct (dict_get e "event_ticker") as [v|]; simpl in Hmetas; [|discriminate].
    apply bindO_Returned in Hmetas as (ms & _ & [= <-]).
    simpl. by rewrite lookup_insert_eq.
Qed.

Lemma filter_none {A} (P : A → Prop) `{∀ x, Decision (P x)} (l : list A) :
  (∀ x, x ∈ l → ¬ P x) → filter P l = [].
Proof.
  induction l as [|y l IH]; intros HP; [done|].
  rewrite filter_cons, decide_False by (apply HP; left).
  apply IH. intros x Hx. apply HP. by right.
Qed.

Lemma event_cell (d : Dict) :
  pd.cell (list_to_map d) "event_ticker" = event_ticker d.
Proof. unfold pd.cell, event_ticker. by rewrite list_to_map_dict_get. Qed.

Lemma partners_unique (events : list Dict) (e : Dict) :
  NoDup (event_ticker <$> events) → e ∈ events →
  length (pd.partners (pd.DataFrame_of_records events) "event_ticker"
            (event_ticker e)) = 1.
Proof.
  unfold pd.partners; simpl.
  induction events as [|d events IH]; intros Hnd Hin.
  - by apply elem_of_nil in Hin.
  - apply NoDup_cons in Hnd as [Hd Hnd]. simpl.
    rewrite filter_cons, event_cell.
    destruct (decide (event_ticker d = event_ticker e)) as [Heq|Hne].
    + simpl. f_equal. apply length_zero_iff_nil, filter_none.
      intros r (d' & -> & Hd')%list_elem_of_fmap. rewrite event_cell.
      intros Heq'. apply Hd. rewrite Heq, <- Heq'.
      by apply list_elem_of_fmap_2.
    + apply elem_of_cons in Hin as [->|Hin]; [done|]. by apply IH.
Qed.

Lemma merge_row_single left right lo ro sl sr l :
  length (pd.partners right ro (pd.cell l lo)) = 1 →
  length (pd.merge_row left right lo ro sl sr l) = 1.
Proof.
  unfold pd.merge_row. destruct (pd.partners right ro (pd.cell l lo)) as [|p ps];
    [done|]. simpl. rewrite length_map. done.
Qed.

Lemma length_concat_singletons {A B} (f : A → list B) (l : list A) :
  (∀ x, x ∈ l → length (f x) = 1) → length (concat (map f l)) = length l.
Proof.
  induction l as [|x l IH]; intros H; simpl; [done|].
  rewrite length_app, H by left. f_equal. apply IH. intros y Hy. apply H. by right.
Qed.

Lemma normalized_records (events : list Dict) per_obj :
  Forall2 (λ x y, pd.normalize_one "markets"
                    ["event_ticker"; "series_ticker"; "title"]
                    "market_" "event_" x = Returned y)
          (JObj <$> events) per_obj →
  let rows := concat ((λ rm : list Dict * Dict,
                         (λ r, list_to_map (r ++ rm.2) : gmap string Json)
                           <$> rm.1) <$> per_obj) in
  length rows = total_markets events
  ∧ ∀ l, l ∈ rows →
      ∃ e, e ∈ events ∧ pd.cell l "event_event_ticker" = event_ticker e.
Proof.
  unfold total_markets. revert per_obj.
  induction events as [|e events IH]; intros per_obj H; simpl in H.
  - apply Forall2_nil_inv_l in H as ->. split; [done|].
    intros r Hr. by apply elem_of_nil in Hr.
  - apply Forall2_cons_inv_l in H as ([recs metas] & rest & H1 & H2 & ->).
    apply normalize_one_spec in H1 as [Hlen Hkey].
    destruct (IH _ H2) as [IHlen IHkey]. simpl. split.
    + rewrite length_app, length_fmap. f_equal; [exact Hlen|exact IHlen].
    + intros l [Hl|Hl]%elem_of_app.
      * apply list_elem_of_fmap in Hl as (r & -> & Hr).
        exists e. split; [left|auto].
      * destruct (IHkey l Hl) as (e' & He' & Hc). exists e'.
        split; [by right|done].
Qed.

(** Row-count law for the join of lines 69-81. *)
Lemma normalize_data_len (events : list Dict) (df : pd.DataFrame) :
  NoDup (event_ticker <$> events) →
  normalize_data events = Returned df →
  pd.len df = total_markets events.
Proof.
  intros Hnd. unfold normalize_data.
  intros (markets_df & Hn & Hm)%bindO_Returned.
  unfold pd.json_normalize in Hn.
  destruct events as [|e0 events0] eqn:Hev.
  { simpl in Hn. injection Hn as <-. discriminate. }
  rewrite <- Hev in *. assert (Hne : JObj <$> events ≠ []) by (by rewrite Hev).
  destruct (JObj <$> events) as [|j js] eqn:Hjs; [done|]. rewrite <- Hjs in Hn.
  apply bindO_Returned in Hn as (per_obj & Hper & [= <-]).
  apply mapO_Returned, normalized_records in Hper as [Hlen Hkey].
  unfold pd.merge_left in Hm.
  repeat (case_match; try discriminate). injection Hm as <-.
  unfold pd.len; simpl. rewrite length_concat_singletons; [done|].
  intros l Hl. apply merge_row_single.
  destruct (Hkey l Hl) as (e & He & ->). by apply partners_unique.
Qed.

Lemma clean_up_len df df' : clean_up df = Returned df' → pd.len df' = pd.len df.
Proof.
  unfold clean_up, pd.select. intros (d & Hsel & [= <-])%bindO_Returned.
  case_match; [discriminate|]. injection Hsel as <-.
  unfold pd.len; simpl. by rewrite !length_map.
Qed.

Lemma keep_columns_columns keep df c :
  c ∈ pd.columns (pd.keep_columns keep df) → keep c = true ∧ c ∈ pd.columns df.
Proof. unfold pd.keep_columns; simpl. by intros ?%list_elem_of_filter. Qed.

Lemma keep_columns_rows keep df r c :
  r ∈ pd.rows (pd.keep_columns keep df) → keep c = false → r !! c = None.
Proof.
  unfold pd.keep_columns; simpl. intros (r0 & -> & _)%list_elem_of_fmap Hk.
  apply map_lookup_filter_None. right. intros x _. simpl. by rewrite Hk.
Qed.

Lemma keep_columns_rows_sub keep df r c :
  r ∈ pd.rows (pd.keep_columns keep df) →
  (∀ r0, r0 ∈ pd.rows df → r0 !! c = None) → r !! c = None.
Proof.
  unfold pd.keep_columns; simpl. intros (r0 & -> & Hr0)%list_elem_of_fmap Hk.
  apply map_lookup_filter_None. left. by apply Hk.
Qed.

Lemma assign_columns c0 v df c :
  c ∈ pd.columns (pd.assign c0 v df) → c = c0 ∨ c ∈ pd.columns df.
Proof.
  unfold pd.assign; simpl. case_bool_decide; [by right|].
  intros [?|Hc]%elem_of_app; [by right|].
  apply list_elem_of_singleton in Hc. by left.
Qed.

Lemma assign_rows c0 v df r c :
  r ∈ pd.rows (pd.assign c0 v df) → c ≠ c0 →
  (∀ r0, r0 ∈ pd.rows df → r0 !! c = None) → r !! c = None.
Proof.
  unfold pd.assign; simpl. intros (r0 & -> & Hr0)%list_elem_of_fmap Hne Hk.
  rewrite lookup_insert_ne by done. by apply Hk.
Qed.

Lemma clean_up_no_custom_strike df df' c :
  clean_up df = Returned df' →
  String.prefix "market_custom_strike" c = true →
  (c ∉ pd.columns df') ∧ (∀ r, r ∈ pd.rows df' → r !! c = None).
Proof.
  unfold clean_up. intros (d & _ & [= <-])%bindO_Returned Hc.
  assert (Hne : c ≠ "market_status_change_time").
  { intros ->. vm_compute in Hc. discriminate. }
  split.
  - intros [?|Hin]%assign_columns; [done|].
    apply keep_columns_columns in Hin as [_ Hin].
    apply keep_columns_columns in Hin as [Hp _]. by rewrite Hc in Hp.
  - intros r Hr. eapply assign_rows; [done..|].
    intros r1 Hr1. eapply keep_columns_rows_sub; [done|].
    intros r2 Hr2. eapply keep_columns_rows; [done|]. simpl. by rewrite Hc.
Qed.

(** ** Runs in a world *)

Lemma bindM_Returned {A B} (m : M A) (f : A → M B) w b w' :
  (m ≫= f) w = (Returned b, w') →
  ∃ a w1, m w = (Returned a, w1) ∧ f a w1 = (Returned b, w').
Proof.
  unfold mbind, M_bind. destruct (m w) as [[a|e] w1]; [eauto|discriminate].
Qed.

Lemma fmapM_Returned {A B} (f : A → B) (m : M A) w b w' :
  (f <$> m) w = (Returned b, w') → ∃ a, m w = (Returned a, w') ∧ b = f a.
Proof.
  unfold fmap, M_fmap. destruct (m w) as [[a|e] w1]; [|discriminate].
  intros [= <- <-]. eauto.
Qed.

Lemma round_trip_Returned {A} (stmt : option Table → Outcome A * option Table) w a w' :
  round_trip stmt w = (Returned a, w') →
  storage_fails w (round_trips w) = false
  ∧ ∃ t, stmt (markets w) = (Returned a, t) ∧ w' = set_markets t (connected w).
Proof.
  unfold round_trip. destruct (storage_fails w (round_trips w)); [discriminate|].
  destruct (stmt (markets w)) as [r t]. intros [= -> <-]. eauto.
Qed.

(** ** The store operations *)

(** [delete_market] in full: the three ways it can go. *)
Lemma delete_market_cases t w :
  DatabaseClient.delete_market t w =
  if storage_fails w (round_trips w)
  then (Raised SQLAlchemyError,
        add_log (failure ("Failed to delete market '" +:+ t +:+ "'.")) (refused w))
  else match markets w with
       | Some tb =>
           if bool_decide ("market_ticker" ∈ t_columns tb)
           then (Returned (),
                 add_log (deleted_record t)
                   (set_markets (Some {| t_columns := t_columns tb;
                                         t_rows := without_ticker t (t_rows tb) |})
                                (connected w)))
           else (Raised SQLAlchemyError,
                 add_log (failure ("Failed to delete market '" +:+ t +:+ "'."))
                         (set_markets (markets w) (connected w)))
       | None =>
           (Raised SQLAlchemyError,
            add_log (failure ("Failed to delete market '" +:+ t +:+ "'."))
                    (set_markets (markets w) (connected w)))
       end.
Proof.
  unfold DatabaseClient.delete_market, try_except_SQLAlchemyError, mbind, M_bind,
    round_trip, sql.delete.
  destruct (storage_fails w (round_trips w)); [reflexivity|].
  destruct (markets w) as [tb|]; [|reflexivity].
  case_bool_decide; reflexivity.
Qed.

(** ** The insert pass *)

Lemma py_in_Returned v s b : py_in v s = Returned b → b = tracked s v.
Proof. destruct v; simpl; intros [= <-]; reflexivity. Qed.

Lemma new_active_mask_spec existing df mask :
  new_active_mask existing df = Returned mask →
  pd.rows (pd.boolean_index df mask)
  = filter (λ r, new_and_active existing r = true) (pd.rows df).
Proof.
  unfold new_active_mask, pd.column.
  intros (tickers & Ht & H)%bindO_Returned.
  apply bindO_Returned in H as (tr & Htr & H).
  apply bindO_Returned in H as (statuses & Hs & [= <-]).
  repeat case_bool_decide; try discriminate.
  injection Ht as <-. injection Hs as <-.
  apply mapO_Returned in Htr. unfold pd.boolean_index; simpl.
  revert tr Htr. induction (pd.rows df) as [|r rows IH]; intros tr Htr; simpl in *.
  - by apply Forall2_nil_inv_l in Htr as ->.
  - apply Forall2_cons_inv_l in Htr as (b & tr' & Hb & Htr & ->).
    apply py_in_Returned in Hb as ->. simpl.
    rewrite !filter_cons. simpl.
    unfold new_and_active at 1.
    do 2 case_decide; simpl; try done; [f_equal|]; by apply IH.
Qed.

Lemma append_dataframe_Returned df w w' :
  DatabaseClient.append_dataframe df w = (Returned (), w') →
  ∃ bound,
    mapM (sql.bind_row (pd.columns df)) (pd.rows df) = Some bound
    ∧ stored_rows w' = stored_rows w ++ bound
    ∧ log w' = log w ++ [inserted_rows_record (pd.len df)]
    ∧ utcnow w' = utcnow w ∧ clock_reads w' = clock_reads w.
Proof.
  unfold DatabaseClient.append_dataframe, try_except_SQLAlchemyError, mbind,
    M_bind, round_trip, sql.append, stored_rows.
  destruct (storage_fails w (round_trips w)); [discriminate|].
  destruct (mapM _ _) as [bound|]; [|discriminate].
  destruct (markets w) as [tb|].
  - destruct (forallb _ _); [|discriminate].
    intros [= <-]. exists bound. simpl. done.
  - intros [= <-]. exists bound. simpl. done.
Qed.

(** A failed append is logged before it propagates. *)
Lemma append_dataframe_Raised df w e w' :
  DatabaseClient.append_dataframe df w = (Raised e, w') →
  e = SQLAlchemyError ∧ markets w' = markets w
  ∧ log w' = log w ++ [failure "DB insert failed."].
Proof.
  unfold DatabaseClient.append_dataframe, try_except_SQLAlchemyError, mbind,
    M_bind, round_trip, sql.append.
  destruct (storage_fails w (round_trips w)); [by intros [= <- <-]|].
  destruct (mapM _ _) as [bound|]; [|by intros [= <- <-]].
  destruct (markets w) as [tb|] eqn:Hm.
  - destruct (forallb _ _); [discriminate|]. by intros [= <- <-].
  - discriminate.
Qed.

Lemma insert_pass_Returned existing df w n w' :
  insert_pass existing df w = (Returned n, w') →
  let new_active := filter (λ r, new_and_active existing r = true) (pd.rows df) in
  n = length new_active
  ∧ (n = 0 → w' = w)
  ∧ ∃ bound,
      mapM (sql.bind_row (pd.columns df)) new_active = Some bound
      ∧ stored_rows w' = stored_rows w ++ bound
      ∧ log w' = log w ++ (if decide (n = 0) then []
                           else [inserted_rows_record n; inserted_active_record n])
      ∧ utcnow w' = utcnow w ∧ clock_reads w' = clock_reads w.
Proof.
  unfold insert_pass. intros (mask & w1 & Hmask & H)%bindM_Returned.
  unfold lift in Hmask. injection Hmask as Hmask <-.
  apply new_active_mask_spec in Hmask.
  apply bindM_Returned in H as ([] & w2 & Hact & [= <- <-]).
  unfold pd.len in *. rewrite Hmask in *. simpl.
  split; [done|]. case_bool_decide as Hn.
  - injection Hact as <-. split; [done|].
    apply length_zero_iff_nil in Hn. rewrite Hn. exists []. simpl.
    rewrite !app_nil_r. done.
  - split; [done|].
    apply bindM_Returned in Hact as ([] & w3 & Happ & Hlog).
    apply append_dataframe_Returned in Happ
      as (bound & Hb & Hrows & Hl & Hu & Hc).
    injection Hlog as <-. simpl in *. rewrite Hmask in Hb.
    exists bound. rewrite decide_False by done.
    unfold pd.len in Hl. simpl in Hl. rewrite Hmask in Hl.
    rewrite Hl, <- app_assoc. done.
Qed.

(** ** The closure pass *)

Lemma closing_Returned existing status_map r o :
  closing existing status_map r = Returned o →
  o = closure_eligible existing status_map r.
Proof.
  unfold closing, closure_eligible.
  destruct (pd.cell r "market_ticker") as [| | |t| |]; simpl;
    try (by intros [= <-]).
  destruct (bool_decide (t ∈ existing)), (bool_decide (_ !! _ = _)),
    (pd.cell r "market_status"); simpl; try discriminate; by intros [= <-].
Qed.

Lemma delete_market_Returned t w w' :
  DatabaseClient.delete_market t w = (Returned (), w') →
  stored_rows w' = without_ticker t (stored_rows w)
  ∧ log w' = log w ++ [deleted_record t]
  ∧ utcnow w' = utcnow w ∧ clock_reads w' = clock_reads w
  ∧ storage_fails w (round_trips w) = false
  ∧ ∃ tb, markets w = Some tb ∧ "market_ticker" ∈ t_columns tb.
Proof.
  rewrite delete_market_cases. unfold stored_rows.
  destruct (storage_fails w (round_trips w)); [discriminate|].
  destruct (markets w) as [tb|]; [|discriminate].
  case_bool_decide; [|discriminate]. intros [= <-]. simpl. eauto 10.
Qed.

Lemma without_tickers_cons t ts rows :
  without_tickers (t :: ts) rows = without_tickers ts (without_ticker t rows).
Proof.
  unfold without_tickers, without_ticker.
  induction rows as [|r rows IH]; [done|].
  rewrite !filter_cons. destruct (decide (r !! "market_ticker" ≠ Some t)) as [Hr|Hr].
  - rewrite filter_cons. destruct (decide (Forall _ ts)) as [Hts|Hts].
    + rewrite decide_True by (by constructor). by rewrite IH.
    + rewrite decide_False; [done|]. by intros [_ ?]%Forall_cons.
  - rewrite decide_False; [done|]. by intros [? _]%Forall_cons.
Qed.

Lemma filter_all {A} (P : A → Prop) `{∀ x, Decision (P x)} (l : list A) :
  (∀ x, x ∈ l → P x) → filter P l = l.
Proof.
  induction l as [|y l IH]; intros HP; [done|].
  rewrite filter_cons, decide_True by (apply HP; left).
  f_equal. apply IH. intros x Hx. apply HP. by right.
Qed.

Lemma closure_loop_Returned existing status_map todo : ∀ df n w df' n' w',
  closure_loop existing status_map todo df n w = (Returned (df', n'), w') →
  let tickers := omap (closure_eligible existing status_map) todo in
  let times := utcnow w <$> seq (clock_reads w) (length tickers) in
  n' = n + length tickers
  ∧ stored_rows w' = without_tickers tickers (stored_rows w)
  ∧ log w' = log w ++ (deleted_record <$> tickers)
  ∧ pd.columns df' = pd.columns df
  ∧ pd.rows df' = stamp_row (zip tickers times) <$> pd.rows df
  ∧ utcnow w' = utcnow w
  ∧ clock_reads w' = clock_reads w + length tickers.
Proof.
  induction todo as [|row rest IH]; intros df n w df' n' w' H; simpl in H.
  - injection H as <- <- <-. simpl. rewrite app_nil_r, !Nat.add_0_r.
    unfold without_tickers. rewrite filter_all by (intros; constructor).
    unfold stamp_row; simpl. by rewrite list_fmap_id.
  - apply bindM_Returned in H as (hit & w0 & Hhit & H).
    unfold lift in Hhit. injection Hhit as Hhit <-.
    apply closing_Returned in Hhit as ->. simpl.
    destruct (closure_eligible existing status_map row) as [t|]; [|by apply IH].
    apply bindM_Returned in H as (change_time & w1 & Hnow & H).
    apply fmapM_Returned in Hnow as (d & Hnow & ->).
    unfold now_utc in Hnow. injection Hnow as <- <-.
    apply bindM_Returned in H as ([] & w2 & Hdel & H).
    apply delete_market_Returned in Hdel as (Hrows & Hlog & Hu & Hc & _).
    apply IH in H as (-> & Hrows' & Hlog' & Hcols & Hdf & Hu' & Hc').
    simpl in *. rewrite Hu, Hc in *.
    rewrite Hrows', Hrows, Hlog', Hlog, Hcols, Hdf, Hu', Hc'.
    rewrite without_tickers_cons, <- app_assoc, <- list_fmap_compose.
    repeat split; try done; unfold omap; lia.
Qed.

(** ** Reading the store *)

Lemma lookup_restrict {V} (cols : list string) (r : gmap string V) c :
  c ∈ cols → filter (λ kv, kv.1 ∈ cols) r !! c = r !! c.
Proof.
  intros Hc. destruct (r !! c) as [v|] eqn:Hr.
  - by apply map_lookup_filter_Some_2.
  - apply map_lookup_filter_None_2. by left.
Qed.

Lemma fmap_restrict {V B} (cols : list string) (f : gmap string V → B)
    (rows : list (gmap string V)) :
  (∀ r, f (filter (λ kv, kv.1 ∈ cols) r) = f r) →
  f <$> map (λ r, filter (λ kv, kv.1 ∈ cols) r) rows = f <$> rows.
Proof.
  intros Hf. rewrite <- list_fmap_compose. apply list_fmap_ext.
  intros _ r _. apply Hf.
Qed.

Lemma omap_restrict {V} (cols : list string) c (rows : list (gmap string V)) :
  c ∈ cols →
  omap (λ r, r !! c) (map (λ r, filter (λ kv, kv.1 ∈ cols) r) rows)
  = omap (λ r, r !! c) rows.
Proof.
  intros Hc. induction rows as [|r rows IH]; [done|].
  simpl. rewrite lookup_restrict by done. unfold omap in IH. by rewrite IH.
Qed.

Lemma get_existing_market_tickers_Returned w s w' :
  DatabaseClient.get_existing_market_tickers w = (Returned s, w') →
  s = tickers_of (stored_rows w)
  ∧ markets w' = markets w ∧ log w' = log w
  ∧ utcnow w' = utcnow w ∧ clock_reads w' = clock_reads w.
Proof.
  unfold DatabaseClient.get_existing_market_tickers.
  intros (present & w1 & Hp & H)%bindM_Returned.
  apply round_trip_Returned in Hp as (_ & t & Hp & ->).
  unfold sql.has_table in Hp. injection Hp as <- <-.
  unfold tickers_of, stored_rows.
  destruct (markets w) as [tb|] eqn:Hm; simpl in H.
  - apply bindM_Returned in H as (df & w2 & Hr & [= <- <-]).
    apply round_trip_Returned in Hr as (_ & t & Hr & ->). simpl in Hr.
    unfold sql.read_table in Hr.
    case_match; [discriminate|]. injection Hr as <- <-.
    rewrite omap_restrict by (by apply list_elem_of_singleton). done.
  - injection H as <- <-. simpl. done.
Qed.

Lemma dict_zip_lookup {A} (k v : A → option string) (rows : list A) key :
  DatabaseClient.dict_zip ((λ r, (k r, v r)) <$> rows) !! key
  = v <$> last (filter (λ r, k r = key) rows).
Proof.
  unfold DatabaseClient.dict_zip.
  assert (∀ m : gmap (option string) (option string),
    fold_left (λ m kv, <[kv.1 := kv.2]> m) ((λ r, (k r, v r)) <$> rows) m !! key
    = match last (filter (λ r, k r = key) rows) with
      | Some r => Some (v r)
      | None => m !! key
      end) as Hgen.
  { induction rows as [|r rows IH]; intros m; [done|].
    rewrite fmap_cons. simpl. rewrite IH, filter_cons.
    destruct (decide (k r = key)) as [<-|Hne].
    - rewrite last_cons. destruct (last _); [done|].
      by rewrite lookup_insert_eq.
    - destruct (last _); [done|]. by rewrite lookup_insert_ne. }
  rewrite Hgen. by destruct (last _).
Qed.

Lemma get_market_status_map_Returned w sm w' :
  DatabaseClient.get_market_status_map w = (Returned sm, w') →
  (∀ t, sm !! Some t = last_status (stored_rows w) t)
  ∧ markets w' = markets w ∧ log w' = log w
  ∧ utcnow w' = utcnow w ∧ clock_reads w' = clock_reads w.
Proof.
  unfold DatabaseClient.get_market_status_map.
  intros (present & w1 & Hp & H)%bindM_Returned.
  apply round_trip_Returned in Hp as (_ & t & Hp & ->).
  unfold sql.has_table in Hp. injection Hp as <- <-.
  unfold last_status, stored_rows.
  destruct (markets w) as [tb|] eqn:Hm; simpl in H.
  - apply bindM_Returned in H as (df & w2 & Hr & [= <- <-]).
    apply round_trip_Returned in Hr as (_ & t & Hr & ->). simpl in Hr.
    unfold sql.read_table in Hr.
    case_match; [discriminate|]. injection Hr as <- <-.
    split; [|done]. intros t.
    change (map ?f ?l) with (f <$> l).
    rewrite (fmap_restrict _ (λ r, (r !! "market_ticker", r !! "market_status"))).
    + apply (dict_zip_lookup (λ r, r !! "market_ticker") (λ r, r !! "market_status")).
    + intros r. by rewrite !lookup_restrict by set_solver.
  - injection H as <- <-. simpl. split; [|done]. intros t. apply lookup_empty.
Qed.

Lemma read_state_Returned w existing status_map w' :
  read_state w = (Returned (existing, status_map), w') →
  (db_file_exists w = true → existing = tickers_of (stored_rows w))
  ∧ (∀ t, status_map !! Some t = last_status (stored_rows w) t)
  ∧ markets w' = markets w ∧ log w' = log w
  ∧ utcnow w' = utcnow w ∧ clock_reads w' = clock_reads w.
Proof.
  unfold read_state. intros (file & w1 & Hf & H)%bindM_Returned.
  unfold os_path_exists in Hf. injection Hf as <- <-.
  apply bindM_Returned in H as (ex & w2 & Hex & H).
  apply bindM_Returned in H as (sm & w3 & Hsm & [= <- <- <-]).
  apply get_market_status_map_Returned in Hsm as (Hsm & Hm & Hl & Hu & Hc).
  destruct (db_file_exists w).
  - apply get_existing_market_tickers_Returned in Hex
      as (-> & Hm' & Hl' & Hu' & Hc').
    unfold stored_rows in *. rewrite Hm' in Hsm.
    repeat split; try done; congruence.
  - injection Hex as <- <-. repeat split; try done.
Qed.

(** ** Setting up the client *)

Lemma _ensure_table_Returned schema w w' :
  DatabaseClient._ensure_table schema w = (Returned (), w') →
  db_file_exists w' = true ∧ stored_rows w' = stored_rows w
  ∧ is_Some (markets w').
Proof.
  unfold DatabaseClient._ensure_table.
  intros (present & w1 & Hp & H)%bindM_Returned.
  apply round_trip_Returned in Hp as (_ & t & Hp & ->).
  unfold sql.has_table in Hp. injection Hp as <- <-.
  unfold stored_rows.
  destruct (markets w) as [tb|] eqn:Hm; simpl in H.
  - injection H as <-. simpl. eauto.
  - apply bindM_Returned in H as ([] & w2 & Hc & [= <-]).
    apply round_trip_Returned in Hc as (_ & t & Hc & ->).
    simpl in Hc. injection Hc as <-. simpl. eauto.
Qed.

Lemma _ensure_status_change_column_Returned w w' :
  DatabaseClient._ensure_status_change_column w = (Returned (), w') →
  db_file_exists w' = true ∧ stored_rows w' = stored_rows w
  ∧ ∃ tb, markets w' = Some tb ∧ "market_status_change_time" ∈ t_columns tb.
Proof.
  unfold DatabaseClient._ensure_status_change_column.
  intros (cols & w1 & Hc & H)%bindM_Returned.
  apply round_trip_Returned in Hc as (_ & t & Hc & ->).
  unfold sql.get_columns, stored_rows in *.
  destruct (markets w) as [tb|] eqn:Hm; [|discriminate].
  injection Hc as <- <-. case_bool_decide as Hin.
  - injection H as <-. simpl. eauto.
  - unfold try_except_SQLAlchemyError, mbind, M_bind, round_trip in H.
    simpl in H. destruct (storage_fails w (S (round_trips w))); [discriminate|].
    rewrite bool_decide_false in H by done. injection H as <-. simpl.
    split; [done|]. split; [done|]. eexists. split; [done|]. simpl. set_solver.
Qed.

Lemma init_Returned schema w w' :
  DatabaseClient.__init__ schema w = (Returned (), w') →
  db_file_exists w' = true ∧ stored_rows w' = stored_rows w
  ∧ ∃ tb, markets w' = Some tb ∧ "market_status_change_time" ∈ t_columns tb.
Proof.
  unfold DatabaseClient.__init__.
  intros (path & w1 & [= <- <-] & H)%bindM_Returned.
  apply bindM_Returned in H as ([] & w2 & [= <-] & H).
  apply bindM_Returned in H as ([] & w3 & Het & H).
  apply _ensure_table_Returned in Het as (_ & Hr & _).
  apply _ensure_status_change_column_Returned in H as (? & Hr' & ?).
  split; [done|]. split; [|done]. by rewrite Hr', Hr.
Qed.

(** ** The vocabulary, unfolded *)

Lemma elem_of_CLOSED_STATUSES s :
  s ∈ CLOSED_STATUSES
  ↔ s = "finalized" ∨ s = "inactive" ∨ s = "closed" ∨ s = "settled".
Proof.
  unfold CLOSED_STATUSES.
  rewrite !elem_of_union, !elem_of_singleton. tauto.
Qed.

Lemma elem_of_tickers_of rows t :
  t ∈ tickers_of rows ↔ ∃ r, r ∈ rows ∧ r !! "market_ticker" = Some t.
Proof. unfold tickers_of. rewrite elem_of_list_to_set. apply list_elem_of_omap. Qed.

Lemma closure_eligible_Some existing status_map r t :
  closure_eligible existing status_map r = Some t
  ↔ pd.cell r "market_ticker" = JStr t
    ∧ t ∈ existing
    ∧ status_map !! Some t = Some (Some "active")
    ∧ ∃ s, pd.cell r "market_status" = JStr s ∧ s ∈ CLOSED_STATUSES.
Proof.
  unfold closure_eligible. split.
  - destruct (pd.cell r "market_ticker"); try discriminate.
    destruct (pd.cell r "market_status"); try discriminate.
    repeat case_bool_decide; simpl; try discriminate.
    intros [= ->]. eauto 10.
  - intros (-> & ? & ? & s & -> & ?).
    by rewrite !bool_decide_true by done.
Qed.

Lemma stamp_ticker t d r :
  pd.cell (stamp t d r) "market_ticker" = pd.cell r "market_ticker".
Proof.
  unfold stamp. case_bool_decide; [|done].
  unfold pd.cell. by rewrite lookup_insert_ne.
Qed.

Lemma stamp_row_snoc stamps t d r :
  stamp_row (stamps ++ [(t, d)]) r = stamp t d (stamp_row stamps r).
Proof. unfold stamp_row. by rewrite foldl_app. Qed.

Lemma stamp_row_ticker stamps r :
  pd.cell (stamp_row stamps r) "market_ticker" = pd.cell r "market_ticker".
Proof.
  induction stamps as [|[t d] stamps IH] using rev_ind; [done|].
  by rewrite stamp_row_snoc, stamp_ticker.
Qed.

(** The last stamp aimed at a row's ticker is the one that stays. *)
Lemma stamp_row_last stamps r :
  stamp_row stamps r
  = match last (filter (λ td, pd.cell r "market_ticker" = JStr td.1) stamps) with
    | Some td => <["market_status_change_time" := JStr (isoformat td.2)]> r
    | None => r
    end.
Proof.
  induction stamps as [|[t d] stamps IH] using rev_ind; [done|].
  rewrite stamp_row_snoc, filter_app, filter_cons, filter_nil. simpl.
  unfold stamp. rewrite stamp_row_ticker.
  case_bool_decide as Ht.
  - rewrite decide_True by done. rewrite last_snoc, IH.
    destruct (last _); [|done]. by rewrite insert_insert_eq.
  - rewrite decide_False by done. by rewrite app_nil_r.
Qed.

Lemma bind_row_null cols r b c :
  pd.cell r c = JNull → sql.bind_row cols r = Some b → b !! c = None.
Proof.
  intros Hc. revert b. induction cols as [|c' cols IH]; intros b; simpl.
  - intros [= <-]. apply lookup_empty.
  - destruct (sql.bind (pd.cell r c')) as [v|] eqn:Hv; [|discriminate]. simpl.
    destruct (sql.bind_row cols r) as [m|]; [|discriminate]. simpl.
    intros [= <-]. specialize (IH m eq_refl).
    destruct v as [s|]; [|done].
    destruct (decide (c' = c)) as [->|Hne].
    + rewrite Hc in Hv. discriminate.
    + by rewrite lookup_insert_ne.
Qed.

(** ** Properties of a reconciliation cycle *)

Lemma new_and_active_true existing r :
  new_and_active existing r = true
  ↔ (∀ t, pd.cell r "market_ticker" = JStr t → t ∉ existing)
    ∧ pd.cell r "market_status" = JStr "active".
Proof.
  unfold new_and_active, tracked.
  rewrite andb_true_iff, negb_true_iff, bool_decide_eq_true.
  destruct (pd.cell r "market_ticker") as [| | |t| |];
    try (split; [intros [_ ?]; split; [discriminate|done] | by intros [_ ?]]).
  rewrite bool_decide_eq_false. split.
  - intros [? ?]. split; [|done]. by intros ? [= <-].
  - intros [H ?]. split; [|done]. by apply H.
Qed.

(** C1 (insert-pass selectivity).  [existing] is the set of tickers of
    the rows the store held before the cycle touched it.  The rows the
    insert pass appends are the images of exactly those FlatRows whose
    ticker is not in [existing] and whose status is exactly "active";
    [opened_count] is their number. *)
Theorem insert_pass_selectivity schema df w0 w1 existing status_map w2
    opened_count w3 :
  DatabaseClient.__init__ schema w0 = (Returned (), w1) →
  read_state w1 = (Returned (existing, status_map), w2) →
  insert_pass existing df w2 = (Returned opened_count, w3) →
  (∀ t, t ∈ existing
        ↔ ∃ r, r ∈ stored_rows w0 ∧ r !! "market_ticker" = Some t)
  ∧ (∀ r, r ∈ filter (λ r, new_and_active existing r = true) (pd.rows df)
          ↔ r ∈ pd.rows df
            ∧ (∀ t, pd.cell r "market_ticker" = JStr t → t ∉ existing)
            ∧ pd.cell r "market_status" = JStr "active")
  ∧ opened_count
    = length (filter (λ r, new_and_active existing r = true) (pd.rows df))
  ∧ ∃ bound,
      mapM (sql.bind_row (pd.columns df))
           (filter (λ r, new_and_active existing r = true) (pd.rows df))
      = Some bound
      ∧ stored_rows w3 = stored_rows w0 ++ bound.
Proof.
  intros (Hfile & Hrows0 & _)%init_Returned
         (Hex & _ & Hm & _)%read_state_Returned
         (Hn & _ & bound & Hb & Hrows & _)%insert_pass_Returned.
  specialize (Hex Hfile). subst existing.
  assert (stored_rows w2 = stored_rows w1) as Hrows2
    by (unfold stored_rows; by rewrite Hm).
  split; [|split; [|split]].
  - intros t. rewrite elem_of_tickers_of, Hrows0. done.
  - intros r. rewrite list_elem_of_filter, new_and_active_true. tauto.
  - done.
  - exists bound. split; [done|]. by rewrite Hrows, Hrows2, Hrows0.
Qed.

Lemma stamp_row_eligible tickers times r t :
  length times = length tickers →
  pd.cell r "market_ticker" = JStr t → t ∈ tickers →
  ∃ d, d ∈ times
       ∧ stamp_row (zip tickers times) r
         = <["market_status_change_time" := JStr (isoformat d)]> r.
Proof.
  intros Hlen Hr Ht. rewrite stamp_row_last.
  apply list_elem_of_lookup in Ht as [j Hj].
  destruct (lookup_lt_is_Some_2 times j) as [d Hd].
  { rewrite Hlen. by eapply lookup_lt_Some. }
  assert ((t, d) ∈ filter (λ td, pd.cell r "market_ticker" = JStr td.1)
                          (zip tickers times)) as Hin.
  { apply list_elem_of_filter. split; [done|].
    apply list_elem_of_lookup. exists j. apply lookup_zip_with_Some. eauto. }
  destruct (last _) as [[t' d']|] eqn:Hlast.
  - apply last_Some_elem_of in Hlast.
    apply list_elem_of_filter in Hlast as [_ Hz].
    exists d'. split; [|done]. by eapply elem_of_zip_r.
  - apply last_None in Hlast. rewrite Hlast in Hin. by apply elem_of_nil in Hin.
Qed.

Lemma stamp_row_untouched tickers times r :
  (∀ t, t ∈ tickers → pd.cell r "market_ticker" ≠ JStr t) →
  stamp_row (zip tickers times) r = r.
Proof.
  intros H. rewrite stamp_row_last, filter_none; [done|].
  intros [t d] Hin. simpl. apply H. by eapply elem_of_zip_l.
Qed.

(** C2 (closure-pass selectivity).  A FlatRow is acted on by the closure
    pass exactly when its ticker is in the pre-cycle ticker set, the last
    stored status of that ticker is "active", and its current status is
    one of "finalized", "inactive", "closed", "settled".  [closed_count]
    counts these rows, [delete_market] runs once for each of them, in
    order, removing the store rows with that ticker, and the in-memory
    row gets an [isoformat] reading of the UTC clock in its
    [market_status_change_time] cell; rows with other tickers keep their
    cells. *)
Theorem closure_pass_selectivity schema df w0 w1 existing status_map w2 w3
    df' closed_count w4 :
  DatabaseClient.__init__ schema w0 = (Returned (), w1) →
  read_state w1 = (Returned (existing, status_map), w2) →
  closure_pass existing status_map df w3 = (Returned (df', closed_count), w4) →
  (∀ r t, closure_eligible existing status_map r = Some t
          ↔ pd.cell r "market_ticker" = JStr t
            ∧ (∃ r0, r0 ∈ stored_rows w0 ∧ r0 !! "market_ticker" = Some t)
            ∧ last_status (stored_rows w0) t = Some (Some "active")
            ∧ ∃ s, pd.cell r "market_status" = JStr s
                   ∧ (s = "finalized" ∨ s = "inactive"
                      ∨ s = "closed" ∨ s = "settled"))
  ∧ closed_count
    = length (omap (closure_eligible existing status_map) (pd.rows df))
  ∧ stored_rows w4
    = without_tickers (omap (closure_eligible existing status_map) (pd.rows df))
                      (stored_rows w3)
  ∧ log w4
    = log w3 ++ (deleted_record
                   <$> omap (closure_eligible existing status_map) (pd.rows df))
  ∧ (∀ i r t,
       pd.rows df !! i = Some r →
       closure_eligible existing status_map r = Some t →
       ∃ k, clock_reads w3 ≤ k < clock_reads w4
            ∧ pd.rows df' !! i
              = Some (<["market_status_change_time"
                        := JStr (isoformat (utcnow w3 k))]> r))
  ∧ (∀ i r,
       pd.rows df !! i = Some r →
       (∀ t, t ∈ omap (closure_eligible existing status_map) (pd.rows df) →
             pd.cell r "market_ticker" ≠ JStr t) →
       pd.rows df' !! i = Some r).
Proof.
  intros (Hfile & Hrows0 & _)%init_Returned
         (Hex & Hsm & _)%read_state_Returned
         (Hn & Hrows & Hlog & _ & Hdf & _ & Hclock)%closure_loop_Returned.
  specialize (Hex Hfile). subst existing. rewrite Hrows0 in *.
  split; [|split; [|split; [|split; [|split]]]]; try done.
  - intros r t. rewrite closure_eligible_Some, elem_of_tickers_of, Hsm.
    setoid_rewrite elem_of_CLOSED_STATUSES. done.
  - intros i r t Hi Hr.
    destruct (stamp_row_eligible
                (omap (closure_eligible (tickers_of (stored_rows w0)) status_map)
                      (pd.rows df))
                (utcnow w3 <$> seq (clock_reads w3)
                   (length (omap (closure_eligible
                                    (tickers_of (stored_rows w0)) status_map)
                                 (pd.rows df))))
                r t) as (d & Hd & Hst).
    + by rewrite length_fmap, length_seq.
    + by apply closure_eligible_Some in Hr as [? _].
    + apply list_elem_of_omap. exists r. split; [|done].
      by eapply list_elem_of_lookup_2.
    + apply list_elem_of_fmap in Hd as (k & -> & Hk).
      apply elem_of_seq in Hk. exists k. split; [lia|].
      by rewrite Hdf, list_lookup_fmap, Hi, <- Hst.
  - intros i r Hi Hr. rewrite Hdf, list_lookup_fmap, Hi. simpl.
    by rewrite stamp_row_untouched.
Qed.

Lemma bind_row_lookup_Some cols r b c s :
  sql.bind_row cols r = Some b → b !! c = Some s →
  sql.bind (pd.cell r c) = Some (Some s).
Proof.
  revert b. induction cols as [|c' cols IH]; intros b; simpl.
  - intros [= <-]. by rewrite lookup_empty.
  - destruct (sql.bind (pd.cell r c')) as [v|] eqn:Hv; [|discriminate]. simpl.
    destruct (sql.bind_row cols r) as [m|]; [|discriminate]. simpl.
    intros [= <-]. destruct v as [s'|]; [|by apply IH].
    destruct (decide (c' = c)) as [->|Hne].
    + rewrite lookup_insert_eq. by intros [= <-].
    + rewrite lookup_insert_ne by done. by apply IH.
Qed.

(** A row bound from a new-and-active FlatRow whose ticker is a string or
    missing is out of reach of every DELETE the closure pass issues. *)
Lemma bound_row_survives existing status_map cols todo r b :
  new_and_active existing r = true →
  string_or_missing (pd.cell r "market_ticker") →
  sql.bind_row cols r = Some b →
  Forall (λ t, b !! "market_ticker" ≠ Some t)
         (omap (closure_eligible existing status_map) todo).
Proof.
  intros [Hnew _]%new_and_active_true Hty Hb. apply Forall_forall.
  intros t (r2 & _ & (_ & Hin & _)%closure_eligible_Some)%list_elem_of_omap Hbt.
  apply (bind_row_lookup_Some _ _ _ _ _ Hb) in Hbt.
  destruct Hty as [Hnull|[s Hs]]; rewrite ?Hnull, ?Hs in Hbt; simpl in Hbt.
  - discriminate.
  - injection Hbt as ->. by apply (Hnew t).
Qed.

(** C4 (disjointness of the two passes).  No ticker is both the ticker
    of an appended FlatRow and a ticker the closure pass deletes; all
    appends are applied to the store, and logged, before the first
    delete.  When tickers are strings (or missing) every appended row is
    still stored after the closure pass.  The statement holds whether or
    not tickers are unique across the cycle's FlatRows. *)
Theorem passes_disjoint_and_ordered existing status_map df w2 opened_count w3
    df' closed_count w4 :
  insert_pass existing df w2 = (Returned opened_count, w3) →
  closure_pass existing status_map df w3 = (Returned (df', closed_count), w4) →
  (∀ r1 r2 t,
     r1 ∈ pd.rows df → r2 ∈ pd.rows df →
     new_and_active existing r1 = true →
     closure_eligible existing status_map r2 = Some t →
     pd.cell r1 "market_ticker" ≠ JStr t)
  ∧ (∃ bound,
       mapM (sql.bind_row (pd.columns df))
            (filter (λ r, new_and_active existing r = true) (pd.rows df))
       = Some bound
       ∧ stored_rows w3 = stored_rows w2 ++ bound
       ∧ stored_rows w4
         = without_tickers
             (omap (closure_eligible existing status_map) (pd.rows df))
             (stored_rows w2 ++ bound)
       ∧ ((∀ r, r ∈ pd.rows df →
                string_or_missing (pd.cell r "market_ticker")) →
          ∀ b, b ∈ bound → b ∈ stored_rows w4))
  ∧ log w4
    = log w2
      ++ (if decide (opened_count = 0) then []
          else [inserted_rows_record opened_count;
                inserted_active_record opened_count])
      ++ (deleted_record
            <$> omap (closure_eligible existing status_map) (pd.rows df)).
Proof.
  intros (Hn & _ & bound & Hb & Hrows & Hlog & _)%insert_pass_Returned
         (_ & Hrows' & Hlog' & _)%closure_loop_Returned.
  split; [|split].
  - intros r1 r2 t _ _ [Hnew _]%new_and_active_true
      (_ & Hin & _)%closure_eligible_Some Heq.
    by apply (Hnew t).
  - exists bound. rewrite Hrows', Hrows. do 3 (split; [done|]).
    intros Hty b Hin. apply list_elem_of_filter. split; [|set_solver].
    apply mapM_Some in Hb.
    apply list_elem_of_lookup in Hin as [i Hi].
    destruct (Forall2_lookup_r _ _ _ _ _ Hb Hi) as (r & Hr & Hbind).
    apply list_elem_of_lookup_2, list_elem_of_filter in Hr as [Hnew Hr].
    eapply bound_row_survives; eauto.
  - by rewrite Hlog', Hlog, <- app_assoc.
Qed.

Lemma flatten_change_time_empty events df r :
  flatten events = Returned df → r ∈ pd.rows df →
  pd.cell r "market_status_change_time" = JNull.
Proof.
  unfold flatten. intros (joined & _ & H)%bindO_Returned.
  unfold clean_up in H. apply bindO_Returned in H as (d & _ & [= <-]).
  unfold pd.assign; simpl. intros (r0 & -> & _)%list_elem_of_fmap.
  unfold pd.cell. by rewrite lookup_insert_eq.
Qed.

Lemma mapM_bind_row_null cols rows bound c b :
  (∀ r, r ∈ rows → pd.cell r c = JNull) →
  mapM (sql.bind_row cols) rows = Some bound → b ∈ bound → b !! c = None.
Proof.
  intros Hnull Hb%mapM_Some Hin.
  apply list_elem_of_lookup in Hin as [i Hi].
  destruct (Forall2_lookup_r _ _ _ _ _ Hb Hi) as (r & Hr & Hbind).
  eapply bind_row_null; [|done]. apply Hnull. by eapply list_elem_of_lookup_2.
Qed.

(** C5 (the stamped change time is never persisted).  After the closure
    pass the store holds no row for any ticker the pass processed, and
    every stored row is either a row that was there before the insert
    pass, untouched, or one whose [market_status_change_time] is NULL. *)
Theorem change_time_never_persisted events df existing status_map w2
    opened_count w3 df' closed_count w4 :
  flatten events = Returned df →
  insert_pass existing df w2 = (Returned opened_count, w3) →
  closure_pass existing status_map df w3 = (Returned (df', closed_count), w4) →
  (∀ r t,
     r ∈ pd.rows df → closure_eligible existing status_map r = Some t →
     ∀ s, s ∈ stored_rows w4 → s !! "market_ticker" ≠ Some t)
  ∧ (∀ s, s ∈ stored_rows w4 →
          s ∈ stored_rows w2 ∨ s !! "market_status_change_time" = None).
Proof.
  intros Hflat (_ & _ & bound & Hb & Hrows & _)%insert_pass_Returned
         (_ & Hrows' & _)%closure_loop_Returned.
  split.
  - intros r t Hr Ht s Hs. rewrite Hrows' in Hs.
    apply list_elem_of_filter in Hs as [Hall _].
    rewrite Forall_forall in Hall. apply Hall.
    apply list_elem_of_omap. eauto.
  - intros s Hs. rewrite Hrows', Hrows in Hs.
    apply list_elem_of_filter in Hs as [_ [Hs|Hs]%elem_of_app]; [by left|].
    right. eapply mapM_bind_row_null; [|done..].
    intros r [_ Hr]%list_elem_of_filter. by eapply flatten_change_time_empty.
Qed.

Lemma bindO_Raised {A B} (m : Outcome A) (f : A → Outcome B) e :
  m ≫= f = Raised e → m = Raised e ∨ ∃ a, m = Returned a ∧ f a = Raised e.
Proof. destruct m as [a|e0]; [eauto|]. intros [= ->]. by left. Qed.

Lemma mapO_py_in_Raised existing vs e :
  mapO (λ v, py_in v existing) vs = Raised e → e = TypeError.
Proof.
  induction vs as [|v vs IH]; simpl; [discriminate|].
  intros [Hv|(b & _ & H)]%bindO_Raised.
  - destruct v; simpl in Hv; by try injection Hv as <-.
  - apply bindO_Raised in H as [H|(bs & _ & H)]; [by apply IH|discriminate].
Qed.

Lemma new_active_mask_Raised existing df e :
  new_active_mask existing df = Raised e → e ≠ SQLAlchemyError.
Proof.
  unfold new_active_mask, pd.column.
  intros [H|(tickers & _ & H)]%bindO_Raised.
  { case_bool_decide; [discriminate|]. by injection H as <-. }
  apply bindO_Raised in H as [H|(tr & _ & H)].
  { by apply mapO_py_in_Raised in H as ->. }
  apply bindO_Raised in H as [H|(st & _ & H)]; [|discriminate].
  case_bool_decide; [discriminate|]. by injection H as <-.
Qed.

(** C10 (no qualifying row, no append).  When [opened_count] is 0, or
    when no FlatRow is new and active, the insert pass leaves the world
    (store, log, round-trip counter) exactly as it was and does not raise
    a persistence error. *)
Theorem no_new_rows_no_append existing df w o w' :
  insert_pass existing df w = (o, w') →
  o = Returned 0
  ∨ (∀ r, r ∈ pd.rows df → new_and_active existing r = false) →
  w' = w ∧ o ≠ Raised SQLAlchemyError ∧ (∀ n, o = Returned n → n = 0).
Proof.
  intros Hrun [->|Hnone].
  - apply insert_pass_Returned in Hrun as (_ & Hw & _).
    split; [by apply Hw|]. split; [done|]. by intros n [= <-].
  - unfold insert_pass, mbind, M_bind, lift in Hrun.
    destruct (new_active_mask existing df) as [mask|e] eqn:Hmask.
    + apply new_active_mask_spec in Hmask.
      rewrite filter_none in Hmask
        by (intros r Hr; rewrite (Hnone r Hr); discriminate).
      unfold pd.len in Hrun. rewrite Hmask in Hrun. simpl in Hrun.
      injection Hrun as <- <-. split; [done|]. split; [done|].
      by intros n [= <-].
    + injection Hrun as <- <-. split; [done|]. split.
      * intros [= ->]. by eapply new_active_mask_Raised.
      * discriminate.
Qed.

(** C7 ([delete_market] on an absent ticker).  When the storage engine
    does not fail and the table has the ticker column, deleting a ticker
    no row carries returns normally and leaves the table as it was.
    [delete_market] raises only [SQLAlchemyError], only when the round
    trip fails or the engine rejects the statement, and the table is then
    unchanged too. *)
Theorem delete_missing_ticker_noop t w o w' :
  DatabaseClient.delete_market t w = (o, w') →
  (storage_fails w (round_trips w) = false →
   (∃ tb, markets w = Some tb ∧ "market_ticker" ∈ t_columns tb) →
   (∀ r, r ∈ stored_rows w → r !! "market_ticker" ≠ Some t) →
   o = Returned () ∧ markets w' = markets w)
  ∧ (∀ e, o = Raised e →
          e = SQLAlchemyError ∧ markets w' = markets w
          ∧ (storage_fails w (round_trips w) = true
             ∨ (sql.delete t (markets w)).1 = Raised SQLAlchemyError)).
Proof.
  rewrite delete_market_cases. unfold stored_rows.
  destruct (storage_fails w (round_trips w)) eqn:Hf.
  { intros [= <- <-]. split; [done|]. intros e [= <-]. simpl. auto. }
  destruct (markets w) as [tb|] eqn:Hm.
  - case_bool_decide as Hcol.
    + intros [= <- <-]. split; [|discriminate].
      intros _ _ Hnone. split; [done|]. simpl.
      unfold without_ticker. rewrite filter_all by done. by destruct tb.
    + intros [= <- <-]. split.
      * intros _ (tb' & [= <-] & ?). done.
      * intros e [= <-]. simpl. repeat split; try done.
        right. unfold sql.delete. by rewrite bool_decide_false.
  - intros [= <- <-]. split.
    + intros _ (tb' & ? & _). done.
    + intros e [= <-]. simpl. auto.
Qed.

Lemma size_tickers_of rows :
  size (tickers_of rows)
  = length (remove_dups (omap (λ r, r !! "market_ticker") rows)).
Proof.
  unfold tickers_of.
  rewrite <- (size_list_to_set (C := gset string)) by apply NoDup_remove_dups.
  f_equal. apply set_eq. intros t.
  by rewrite !elem_of_list_to_set, elem_of_remove_dups.
Qed.

Lemma length_remove_dups_le {A} `{EqDecision A} (l : list A) :
  (length (remove_dups l) ≤ length l)%nat.
Proof.
  induction l as [|x l IH]; simpl; [done|]. case_decide; simpl; lia.
Qed.

Lemma length_omap_le {A B} (f : A → option B) (l : list A) :
  (length (omap f l) ≤ length l)%nat.
Proof.
  unfold omap. induction l as [|x l IH]; simpl; [done|].
  destruct (f x); simpl; lia.
Qed.

Lemma get_existing_market_tickers_runs w :
  storage_fails w (round_trips w) = false →
  storage_fails w (S (round_trips w)) = false →
  (∀ tb, markets w = Some tb → "market_ticker" ∈ t_columns tb) →
  ∃ w', DatabaseClient.get_existing_market_tickers w
        = (Returned (tickers_of (stored_rows w)), w')
        ∧ log w' = log w ∧ utcnow w' = utcnow w
        ∧ clock_reads w' = clock_reads w.
Proof.
  intros Hf1 Hf2 Hcol.
  destruct (DatabaseClient.get_existing_market_tickers w) as [o w'] eqn:Hrun.
  exists w'. destruct o as [s|e].
  - apply get_existing_market_tickers_Returned in Hrun as (-> & _ & ? & ? & ?).
    done.
  - exfalso. revert Hrun.
    unfold DatabaseClient.get_existing_market_tickers, mbind, M_bind,
      round_trip, sql.has_table, sql.read_table.
    rewrite Hf1. simpl. destruct (markets w) as [tb|] eqn:Hm; simpl.
    + rewrite Hf2. simpl.
      rewrite bool_decide_true by (by apply Hcol). simpl. discriminate.
    + discriminate.
Qed.

(** C9 (existing tickers are the distinct non-null tickers).  When the
    storage engine does not fail, [get_existing_market_tickers] returns
    the set of the non-NULL [market_ticker] values of the stored rows, so
    its size counts distinct tickers, at most the number of rows, and this
    size is what the summary logs as the number of active markets. *)
Theorem existing_tickers_distinct_non_null w opened_count closed_count :
  storage_fails w (round_trips w) = false →
  storage_fails w (S (round_trips w)) = false →
  (∀ tb, markets w = Some tb → "market_ticker" ∈ t_columns tb) →
  (∃ w', DatabaseClient.get_existing_market_tickers w
         = (Returned (tickers_of (stored_rows w)), w'))
  ∧ (∀ t, t ∈ tickers_of (stored_rows w)
          ↔ ∃ r, r ∈ stored_rows w ∧ r !! "market_ticker" = Some t)
  ∧ size (tickers_of (stored_rows w))
    = length (remove_dups (omap (λ r, r !! "market_ticker") (stored_rows w)))
  ∧ (size (tickers_of (stored_rows w)) ≤ length (stored_rows w))%nat
  ∧ ∃ w', summary_report opened_count closed_count w = (Returned (), w')
          ∧ log w'
            = log w ++ summary_records
                         (strftime_date (utcnow w (clock_reads w)))
                         (size (tickers_of (stored_rows w)))
                         closed_count opened_count.
Proof.
  intros Hf1 Hf2 Hcol.
  destruct (get_existing_market_tickers_runs w Hf1 Hf2 Hcol)
    as (w1 & Hrun & Hlog & Hu & Hc).
  split; [eauto|]. split; [apply elem_of_tickers_of|].
  split; [apply size_tickers_of|]. split.
  - rewrite size_tickers_of.
    etrans; [apply length_remove_dups_le|apply length_omap_le].
  - unfold summary_report, mbind, M_bind, fmap, M_fmap. rewrite Hrun.
    unfold now_utc, logger_info. eexists. split; [reflexivity|].
    simpl. rewrite Hlog, Hu, Hc. unfold summary_records.
    by rewrite <- !app_assoc.
Qed.

(** C3 (row-count law), amended: for events with pairwise distinct
    event tickers, the joined table of lines 69-81 and the cleaned-up
    table both have one row per nested market.  Both are values of the
    pure functions [normalize_data] and [clean_up]. *)
Theorem flatten_row_count events joined df :
  NoDup (event_ticker <$> events) →
  normalize_data events = Returned joined →
  clean_up joined = Returned df →
  pd.len joined = total_markets events ∧ pd.len df = total_markets events.
Proof.
  intros Hnd Hj Hc. apply clean_up_len in Hc.
  apply normalize_data_len in Hj; [|done]. split; congruence.
Qed.

Lemma flatten_no_custom_strike events df c :
  flatten events = Returned df →
  String.prefix "market_custom_strike" c = true →
  (c ∉ pd.columns df) ∧ (∀ r, r ∈ pd.rows df → r !! c = None).
Proof.
  unfold flatten. intros (joined & _ & H)%bindO_Returned.
  by eapply clean_up_no_custom_strike.
Qed.

(** C8 (custom-strike column exclusion).  No label starting with
    "market_custom_strike" is a column of the flattened table, and no row
    of it binds such a label. *)
Theorem custom_strike_columns_dropped events df c :
  flatten events = Returned df →
  String.prefix "market_custom_strike" c = true →
  (c ∉ pd.columns df) ∧ (∀ r, r ∈ pd.rows df → r !! c = None).
Proof.
  unfold flatten. intros (joined & _ & Hclean)%bindO_Returned Hc.
  destruct (clean_up_no_custom_strike _ _ _ Hclean Hc) as [Hcols Hrows].
  split; [exact Hcols|]. intros r Hr. by apply Hrows.
Qed.

Lemma get_events_dataframe_stages events w out w' :
  get_events_dataframe events w = (Returned out, w') →
  ∃ df w1 existing status_map w2 opened_count w3 closed_count w4,
    flatten events = Returned df
    ∧ DatabaseClient.__init__ (pd.uniq [] (pd.columns df)) w = (Returned (), w1)
    ∧ read_state w1 = (Returned (existing, status_map), w2)
    ∧ insert_pass existing df w2 = (Returned opened_count, w3)
    ∧ closure_pass existing status_map df w3
      = (Returned (out, closed_count), w4)
    ∧ summary_report opened_count closed_count w4 = (Returned (), w').
Proof.
  unfold get_events_dataframe.
  intros (df & w0 & Hflat & H)%bindM_Returned.
  unfold lift in Hflat. injection Hflat as Hflat <-.
  apply bindM_Returned in H as ([] & w1 & Hinit & H).
  apply bindM_Returned in H as ([existing status_map] & w2 & Hread & H).
  apply bindM_Returned in H as (n & w3 & Hins & H).
  apply bindM_Returned in H as ([df' c] & w4 & Hclose & H).
  apply bindM_Returned in H as ([] & w5 & Hsum & [= <- <-]).
  eauto 20.
Qed.

Lemma stamp_row_other stamps r c :
  c ≠ "market_status_change_time" → stamp_row stamps r !! c = r !! c.
Proof.
  intros Hc. rewrite stamp_row_last. destruct (last _); [|done].
  by rewrite lookup_insert_ne.
Qed.

(** The frame handed back to the caller has no custom-strike column
    either. *)
Lemma returned_frame_no_custom_strike events w out w' c :
  get_events_dataframe events w = (Returned out, w') →
  String.prefix "market_custom_strike" c = true →
  (c ∉ pd.columns out) ∧ (∀ r, r ∈ pd.rows out → r !! c = None).
Proof.
  intros (df & w1 & ex & sm & w2 & n & w3 & k & w4 & Hflat & _ & _ & _ & Hcl & _)
    %get_events_dataframe_stages Hc.
  apply closure_loop_Returned in Hcl as (_ & _ & _ & Hcols & Hrows & _).
  destruct (flatten_no_custom_strike _ _ _ Hflat Hc) as [Hno Hnone].
  rewrite Hcols, Hrows. split; [done|].
  intros r (r0 & -> & Hr0)%list_elem_of_fmap.
  rewrite stamp_row_other; [by apply Hnone|].
  intros ->. vm_compute in Hc. discriminate.
Qed.

(** ** Runs on sample data *)

Lemma returns_value {A} (d : A) (o : Outcome A) :
  returns o = true →
  o = Returned (match o with Returned a => a | Raised _ => d end).
Proof. by destruct o. Qed.

Lemma ran {A} (d : A) (m : M A) (w : World) :
  returns (m w).1 = true → m w = (Returned (value d (m w)), (m w).2).
Proof. unfold value. by destruct (m w) as [[a|e] w']. Qed.

Lemma ran_unit (m : M unit) (w : World) :
  returns (m w).1 = true → m w = (Returned (), (m w).2).
Proof. by destruct (m w) as [[[]|e] w']. Qed.

Lemma ran_pair {A B} (d : A * B) (m : M (A * B)) (w : World) :
  returns (m w).1 = true →
  m w = (Returned ((value d (m w)).1, (value d (m w)).2), (m w).2).
Proof. unfold value. by destruct (m w) as [[[a b]|e] w']. Qed.

Lemma flatten_row_count_witness :
  NoDup (event_ticker <$> second_fetch)
  ∧ normalize_data second_fetch = Returned sample_joined
  ∧ clean_up sample_joined = Returned sample_df
  ∧ pd.len sample_df = total_markets second_fetch.
Proof.
  assert (H1 : NoDup (event_ticker <$> second_fetch))
    by (apply (bool_decide_unpack _); vm_compute; exact I).
  assert (H2 : normalize_data second_fetch = Returned sample_joined)
    by (apply returns_value; vm_compute; reflexivity).
  assert (H3 : clean_up sample_joined = Returned sample_df)
    by (apply returns_value; vm_compute; reflexivity).
  split; [exact H1|]. split; [exact H2|]. split; [exact H3|].
  exact (proj2 (flatten_row_count second_fetch sample_joined sample_df H1 H2 H3)).
Defined.

(** C3 as stated fails when an event is listed twice: two markets in
    all, four rows after the join. *)
Lemma flatten_row_count_repeated_event :
  pd.len <$> normalize_data repeated_event_fetch = Returned 4
  ∧ pd.len <$> flatten repeated_event_fetch = Returned 4
  ∧ total_markets repeated_event_fetch = 2.
Proof. split; [|split]; vm_compute; reflexivity. Qed.

Lemma insert_pass_selectivity_witness :
  DatabaseClient.__init__ sample_schema tracked_world
  = (Returned (), cycle_init.2)
  ∧ read_state cycle_init.2
    = (Returned (sample_existing, sample_status_map), cycle_state.2)
  ∧ insert_pass sample_existing sample_df cycle_state.2
    = (Returned (value 0 cycle_insert), cycle_insert.2)
  ∧ value 0 cycle_insert
    = length (filter (λ r, new_and_active sample_existing r = true)
                     (pd.rows sample_df)).
Proof.
  assert (H1 : DatabaseClient.__init__ sample_schema tracked_world
               = (Returned (), cycle_init.2))
    by (apply ran_unit; vm_compute; reflexivity).
  assert (H2 : read_state cycle_init.2
               = (Returned (sample_existing, sample_status_map), cycle_state.2))
    by (apply (ran_pair (∅, ∅)); vm_compute; reflexivity).
  assert (H3 : insert_pass sample_existing sample_df cycle_state.2
               = (Returned (value 0 cycle_insert), cycle_insert.2))
    by (apply (ran 0); vm_compute; reflexivity).
  split; [exact H1|]. split; [exact H2|]. split; [exact H3|].
  exact (proj1 (proj2 (proj2
    (insert_pass_selectivity _ _ _ _ _ _ _ _ _ H1 H2 H3)))).
Defined.

Lemma closure_pass_selectivity_witness :
  DatabaseClient.__init__ sample_schema tracked_world
  = (Returned (), cycle_init.2)
  ∧ read_state cycle_init.2
    = (Returned (sample_existing, sample_status_map), cycle_state.2)
  ∧ closure_pass sample_existing sample_status_map sample_df cycle_insert.2
    = (Returned ((value (pd.empty, 0) cycle_closure).1,
                 (value (pd.empty, 0) cycle_closure).2), cycle_closure.2)
  ∧ (value (pd.empty, 0) cycle_closure).2
    = length (omap (closure_eligible sample_existing sample_status_map)
                   (pd.rows sample_df)).
Proof.
  assert (H1 : DatabaseClient.__init__ sample_schema tracked_world
               = (Returned (), cycle_init.2))
    by (apply ran_unit; vm_compute; reflexivity).
  assert (H2 : read_state cycle_init.2
               = (Returned (sample_existing, sample_status_map), cycle_state.2))
    by (apply (ran_pair (∅, ∅)); vm_compute; reflexivity).
  assert (H3 : closure_pass sample_existing sample_status_map sample_df
                 cycle_insert.2
               = (Returned ((value (pd.empty, 0) cycle_closure).1,
                            (value (pd.empty, 0) cycle_closure).2),
                  cycle_closure.2))
    by (apply (ran_pair (pd.empty, 0)); vm_compute; reflexivity).
  split; [exact H1|]. split; [exact H2|]. split; [exact H3|].
  exact (proj1 (proj2
    (closure_pass_selectivity _ _ _ _ _ _ _ _ _ _ _ H1 H2 H3))).
Defined.

Example isoformat_sample :
  isoformat sample_time = "2026-01-02T03:04:05.000678+00:00"
  ∧ isoformat {| year := 986; month := 12; day := 31; hour := 23;
                 minute := 59; second := 0; microsecond := 0 |}
    = "0986-12-31T23:59:00+00:00".
Proof. split; vm_compute; reflexivity. Qed.

Example sample_cycle_counts :
  value 0 cycle_insert = 1
  ∧ (value (pd.empty, 0) cycle_closure).2 = 1
  ∧ size sample_existing = 2
  ∧ length (stored_rows tracked_world) = 2
  ∧ length (stored_rows cycle_closure.2) = 2.
Proof. split; [|split; [|split; [|split]]]; vm_compute; reflexivity. Qed.

Lemma passes_disjoint_and_ordered_witness :
  insert_pass sample_existing sample_df cycle_state.2
  = (Returned (value 0 cycle_insert), cycle_insert.2)
  ∧ closure_pass sample_existing sample_status_map sample_df cycle_insert.2
    = (Returned ((value (pd.empty, 0) cycle_closure).1,
                 (value (pd.empty, 0) cycle_closure).2), cycle_closure.2)
  ∧ log cycle_closure.2
    = log cycle_state.2
      ++ (if decide (value 0 cycle_insert = 0) then []
          else [inserted_rows_record (value 0 cycle_insert);
                inserted_active_record (value 0 cycle_insert)])
      ++ (deleted_record
            <$> omap (closure_eligible sample_existing sample_status_map)
                     (pd.rows sample_df)).
Proof.
  assert (H1 : insert_pass sample_existing sample_df cycle_state.2
               = (Returned (value 0 cycle_insert), cycle_insert.2))
    by (apply (ran 0); vm_compute; reflexivity).
  assert (H2 : closure_pass sample_existing sample_status_map sample_df
                 cycle_insert.2
               = (Returned ((value (pd.empty, 0) cycle_closure).1,
                            (value (pd.empty, 0) cycle_closure).2),
                  cycle_closure.2))
    by (apply (ran_pair (pd.empty, 0)); vm_compute; reflexivity).
  split; [exact H1|]. split; [exact H2|].
  exact (proj2 (proj2
    (passes_disjoint_and_ordered _ _ _ _ _ _ _ _ _ H1 H2))).
Defined.

Lemma change_time_never_persisted_witness :
  flatten second_fetch = Returned sample_df
  ∧ insert_pass sample_existing sample_df cycle_state.2
    = (Returned (value 0 cycle_insert), cycle_insert.2)
  ∧ closure_pass sample_existing sample_status_map sample_df cycle_insert.2
    = (Returned ((value (pd.empty, 0) cycle_closure).1,
                 (value (pd.empty, 0) cycle_closure).2), cycle_closure.2)
  ∧ (∀ s, s ∈ stored_rows cycle_closure.2 →
          s ∈ stored_rows cycle_state.2
          ∨ s !! "market_status_change_time" = None).
Proof.
  assert (H0 : flatten second_fetch = Returned sample_df).
  { unfold flatten.
    rewrite (returns_value pd.empty (normalize_data second_fetch))
      by (vm_compute; reflexivity).
    apply (returns_value pd.empty (clean_up sample_joined)).
    vm_compute; reflexivity. }
  assert (H1 : insert_pass sample_existing sample_df cycle_state.2
               = (Returned (value 0 cycle_insert), cycle_insert.2))
    by (apply (ran 0); vm_compute; reflexivity).
  assert (H2 : closure_pass sample_existing sample_status_map sample_df
                 cycle_insert.2
               = (Returned ((value (pd.empty, 0) cycle_closure).1,
                            (value (pd.empty, 0) cycle_closure).2),
                  cycle_closure.2))
    by (apply (ran_pair (pd.empty, 0)); vm_compute; reflexivity).
  split; [exact H0|]. split; [exact H1|]. split; [exact H2|].
  exact (proj2
    (change_time_never_persisted _ _ _ _ _ _ _ _ _ _ H0 H1 H2)).
Defined.

Lemma custom_strike_columns_dropped_witness :
  flatten second_fetch = Returned sample_df
  ∧ String.prefix "market_custom_strike" "market_custom_strike.Above" = true
  ∧ "market_custom_strike.Above" ∈ pd.columns sample_joined
  ∧ "market_custom_strike.Above" ∉ pd.columns sample_df.
Proof.
  assert (H0 : flatten second_fetch = Returned sample_df).
  { unfold flatten.
    rewrite (returns_value pd.empty (normalize_data second_fetch))
      by (vm_compute; reflexivity).
    apply (returns_value pd.empty (clean_up sample_joined)).
    vm_compute; reflexivity. }
  assert (H1 : String.prefix "market_custom_strike" "market_custom_strike.Above"
               = true) by reflexivity.
  split; [exact H0|]. split; [exact H1|].
  split; [apply (bool_decide_unpack _); vm_compute; exact I|].
  exact (proj1 (custom_strike_columns_dropped _ _ _ H0 H1)).
Defined.

Lemma no_new_rows_no_append_witness :
  insert_pass (tickers_of (stored_rows seeded_world))
    (pd.DataFrame_of_records
       [[("market_ticker", JStr "T1"); ("market_status", JStr "active")];
        [("market_ticker", JStr "T3"); ("market_status", JStr "closed")]])
    seeded_world
  = (Returned 0, seeded_world).
Proof.
  pose (df := pd.DataFrame_of_records
       [[("market_ticker", JStr "T1"); ("market_status", JStr "active")];
        [("market_ticker", JStr "T3"); ("market_status", JStr "closed")]]).
  pose (run := insert_pass (tickers_of (stored_rows seeded_world)) df seeded_world).
  assert (H1 : insert_pass (tickers_of (stored_rows seeded_world)) df seeded_world
               = (run.1, run.2)) by apply surjective_pairing.
  assert (H2 : run.1 = Returned 0
               ∨ (∀ r, r ∈ pd.rows df →
                       new_and_active (tickers_of (stored_rows seeded_world)) r
                       = false))
    by (left; vm_compute; reflexivity).
  destruct (no_new_rows_no_append _ _ _ _ _ H1 H2) as (Hw & _ & _).
  fold df. rewrite H1. apply pair_equal_spec. split; [|exact Hw].
  vm_compute; reflexivity.
Defined.

Lemma delete_missing_ticker_noop_witness :
  storage_fails seeded_world (round_trips seeded_world) = false
  ∧ (∃ tb, markets seeded_world = Some tb ∧ "market_ticker" ∈ t_columns tb)
  ∧ (∀ r, r ∈ stored_rows seeded_world → r !! "market_ticker" ≠ Some "T9")
  ∧ (DatabaseClient.delete_market "T9" seeded_world).1 = Returned ()
  ∧ markets (DatabaseClient.delete_market "T9" seeded_world).2
    = markets seeded_world.
Proof.
  assert (H0 : DatabaseClient.delete_market "T9" seeded_world
               = ((DatabaseClient.delete_market "T9" seeded_world).1,
                  (DatabaseClient.delete_market "T9" seeded_world).2))
    by apply surjective_pairing.
  assert (H1 : storage_fails seeded_world (round_trips seeded_world) = false)
    by reflexivity.
  assert (H2 : ∃ tb, markets seeded_world = Some tb
                     ∧ "market_ticker" ∈ t_columns tb).
  { eexists. split; [reflexivity|]. simpl. apply list_elem_of_here. }
  assert (H3 : ∀ r, r ∈ stored_rows seeded_world
                    → r !! "market_ticker" ≠ Some "T9").
  { apply Forall_forall. apply (bool_decide_unpack _). vm_compute. exact I. }
  split; [exact H1|]. split; [exact H2|]. split; [exact H3|].
  exact (proj1 (delete_missing_ticker_noop _ _ _ _ H0) H1 H2 H3).
Defined.

Lemma existing_tickers_distinct_non_null_witness :
  storage_fails seeded_world (round_trips seeded_world) = false
  ∧ storage_fails seeded_world (S (round_trips seeded_world)) = false
  ∧ (∀ tb, markets seeded_world = Some tb → "market_ticker" ∈ t_columns tb)
  ∧ length (stored_rows seeded_world) = 4
  ∧ size (tickers_of (stored_rows seeded_world)) = 2
  ∧ ∃ w', DatabaseClient.get_existing_market_tickers seeded_world
          = (Returned (tickers_of (stored_rows seeded_world)), w').
Proof.
  assert (H1 : storage_fails seeded_world (round_trips seeded_world) = false)
    by reflexivity.
  assert (H2 : storage_fails seeded_world (S (round_trips seeded_world)) = false)
    by reflexivity.
  assert (H3 : ∀ tb, markets seeded_world = Some tb
                     → "market_ticker" ∈ t_columns tb).
  { intros tb [= <-]. simpl. apply list_elem_of_here. }
  split; [exact H1|]. split; [exact H2|]. split; [exact H3|].
  split; [reflexivity|]. split; [vm_compute; reflexivity|].
  exact (proj1 (existing_tickers_distinct_non_null seeded_world 0 0 H1 H2 H3)).
Defined.

(** ** Error propagation *)

(** A failed DELETE is logged before it propagates. *)
Lemma delete_market_Raised t w e w' :
  DatabaseClient.delete_market t w = (Raised e, w') →
  e = SQLAlchemyError ∧ markets w' = markets w
  ∧ log w' = log w ++ [failure ("Failed to delete market '" +:+ t +:+ "'.")].
Proof.
  rewrite delete_market_cases.
  destruct (storage_fails w (round_trips w)); [by intros [= <- <-]|].
  destruct (markets w) as [tb|] eqn:Hm.
  - case_bool_decide; [discriminate|]. by intros [= <- <-].
  - by intros [= <- <-].
Qed.

(** A failed ALTER TABLE is logged before it propagates; a failure while
    the columns are inspected is not. *)
Lemma _ensure_status_change_column_Raised w e w' :
  DatabaseClient._ensure_status_change_column w = (Raised e, w') →
  e = SQLAlchemyError ∧ markets w' = markets w
  ∧ (log w' = log w
     ∨ log w' = log w ++ [failure "Failed to add status change column."]).
Proof.
  unfold DatabaseClient._ensure_status_change_column,
    try_except_SQLAlchemyError, mbind, M_bind, round_trip, sql.get_columns,
    sql.add_column.
  destruct (storage_fails w (round_trips w)); [intros [= <- <-]; simpl; auto|].
  destruct (markets w) as [tb|] eqn:Hm; [|intros [= <- <-]; simpl; auto].
  simpl. case_bool_decide as Hin; [discriminate|]. simpl.
  destruct (storage_fails w (S (round_trips w))).
  - intros [= <- <-]. simpl. auto.
  - try rewrite bool_decide_false by done. discriminate.
Qed.

(** Nothing is written to the log when creating the table fails. *)
Lemma _ensure_table_Raised schema w e w' :
  DatabaseClient._ensure_table schema w = (Raised e, w') →
  e = SQLAlchemyError ∧ markets w' = markets w ∧ log w' = log w.
Proof.
  unfold DatabaseClient._ensure_table, mbind, M_bind, round_trip,
    sql.has_table, sql.create_table.
  destruct (storage_fails w (round_trips w)); [by intros [= <- <-]|].
  destruct (markets w) as [tb|] eqn:Hm; simpl; [discriminate|].
  destruct (storage_fails w (S (round_trips w))); [|discriminate].
  by intros [= <- <-].
Qed.

(** C6 (error propagation), at an input where it fails: the storage
    engine refuses the CREATE TABLE of [_ensure_table].  The error
    propagates out of the cycle, and no ERROR record is logged for it:
    the log holds the connection message only. *)
Theorem table_creation_failure_not_logged :
  DatabaseClient._ensure_table ["market_ticker"; "market_status"] read_only_world
  = (Raised SQLAlchemyError, refused (connected read_only_world))
  ∧ log (refused (connected read_only_world)) = []
  ∧ (get_events_dataframe first_fetch read_only_world).1
    = Raised SQLAlchemyError
  ∧ log (get_events_dataframe first_fetch read_only_world).2
    = [info "Connected to database at /data/kalshi.db"].
Proof.
  split; [reflexivity|]. split; [reflexivity|].
  split; vm_compute; reflexivity.
Qed.

(** * Further properties *)

(** ** Flattening, further *)

Lemma normalize_one_well_formed e y :
  pd.normalize_one "markets" ["event_ticker"; "series_ticker"; "title"]
    "market_" "event_" (JObj e) = Returned y →
  well_formed_event e.
Proof.
  unfold pd.normalize_one, pd.pull_records, pd.pull_field, well_formed_event.
  intros (recs & Hrecs & H)%bindO_Returned.
  apply bindO_Returned in H as (metas & Hmetas & _).
  split.
  - destruct (dict_get e "markets") as [v|]; simpl in Hrecs; [|discriminate].
    destruct v; try discriminate; eauto.
  - simpl in Hmetas.
    destruct (dict_get e "event_ticker"); simpl in Hmetas; [|discriminate].
    destruct (dict_get e "series_ticker"); simpl in Hmetas; [|discriminate].
    destruct (dict_get e "title"); simpl in Hmetas; [|discriminate].
    eauto.
Qed.

(** X1 (ill-formed fetches).  The flattening of lines 69-90 returns a
    table only for a non-empty list of events, each with a [markets]
    entry that is a list or null and with the entries [event_ticker],
    [series_ticker] and [title].  For an empty fetch, or one with an
    event that is not of this form, the cycle raises before the database
    client is created: the store, the log and the clock are untouched. *)
Theorem ill_formed_fetch_aborts_before_the_store events :
  (∀ df, flatten events = Returned df →
         events ≠ [] ∧ Forall well_formed_event events)
  ∧ (events = [] ∨ ¬ Forall well_formed_event events →
     ∀ w, ∃ e, get_events_dataframe events w = (Raised e, w)).
Proof.
  assert (Hwf : ∀ df, flatten events = Returned df →
                      events ≠ [] ∧ Forall well_formed_event events).
  { unfold flatten, normalize_data.
    intros df (joined & Hj & _)%bindO_Returned.
    apply bindO_Returned in Hj as (markets_df & Hn & Hm).
    destruct events as [|e0 events0] eqn:Hev.
    { simpl in Hn. injection Hn as <-. discriminate. }
    split; [done|]. rewrite <- Hev in *. clear Hev.
    unfold pd.json_normalize in Hn.
    destruct (JObj <$> events) as [|j js] eqn:Hjs.
    { injection Hn as <-. discriminate. }
    rewrite <- Hjs in Hn. clear Hjs.
    apply bindO_Returned in Hn as (per_obj & Hper%mapO_Returned & _).
    clear Hm. revert per_obj Hper.
    induction events as [|e events IH]; intros per_obj Hper; [constructor|].
    rewrite fmap_cons in Hper.
    apply Forall2_cons_inv_l in Hper as (y & rest & Hy & Hrest & ->).
    constructor; [by eapply normalize_one_well_formed|by eapply IH]. }
  split; [exact Hwf|].
  intros Hbad w. unfold get_events_dataframe, mbind, M_bind, lift.
  destruct (flatten events) as [df|e] eqn:Hflat; [|eauto].
  destruct (Hwf df eq_refl) as [Hne Hall]. by destruct Hbad.
Qed.

Lemma merge_row_length left right lo ro sl sr l :
  length (pd.merge_row left right lo ro sl sr l)
  = Nat.max 1 (length (pd.partners right ro (pd.cell l lo))).
Proof.
  unfold pd.merge_row.
  destruct (pd.partners right ro (pd.cell l lo)) as [|p ps]; [done|].
  simpl. by rewrite length_map.
Qed.

Lemma partners_listings (events : list Dict) (e : Dict) :
  length (pd.partners (pd.DataFrame_of_records events) "event_ticker"
            (event_ticker e))
  = listings events e.
Proof.
  unfold pd.partners, listings; simpl.
  induction events as [|d events IH]; [done|]. simpl.
  rewrite !filter_cons, event_cell.
  destruct (decide (event_ticker d = event_ticker e)); simpl; by rewrite IH.
Qed.

Lemma listings_pos events e : e ∈ events → 0 < listings events e.
Proof.
  unfold listings. intros He.
  assert (e ∈ filter (λ e', event_ticker e' = event_ticker e) events) as Hin
    by (by apply list_elem_of_filter).
  destruct (filter _ events); [by apply elem_of_nil in Hin|simpl; lia].
Qed.

Lemma length_concat_uniform {A B} (f : A → list B) (l : list A) k :
  (∀ x, x ∈ l → length (f x) = k) → length (concat (map f l)) = length l * k.
Proof.
  induction l as [|x l IH]; intros H; simpl; [done|].
  rewrite length_app, H by left. f_equal. apply IH. intros y Hy. apply H. by right.
Qed.

Lemma joined_length left all sl sr (events : list Dict) per_obj :
  Forall2 (λ x y, pd.normalize_one "markets"
                    ["event_ticker"; "series_ticker"; "title"]
                    "market_" "event_" x = Returned y)
          (JObj <$> events) per_obj →
  length (concat (map (pd.merge_row left (pd.DataFrame_of_records all)
                         "event_event_ticker" "event_ticker" sl sr)
                      (concat (map (λ rm : list Dict * Dict,
                                      map (λ r, list_to_map (r ++ rm.2)
                                                : gmap string Json) rm.1)
                                   per_obj))))
  = sum_list ((λ e, num_markets e * Nat.max 1 (listings all e)) <$> events).
Proof.
  revert per_obj. induction events as [|e events IH]; intros per_obj H.
  - apply Forall2_nil_inv_l in H as ->. done.
  - rewrite fmap_cons in H.
    apply Forall2_cons_inv_l in H as ([recs metas] & rest & H1 & H2 & ->).
    apply normalize_one_spec in H1 as [Hlen Hkey].
    simpl. rewrite map_app, concat_app, length_app, (IH _ H2). f_equal.
    rewrite (length_concat_uniform _ _ (Nat.max 1 (listings all e))).
    + rewrite length_map. f_equal. exact Hlen.
    + intros l (r & -> & Hr)%list_elem_of_fmap.
      by rewrite merge_row_length, (Hkey r Hr), partners_listings.
Qed.

(** X2 (row count of the join).  The table joined in lines 69-81 has,
    for each event of the fetch, as many rows as the event has markets
    times the number of events of the fetch that carry its event ticker.
    It never has fewer rows than the events have markets. *)
Theorem joined_row_count events joined :
  normalize_data events = Returned joined →
  pd.len joined = sum_list ((λ e, num_markets e * listings events e) <$> events)
  ∧ (total_markets events ≤ pd.len joined)%nat.
Proof.
  unfold normalize_data.
  intros (markets_df & Hn & Hm)%bindO_Returned.
  unfold pd.json_normalize in Hn.
  destruct events as [|e0 events0] eqn:Hev.
  { simpl in Hn. injection Hn as <-. discriminate. }
  rewrite <- Hev in *. clear Hev.
  destruct (JObj <$> events) as [|j js] eqn:Hjs.
  { injection Hn as <-. discriminate. }
  rewrite <- Hjs in Hn. clear Hjs.
  apply bindO_Returned in Hn as (per_obj & Hper%mapO_Returned & [= <-]).
  unfold pd.merge_left in Hm.
  repeat (case_match; try discriminate). injection Hm as <-.
  unfold pd.len; simpl. rewrite (joined_length _ events _ _ events _ Hper).
  assert (Heq : ∀ l : list Dict, (∀ e, e ∈ l → e ∈ events) →
    sum_list ((λ e, num_markets e * Nat.max 1 (listings events e)) <$> l)
    = sum_list ((λ e, num_markets e * listings events e) <$> l)
    ∧ (sum_list (num_markets <$> l)
       ≤ sum_list ((λ e, num_markets e * listings events e) <$> l))%nat).
  { induction l as [|e l IH]; intros Hsub; [done|].
    destruct IH as [IH1 IH2]; [intros ? ?; apply Hsub; by right|].
    pose proof (listings_pos events e (Hsub e ltac:(left))) as Hpos.
    rewrite !fmap_cons. simpl. rewrite IH1.
    replace (Nat.max 1 (listings events e)) with (listings events e) by lia.
    split; [done|]. nia. }
  destruct (Heq events) as [H1 H2]; [done|]. rewrite H1. done.
Qed.

Lemma assign_columns_eq c v df :
  pd.columns (pd.assign c v df)
  = pd.columns df ++ (if bool_decide (c ∈ pd.columns df) then [] else [c]).
Proof.
  unfold pd.assign; cbn [pd.columns].
  case_bool_decide; [by rewrite app_nil_r|done].
Qed.

Lemma assign_column_in c v df : c ∈ pd.columns (pd.assign c v df).
Proof.
  rewrite assign_columns_eq. apply elem_of_app.
  case_bool_decide; [by left|right; by apply list_elem_of_singleton].
Qed.

Lemma assign_columns_mono c v df c' :
  c' ∈ pd.columns df → c' ∈ pd.columns (pd.assign c v df).
Proof. intros H. rewrite assign_columns_eq. apply elem_of_app. by left. Qed.

(** X3 (shape of the flattened table).  The columns of the flattened
    table start with title, sub_title, market_rules_primary and
    market_rules_secondary; [markets] is not a column and
    [market_status_change_time] is one.  Every row holds null in
    [market_status_change_time], binds no [markets] label and binds only
    labels that are columns. *)
Theorem flattened_table_shape events df :
  flatten events = Returned df →
  take 4 (pd.columns df) = leading_columns
  ∧ ("markets" ∉ pd.columns df)
  ∧ ("market_status_change_time" ∈ pd.columns df)
  ∧ (∀ r, r ∈ pd.rows df →
          r !! "market_status_change_time" = Some JNull
          ∧ r !! "markets" = None
          ∧ ∀ c, is_Some (r !! c) → c ∈ pd.columns df).
Proof.
  unfold flatten. intros (joined & _ & H)%bindO_Returned.
  unfold clean_up in H. apply bindO_Returned in H as (d & Hsel & [= <-]).
  unfold pd.select in Hsel. case_match; [discriminate|]. injection Hsel as <-.
  set (rest := filter (λ c, c ∉ leading_columns) (pd.columns joined)).
  set (P1 := λ c : string, negb (String.prefix "market_custom_strike" c)).
  set (P2 := λ c : string, negb (bool_decide (c = "markets"))).
  set (sel := {| pd.columns := _; pd.rows := _ |}).
  assert (Hsel : pd.columns sel = leading_columns ++ rest) by reflexivity.
  assert (Hcols : pd.columns (pd.keep_columns P2 (pd.keep_columns P1 sel))
          = leading_columns
            ++ filter (λ c, P2 c = true) (filter (λ c, P1 c = true) rest)).
  { unfold pd.keep_columns. cbn [pd.columns]. rewrite Hsel, !filter_app.
    f_equal. }
  split; [|split; [|split]].
  - rewrite assign_columns_eq, Hcols, <- app_assoc. reflexivity.
  - intros [Heq|Hin]%assign_columns; [discriminate|].
    apply keep_columns_columns in Hin as [Hp _]. by vm_compute in Hp.
  - apply assign_column_in.
  - unfold pd.assign at 1. cbn [pd.rows].
    intros r (r0 & -> & Hr0)%list_elem_of_fmap.
    split; [by rewrite lookup_insert_eq|]. split.
    + rewrite lookup_insert_ne by done.
      by eapply (keep_columns_rows P2).
    + intros c Hc.
      destruct (decide (c = "market_status_change_time")) as [->|Hne];
        [apply assign_column_in|].
      rewrite lookup_insert_ne in Hc by done.
      assert (c ∈ pd.columns (pd.keep_columns P2 (pd.keep_columns P1 sel)))
        as Hin.
      { unfold pd.keep_columns in Hr0 |- *. cbn [pd.columns pd.rows] in Hr0 |- *.
        apply list_elem_of_fmap in Hr0 as (r1 & -> & Hr1).
        apply list_elem_of_fmap in Hr1 as (r2 & -> & Hr2).
        unfold sel in Hr2. cbn [pd.rows] in Hr2.
        apply list_elem_of_fmap in Hr2 as (r3 & -> & _).
        destruct Hc as [v Hv].
        apply map_lookup_filter_Some in Hv as [Hv HP2].
        apply map_lookup_filter_Some in Hv as [Hv HP1].
        apply map_lookup_filter_Some in Hv as [Hv Hin].
        apply list_elem_of_filter. split; [done|].
        apply list_elem_of_filter. split; done. }
      by apply assign_columns_mono.
Qed.

(** ** Reconciliation, further *)

Lemma closing_scalar existing status_map r :
  scalar (pd.cell r "market_ticker") → scalar (pd.cell r "market_status") →
  closing existing status_map r
  = Returned (closure_eligible existing status_map r).
Proof.
  unfold closing, closure_eligible.
  destruct (pd.cell r "market_ticker") as [| | |t| |]; simpl; try done.
  intros _.
  destruct (bool_decide (t ∈ existing)), (bool_decide (_ !! _ = _)),
    (pd.cell r "market_status"); simpl; done.
Qed.

Lemma closure_loop_skip existing status_map todo df n w :
  (∀ r, r ∈ todo → closing existing status_map r = Returned None) →
  closure_loop existing status_map todo df n w = (Returned (df, n), w).
Proof.
  induction todo as [|r todo IH]; intros H; [done|]. simpl.
  unfold mbind at 1, M_bind, lift. rewrite (H r) by left.
  apply IH. intros r' Hr'. apply H. by right.
Qed.

Lemma new_active_mask_scalar existing df :
  "market_ticker" ∈ pd.columns df → "market_status" ∈ pd.columns df →
  (∀ r, r ∈ pd.rows df → scalar (pd.cell r "market_ticker")) →
  ∃ mask, new_active_mask existing df = Returned mask.
Proof.
  intros Ht Hs Hsc. unfold new_active_mask, pd.column.
  rewrite !bool_decide_true by done. simpl.
  assert (∃ tr, mapO (λ v, py_in v existing)
                  (map (λ r, pd.cell r "market_ticker") (pd.rows df))
                = Returned tr) as [tr ->]; [|simpl; eauto].
  induction (pd.rows df) as [|r rows IH]; [simpl; eauto|].
  destruct IH as [tr Htr]; [intros r' Hr'; apply Hsc; by right|].
  simpl. rewrite Htr.
  specialize (Hsc r ltac:(left)).
  destruct (pd.cell r "market_ticker"); simpl in *; try done; eauto.
Qed.

Lemma insert_pass_nothing_new existing df w :
  "market_ticker" ∈ pd.columns df → "market_status" ∈ pd.columns df →
  (∀ r, r ∈ pd.rows df → scalar (pd.cell r "market_ticker")) →
  (∀ r, r ∈ pd.rows df → new_and_active existing r = false) →
  insert_pass existing df w = (Returned 0, w).
Proof.
  intros Ht Hs Hsc Hnone.
  destruct (new_active_mask_scalar existing df Ht Hs Hsc) as [mask Hmask].
  unfold insert_pass, mbind, M_bind, lift. rewrite Hmask.
  apply new_active_mask_spec in Hmask.
  rewrite filter_none in Hmask
    by (intros r Hr; rewrite (Hnone r Hr); discriminate).
  unfold pd.len. rewrite Hmask. reflexivity.
Qed.

(** X4 (no-op on unchanged markets).  When every row has a string
    ticker and a string status, every tracked ticker comes with a status
    outside the CLOSED set and every other ticker with a status other
    than "active", the insert pass returns 0 and the closure pass returns
    the table as it is with count 0.  Neither changes the world: no
    statement is sent to the store and nothing is logged. *)
Theorem unchanged_markets_are_left_alone existing status_map df w :
  "market_ticker" ∈ pd.columns df → "market_status" ∈ pd.columns df →
  (∀ r, r ∈ pd.rows df →
     ∃ t s, pd.cell r "market_ticker" = JStr t
            ∧ pd.cell r "market_status" = JStr s
            ∧ (t ∈ existing → s ∉ CLOSED_STATUSES)
            ∧ (t ∉ existing → s ≠ "active")) →
  insert_pass existing df w = (Returned 0, w)
  ∧ closure_pass existing status_map df w = (Returned (df, 0), w).
Proof.
  intros Ht Hs Hrows. split.
  - apply insert_pass_nothing_new; try done.
    + intros r (t & s & -> & _)%Hrows. done.
    + intros r (t & s & Hrt & Hrs & Hin & Hout)%Hrows.
      unfold new_and_active, tracked. rewrite Hrt, Hrs.
      destruct (decide (t ∈ existing)).
      * by rewrite bool_decide_true.
      * rewrite bool_decide_false by done. simpl.
        apply bool_decide_eq_false. intros [= ->]. by apply Hout.
  - apply closure_loop_skip.
    intros r (t & s & Hrt & Hrs & Hin & Hout)%Hrows.
    rewrite closing_scalar by (by rewrite ?Hrt, ?Hrs). f_equal.
    unfold closure_eligible. rewrite Hrt, Hrs.
    destruct (decide (t ∈ existing)).
    + rewrite (bool_decide_false (s ∈ _)) by auto.
      by rewrite andb_false_r.
    + by rewrite bool_decide_false.
Qed.

Lemma length_filter_omap_le {A B} (P : A → Prop) `{∀ x, Decision (P x)}
    (f : A → option B) (l : list A) :
  (∀ x, P x → f x = None) →
  (length (filter P l) + length (omap f l) ≤ length l)%nat.
Proof.
  intros Hd. unfold omap. induction l as [|x l IH]; [done|].
  rewrite filter_cons. simpl. destruct (decide (P x)) as [HP|HP].
  - rewrite (Hd x HP). simpl. lia.
  - destruct (f x); simpl; lia.
Qed.

(** X5 (the counts of a cycle).  [opened_count] and [closed_count]
    together do not exceed the number of rows of the flattened table: no
    row counts for both passes.  The table the closure pass returns has
    as many rows as the one it was given. *)
Theorem opened_and_closed_rows_are_disjoint existing status_map df w2
    opened_count w3 df' closed_count w4 :
  insert_pass existing df w2 = (Returned opened_count, w3) →
  closure_pass existing status_map df w3 = (Returned (df', closed_count), w4) →
  (opened_count + closed_count ≤ pd.len df)%nat
  ∧ pd.len df' = pd.len df.
Proof.
  intros (-> & _)%insert_pass_Returned
         (-> & _ & _ & _ & Hrows & _)%closure_loop_Returned.
  unfold pd.len. rewrite Hrows, length_fmap. split; [|done]. simpl.
  apply length_filter_omap_le.
  intros r [Hnew _]%new_and_active_true.
  destruct (closure_eligible existing status_map r) as [t|] eqn:He; [|done].
  apply closure_eligible_Some in He as (Hrt & Hin & _). by destruct (Hnew t).
Qed.

Lemma tickers_of_app rows1 rows2 :
  tickers_of (rows1 ++ rows2) = tickers_of rows1 ∪ tickers_of rows2.
Proof.
  apply set_eq. intros t.
  rewrite elem_of_union, !elem_of_tickers_of.
  setoid_rewrite elem_of_app. split.
  - intros (r & [Hr|Hr] & Ht); [left|right]; eauto.
  - intros [(r & Hr & Ht)|(r & Hr & Ht)]; exists r; eauto.
Qed.

Lemma tickers_of_without_tickers ts rows :
  tickers_of (without_tickers ts rows) = tickers_of rows ∖ list_to_set ts.
Proof.
  apply set_eq. intros t.
  rewrite elem_of_difference, !elem_of_tickers_of, elem_of_list_to_set.
  unfold without_tickers. setoid_rewrite list_elem_of_filter.
  setoid_rewrite Forall_forall. split.
  - intros (r & [Hall Hr] & Ht). split; [eauto|].
    intros Hin. by apply (Hall t Hin).
  - intros [(r & Hr & Ht) Hnin]. exists r. split; [|done]. split; [|done].
    intros t' Hin' Heq. rewrite Ht in Heq. injection Heq as ->. done.
Qed.

Lemma bind_row_dom cols r b c :
  sql.bind_row cols r = Some b → c ∉ cols → b !! c = None.
Proof.
  revert b. induction cols as [|c' cols IH]; intros b; simpl.
  - intros [= <-] _. apply lookup_empty.
  - destruct (sql.bind (pd.cell r c')) as [v|]; [|discriminate]. simpl.
    destruct (sql.bind_row cols r) as [m|]; [|discriminate]. simpl.
    intros [= <-] Hnin. apply not_elem_of_cons in Hnin as [Hne Hnin].
    destruct v; [rewrite lookup_insert_ne by done|]; by apply IH.
Qed.

Lemma bind_row_lookup cols r b c :
  sql.bind_row cols r = Some b → c ∈ cols →
  sql.bind (pd.cell r c) = Some (b !! c).
Proof.
  revert b. induction cols as [|c' cols IH]; intros b; simpl.
  - intros _ Hin. by apply elem_of_nil in Hin.
  - destruct (sql.bind (pd.cell r c')) as [v|] eqn:Hv; [|discriminate]. simpl.
    destruct (sql.bind_row cols r) as [m|] eqn:Hm; [|discriminate]. simpl.
    intros [= <-] Hin.
    destruct (decide (c' = c)) as [->|Hne].
    + destruct v as [s|]; [by rewrite lookup_insert_eq|].
      destruct (decide (c ∈ cols)) as [Hc|Hc].
      * rewrite <- (IH m eq_refl Hc). done.
      * by rewrite (bind_row_dom _ _ _ _ Hm Hc).
    + apply elem_of_cons in Hin as [->|Hin]; [done|].
      destruct v; [rewrite lookup_insert_ne by done|]; by apply IH.
Qed.

Lemma tickers_of_bound cols rows bound :
  "market_ticker" ∈ cols →
  (∀ r, r ∈ rows → string_or_missing (pd.cell r "market_ticker")) →
  mapM (sql.bind_row cols) rows = Some bound →
  tickers_of bound = list_to_set (omap ticker_text rows).
Proof.
  intros Hc Hty Hb%mapM_Some. apply set_eq. intros t.
  rewrite elem_of_tickers_of, elem_of_list_to_set, list_elem_of_omap. split.
  - intros (b & Hin & Hbt).
    apply list_elem_of_lookup in Hin as [i Hi].
    destruct (Forall2_lookup_r _ _ _ _ _ Hb Hi) as (r & Hr & Hbind).
    exists r. split; [by eapply list_elem_of_lookup_2|].
    apply (bind_row_lookup _ _ _ _ Hbind) in Hc. rewrite Hbt in Hc.
    unfold ticker_text.
    destruct (Hty r) as [Hn|[s Hs]]; [by eapply list_elem_of_lookup_2|..].
    + rewrite Hn in Hc. discriminate.
    + rewrite Hs in Hc |- *. simpl in Hc. by injection Hc as ->.
  - intros (r & Hin & Hrt).
    apply list_elem_of_lookup in Hin as [i Hi].
    destruct (Forall2_lookup_l _ _ _ _ _ Hb Hi) as (b & Hbi & Hbind).
    exists b. split; [by eapply list_elem_of_lookup_2|].
    apply (bind_row_lookup _ _ _ _ Hbind) in Hc.
    unfold ticker_text in Hrt.
    destruct (pd.cell r "market_ticker"); try discriminate.
    injection Hrt as ->. simpl in Hc. by injection Hc.
Qed.

Lemma new_tickers_disjoint existing df : new_tickers existing df ## existing.
Proof.
  unfold new_tickers. intros t Hin Hex.
  apply elem_of_list_to_set, list_elem_of_omap in Hin as (r & Hr & Hrt).
  apply list_elem_of_filter in Hr as [[Hnew _]%new_and_active_true _].
  unfold ticker_text in Hrt.
  destruct (pd.cell r "market_ticker") eqn:Hcell; try discriminate.
  injection Hrt as ->. by apply (Hnew t).
Qed.

Lemma closure_eligible_tracked existing status_map rows :
  list_to_set (omap (closure_eligible existing status_map) rows)
  ⊆@{gset string} existing.
Proof.
  intros t Hin.
  apply elem_of_list_to_set, list_elem_of_omap in Hin as (r & _ & Hr).
  by apply closure_eligible_Some in Hr as (_ & ? & _).
Qed.

Lemma stored_tickers_after_passes existing status_map df w2 opened_count w3
    df' closed_count w4 :
  "market_ticker" ∈ pd.columns df →
  (∀ r, r ∈ pd.rows df → string_or_missing (pd.cell r "market_ticker")) →
  insert_pass existing df w2 = (Returned opened_count, w3) →
  closure_pass existing status_map df w3 = (Returned (df', closed_count), w4) →
  tickers_of (stored_rows w4)
  = (tickers_of (stored_rows w2) ∪ new_tickers existing df)
    ∖ list_to_set (omap (closure_eligible existing status_map) (pd.rows df)).
Proof.
  intros Hc Hty (_ & _ & bound & Hb & Hrows & _)%insert_pass_Returned
         (_ & Hrows' & _)%closure_loop_Returned.
  rewrite Hrows', Hrows, tickers_of_without_tickers, tickers_of_app.
  rewrite (tickers_of_bound _ _ _ Hc) with (2 := Hb); [done|].
  intros r [_ Hr]%list_elem_of_filter. by apply Hty.
Qed.

(** X6 (the stored tickers after both passes).  When tickers are
    strings or missing, the tickers stored after the closure pass are
    those stored before the insert pass, without the tickers the closure
    pass deleted, together with the tickers of the new active rows.  The
    new tickers are disjoint from the existing-ticker set, and the
    deleted ones are members of it. *)
Theorem tickers_after_reconciliation existing status_map df w2 opened_count w3
    df' closed_count w4 :
  "market_ticker" ∈ pd.columns df →
  (∀ r, r ∈ pd.rows df → string_or_missing (pd.cell r "market_ticker")) →
  insert_pass existing df w2 = (Returned opened_count, w3) →
  closure_pass existing status_map df w3 = (Returned (df', closed_count), w4) →
  tickers_of (stored_rows w4)
  = (tickers_of (stored_rows w2)
     ∖ list_to_set (omap (closure_eligible existing status_map) (pd.rows df)))
    ∪ new_tickers existing df
  ∧ new_tickers existing df ## existing
  ∧ list_to_set (omap (closure_eligible existing status_map) (pd.rows df))
    ⊆ existing.
Proof.
  intros Hc Hty Hins Hclo.
  pose proof (new_tickers_disjoint existing df) as Hnew.
  pose proof (closure_eligible_tracked existing status_map (pd.rows df))
    as Hclosed.
  split; [|done].
  rewrite (stored_tickers_after_passes _ _ _ _ _ _ _ _ _ Hc Hty Hins Hclo).
  apply set_eq. intros t.
  rewrite elem_of_union, !elem_of_difference, elem_of_union. split.
  - intros [[Hold|Hin] Hnc]; auto.
  - intros [[Hold Hnc]|Hin]; [auto|]. split; [auto|].
    intros Hcl%Hclosed. by apply (Hnew t).
Qed.


Lemma closing_Raised existing status_map r e :
  closing existing status_map r = Raised e → e = TypeError.
Proof.
  unfold closing.
  destruct (pd.cell r "market_ticker") as [| | |t| |]; simpl;
    try discriminate; try (by intros [= <-]).
  destruct (bool_decide (t ∈ existing)), (bool_decide (_ !! _ = _)),
    (pd.cell r "market_status"); simpl; try discriminate; by intros [= <-].
Qed.

Lemma closure_loop_Raised existing status_map todo : ∀ df n w e w',
  closure_loop existing status_map todo df n w = (Raised e, w') →
  ∃ done,
    done `prefix_of` omap (closure_eligible existing status_map) todo
    ∧ stored_rows w' = without_tickers done (stored_rows w)
    ∧ (e = TypeError ∧ log w' = log w ++ (deleted_record <$> done)
       ∨ ∃ t, e = SQLAlchemyError
              ∧ (done ++ [t])
                `prefix_of` omap (closure_eligible existing status_map) todo
              ∧ log w' = log w ++ (deleted_record <$> done)
                         ++ [failure ("Failed to delete market '" +:+ t +:+ "'.")]).
Proof.
  induction todo as [|row rest IH]; intros df n w e w' H; simpl in H;
    [discriminate|].
  unfold mbind at 1, M_bind, lift in H.
  destruct (closing existing status_map row) as [hit|e0] eqn:Hhit.
  - apply closing_Returned in Hhit as ->. simpl.
    destruct (closure_eligible existing status_map row) as [t|].
    + unfold mbind at 1, M_bind, fmap, M_fmap, now_utc in H.
      unfold mbind at 1, M_bind in H.
      destruct (DatabaseClient.delete_market t (tick w)) as [[[]|e1] w1] eqn:Hdel.
      * apply delete_market_Returned in Hdel as (Hrows & Hlog & _).
        apply IH in H as (done & Hpre & Hst & Hcase).
        exists (t :: done). split; [by apply prefix_cons|].
        split; [by rewrite without_tickers_cons, Hst, Hrows|].
        destruct Hcase as [[-> Hl]|(t' & -> & Hpre' & Hl)].
        -- left. split; [done|]. rewrite Hl, Hlog, <- app_assoc. done.
        -- right. exists t'. split; [done|]. split; [by apply prefix_cons|].
           rewrite Hl, Hlog, <- !app_assoc. done.
      * injection H as <- <-.
        apply delete_market_Raised in Hdel as (-> & Hm & Hl).
        exists []. split; [apply prefix_nil|].
        split.
        { unfold without_tickers, stored_rows. rewrite Hm.
          by rewrite filter_all by (intros; constructor). }
        right. exists t. split; [done|]. split; [|done].
        apply prefix_cons, prefix_nil.
    + apply IH in H as (done & Hpre & Hst & Hcase). exists done. done.
  - injection H as <- <-. apply closing_Raised in Hhit as ->.
    exists []. split; [apply prefix_nil|]. split.
    { unfold without_tickers. by rewrite filter_all by (intros; constructor). }
    left. by rewrite app_nil_r.
Qed.

(** X8 (a failed closure pass keeps the deletes it made).  When the
    closure pass raises, the store holds the rows it held without those
    of the tickers deleted so far, which are a prefix of the tickers
    eligible for closure in row order.  The error is a [TypeError] of a
    membership test or a [SQLAlchemyError] of a delete. *)
Theorem failed_closure_keeps_completed_deletes existing status_map df w e w' :
  closure_pass existing status_map df w = (Raised e, w') →
  ∃ done,
    done `prefix_of` omap (closure_eligible existing status_map) (pd.rows df)
    ∧ stored_rows w' = without_tickers done (stored_rows w)
    ∧ (e = TypeError ∨ e = SQLAlchemyError).
Proof.
  intros (done & Hpre & Hst & Hcase)%closure_loop_Raised.
  exists done. split; [done|]. split; [done|].
  destruct Hcase as [[-> _]|(t & -> & _)]; auto.
Qed.

(** X9 (the closure pass edits only the change-time column).  The
    table the closure pass returns has the columns and the number of rows
    of the table it was given, and every row agrees with the row at the
    same position in every cell other than
    [market_status_change_time]. *)
Theorem closure_pass_touches_only_change_time existing status_map df w df' n w' :
  closure_pass existing status_map df w = (Returned (df', n), w') →
  pd.columns df' = pd.columns df
  ∧ length (pd.rows df') = length (pd.rows df)
  ∧ ∀ i r r', pd.rows df !! i = Some r → pd.rows df' !! i = Some r' →
      ∀ c, c ≠ "market_status_change_time" → r' !! c = r !! c.
Proof.
  intros (_ & _ & _ & Hcols & Hrows & _)%closure_loop_Returned.
  split; [done|]. rewrite Hrows, length_fmap. split; [done|].
  intros i r r' Hi Hi' c Hc.
  rewrite list_lookup_fmap, Hi in Hi'. injection Hi' as <-.
  by apply stamp_row_other.
Qed.

(** ** The database client *)

Lemma migrated_idemp tb : migrated (migrated tb) = migrated tb.
Proof.
  destruct (decide ("market_status_change_time" ∈ t_columns tb)) as [H|H].
  - unfold migrated. by rewrite !(bool_decide_true _ H).
  - unfold migrated. rewrite !(bool_decide_false _ H). cbn [t_columns].
    rewrite bool_decide_true; [done|].
    apply elem_of_app. right. by apply list_elem_of_singleton.
Qed.

Lemma init_effect schema w w' :
  DatabaseClient.__init__ schema w = (Returned (), w') →
  markets w'
  = Some (migrated (default {| t_columns := schema; t_rows := [] |} (markets w)))
  ∧ db_file_exists w' = true
  ∧ log w'
    = log w
      ++ [info ("Connected to database at " +:+ db_file w)]
      ++ match markets w with
         | Some _ => []
         | None => [info ("Created table 'markets' with columns: "
                          +:+ DatabaseClient.repr_list schema)]
         end
      ++ (if bool_decide
               ("market_status_change_time"
                ∈ t_columns (default {| t_columns := schema; t_rows := [] |}
                                     (markets w)))
          then [] else [info "Added column 'market_status_change_time'."])
  ∧ db_file w' = db_file w
  ∧ utcnow w' = utcnow w ∧ clock_reads w' = clock_reads w.
Proof.
  unfold DatabaseClient.__init__, DatabaseClient._ensure_table,
    DatabaseClient._ensure_status_change_column, try_except_SQLAlchemyError,
    mbind, M_bind, round_trip, logger_info, sql.has_table, sql.create_table,
    sql.get_columns, sql.add_column, migrated.
  simpl. destruct (storage_fails w (round_trips w)); [discriminate|].
  destruct (markets w) as [tb|] eqn:Hm; simpl.
  - destruct (storage_fails w (S (round_trips w))); [discriminate|]. simpl.
    case_bool_decide as Hin; simpl.
    + intros [= <-]. simpl. by rewrite ?app_nil_r.
    + destruct (storage_fails w (S (S (round_trips w)))); [discriminate|].
      simpl. rewrite bool_decide_false by done. intros [= <-]. simpl.
      by rewrite <- app_assoc.
  - destruct (storage_fails w (S (round_trips w))); [discriminate|]. simpl.
    destruct (storage_fails w (S (S (round_trips w)))); [discriminate|]. simpl.
    case_bool_decide as Hin; simpl.
    + intros [= <-]. simpl. by rewrite <- !app_assoc.
    + destruct (storage_fails w (S (S (S (round_trips w))))); [discriminate|].
      simpl. rewrite bool_decide_false by done. intros [= <-]. simpl.
      by rewrite <- !app_assoc.
Qed.

Lemma migrated_has_column tb :
  "market_status_change_time" ∈ t_columns (migrated tb).
Proof.
  unfold migrated. case_bool_decide; [done|]. cbn [t_columns].
  apply elem_of_app. right. by apply list_elem_of_singleton.
Qed.

(** X10 (setting up the client is idempotent).  After
    [DatabaseClient.__init__] returns, the [markets] table is the one
    there was (or an empty one with the columns of the schema when there
    was none) with the column [market_status_change_time] added if it
    lacked it; the stored rows are unchanged and the database file
    exists.  Setting up a client again, with any schema, leaves the
    table as it is and logs the connection message only. *)
Theorem client_setup_is_idempotent schema w w1 :
  DatabaseClient.__init__ schema w = (Returned (), w1) →
  markets w1
  = Some (migrated (default {| t_columns := schema; t_rows := [] |} (markets w)))
  ∧ stored_rows w1 = stored_rows w
  ∧ db_file_exists w1 = true
  ∧ ∀ schema' w2,
      DatabaseClient.__init__ schema' w1 = (Returned (), w2) →
      markets w2 = markets w1
      ∧ log w2 = log w1 ++ [info ("Connected to database at " +:+ db_file w1)].
Proof.
  intros (Hm & Hfile & _ & Hdb & _)%init_effect.
  split; [done|]. split; [|split; [done|]].
  - unfold stored_rows. rewrite Hm. unfold migrated.
    destruct (markets w) as [tb|]; simpl; by case_bool_decide.
  - intros schema' w2 (Hm2 & _ & Hl2 & _)%init_effect.
    rewrite Hm in Hm2, Hl2. cbn [default from_option id] in Hm2, Hl2.
    rewrite migrated_idemp in Hm2. split; [by rewrite Hm, Hm2|].
    rewrite Hl2. f_equal.
    rewrite (bool_decide_true _ (migrated_has_column _)). done.
Qed.

Lemma tickers_of_without_ticker t rows :
  tickers_of (without_ticker t rows) = tickers_of rows ∖ {[t]}.
Proof.
  apply set_eq. intros t'.
  rewrite elem_of_difference, !elem_of_tickers_of, elem_of_singleton.
  unfold without_ticker. setoid_rewrite list_elem_of_filter. split.
  - intros (r & [Hne Hr] & Ht). split; [eauto|]. intros ->. done.
  - intros [(r & Hr & Ht) Hne]. exists r. split; [|done]. split; [|done].
    rewrite Ht. intros [= ->]. done.
Qed.

(** X11 (what [delete_market] removes).  When [delete_market t]
    returns, the stored tickers are those stored before without [t], the
    stored rows are exactly the earlier rows whose ticker is not [t], and
    the columns of the table are unchanged.  Deleting [t] once more
    leaves the table as it is. *)
Theorem deleted_ticker_is_gone t w w' :
  DatabaseClient.delete_market t w = (Returned (), w') →
  tickers_of (stored_rows w') = tickers_of (stored_rows w) ∖ {[t]}
  ∧ (∀ r, r ∈ stored_rows w'
          ↔ r ∈ stored_rows w ∧ r !! "market_ticker" ≠ Some t)
  ∧ (t_columns <$> markets w') = (t_columns <$> markets w)
  ∧ ∀ w'', DatabaseClient.delete_market t w' = (Returned (), w'') →
           markets w'' = markets w'.
Proof.
  intros Hdel.
  pose proof (delete_market_Returned _ _ _ Hdel) as (Hrows & _).
  split; [by rewrite Hrows, tickers_of_without_ticker|].
  split.
  { intros r. rewrite Hrows. unfold without_ticker.
    rewrite list_elem_of_filter. tauto. }
  revert Hdel. rewrite (delete_market_cases t w).
  destruct (storage_fails w (round_trips w)); [discriminate|].
  destruct (markets w) as [tb|]; [|discriminate].
  case_bool_decide as Hcol; [|discriminate]. intros [= <-]. simpl.
  split; [done|]. intros w''. rewrite delete_market_cases. simpl.
  destruct (storage_fails w (S (round_trips w))); [discriminate|].
  rewrite bool_decide_true by done. intros [= <-]. simpl.
  do 2 f_equal. unfold without_ticker.
  apply filter_all. by intros r [? _]%list_elem_of_filter.
Qed.

Lemma last_status_is_Some rows t :
  is_Some (last_status rows t) ↔ t ∈ tickers_of rows.
Proof.
  unfold last_status. rewrite fmap_is_Some, elem_of_tickers_of. split.
  - intros [r Hr]. apply last_Some_elem_of, list_elem_of_filter in Hr.
    destruct Hr. eauto.
  - intros (r & Hr & Ht).
    destruct (last (filter (λ r, r !! "market_ticker" = Some t) rows))
      as [r'|] eqn:Hlast; [eauto|].
    apply last_None in Hlast.
    assert (r ∈ filter (λ r, r !! "market_ticker" = Some t) rows) as Hin
      by (by apply list_elem_of_filter).
    rewrite Hlast in Hin. by apply elem_of_nil in Hin.
Qed.

(** X12 (the status map follows the last stored row).
    [get_market_status_map] maps a ticker to the status of the last
    stored row with that ticker, its keys are exactly the stored tickers,
    and it leaves the table as it is. *)
Theorem status_map_follows_the_last_row w status_map w' :
  DatabaseClient.get_market_status_map w = (Returned status_map, w') →
  (∀ t, status_map !! Some t = last_status (stored_rows w) t)
  ∧ (∀ t, is_Some (status_map !! Some t) ↔ t ∈ tickers_of (stored_rows w))
  ∧ (∀ rows r t,
       stored_rows w = rows ++ [r] → r !! "market_ticker" = Some t →
       status_map !! Some t = Some (r !! "market_status"))
  ∧ markets w' = markets w.
Proof.
  intros (Hsm & Hm & _)%get_market_status_map_Returned.
  split; [done|]. split; [|split; [|done]].
  - intros t. rewrite Hsm. apply last_status_is_Some.
  - intros rows r t Hrows Ht. rewrite Hsm, Hrows. unfold last_status.
    rewrite filter_app, filter_cons, decide_True, filter_nil by done.
    by rewrite last_snoc.
Qed.

Lemma bind_scalar v : is_Some (sql.bind v) ↔ scalar v.
Proof. destruct v; simpl; split; (done || by intros [] || eauto). Qed.

Lemma bind_row_is_Some cols r :
  is_Some (sql.bind_row cols r) ↔ ∀ c, c ∈ cols → scalar (pd.cell r c).
Proof.
  induction cols as [|c cols IH]; simpl.
  - split; [|eauto]. intros _ c Hc. by apply elem_of_nil in Hc.
  - split.
    + intros [b Hb] c' Hc'.
      destruct (sql.bind (pd.cell r c)) as [v|] eqn:Hv; [|discriminate].
      destruct (sql.bind_row cols r) as [m|] eqn:Hm; [|discriminate].
      apply elem_of_cons in Hc' as [->|Hc'].
      * apply bind_scalar. eauto.
      * apply IH; eauto.
    + intros Hall.
      destruct (proj2 (bind_scalar (pd.cell r c))) as [v ->];
        [apply Hall; left|].
      destruct (proj2 IH) as [m ->]; [intros c' Hc'; apply Hall; by right|].
      simpl. eauto.
Qed.

Lemma mapM_bind_row_is_Some df :
  is_Some (mapM (sql.bind_row (pd.columns df)) (pd.rows df)) ↔ bindable df.
Proof.
  rewrite mapM_is_Some, Forall_forall. unfold bindable. split.
  - intros H r c Hr. by apply bind_row_is_Some, H.
  - intros H r Hr. apply bind_row_is_Some. eauto.
Qed.


(** X14 (appended tickers are found again).  After a frame with a
    [market_ticker] column and string or missing tickers is appended,
    [get_existing_market_tickers] returns the tickers stored before
    together with the string tickers of the frame, and the store has
    grown by the number of rows of the frame. *)
Theorem appended_tickers_are_found df w w1 s w2 :
  "market_ticker" ∈ pd.columns df →
  (∀ r, r ∈ pd.rows df → string_or_missing (pd.cell r "market_ticker")) →
  DatabaseClient.append_dataframe df w = (Returned (), w1) →
  DatabaseClient.get_existing_market_tickers w1 = (Returned s, w2) →
  s = tickers_of (stored_rows w) ∪ list_to_set (omap ticker_text (pd.rows df))
  ∧ length (stored_rows w2) = length (stored_rows w) + pd.len df.
Proof.
  intros Hc Hty (bound & Hb & Hrows & _)%append_dataframe_Returned
    (-> & Hm & _)%get_existing_market_tickers_Returned.
  split.
  - rewrite Hrows, tickers_of_app. f_equal. by eapply tickers_of_bound.
  - unfold stored_rows in *. rewrite Hm, Hrows, length_app.
    apply length_mapM in Hb. unfold pd.len. by rewrite Hb.
Qed.

Lemma lt_cases (P : nat → Prop) n :
  (∀ k, k < n → P k) ↔ Forall P (seq 0 n).
Proof.
  rewrite Forall_forall. setoid_rewrite elem_of_seq.
  split; intros H k Hk; apply H; lia.
Qed.


(** ** Fetching *)

Lemma answered_cons limit status cur p rest net :
  answered limit status cur (p :: rest) net →
  answers net (length (sent net)) (Fetch.params limit status cur) = Ok p
  ∧ Fetch.truthy (cursor p) = bool_decide (rest ≠ [])
  ∧ answered limit status (cursor p) rest
      (time.sleep (get (Fetch.params limit status cur) net).2).
Proof.
  intros H. split; [|split].
  - destruct (H 0 p eq_refl) as [(c & [= <-] & Hc) _].
    by rewrite Nat.add_0_r in Hc.
  - destruct (H 0 p eq_refl) as [_ ->]. simpl.
    apply bool_decide_ext. destruct rest; simpl; split; (done || lia).
  - intros k q Hq. destruct (H (S k) q Hq) as [(c & Hc & Hans) Ht].
    split.
    + exists c. split; [done|]. simpl. rewrite length_app. simpl.
      by rewrite <- Nat.add_assoc.
    + rewrite Ht. apply bool_decide_ext. simpl. lia.
Qed.

Lemma cons_answered limit status cur p rest net :
  answers net (length (sent net)) (Fetch.params limit status cur) = Ok p →
  Fetch.truthy (cursor p) = bool_decide (rest ≠ []) →
  answered limit status (cursor p) rest
    (time.sleep (get (Fetch.params limit status cur) net).2) →
  answered limit status cur (p :: rest) net.
Proof.
  intros Hans Ht H [|k] q Hq.
  - injection Hq as <-. split.
    + exists cur. split; [done|]. by rewrite Nat.add_0_r.
    + rewrite Ht. apply bool_decide_ext.
      destruct rest; simpl; split; (done || lia).
  - destruct (H k q Hq) as [(c & Hc & Hans') Ht']. split.
    + exists c. split; [done|]. simpl in Hans'. rewrite length_app in Hans'.
      simpl in Hans'. by rewrite <- Nat.add_assoc in Hans'.
    + rewrite Ht'. apply bool_decide_ext. simpl. lia.
Qed.

Lemma pagination_runs limit status pages : ∀ fuel evs cur net,
  Fetch.truthy cur = bool_decide (pages ≠ []) →
  answered limit status cur pages net →
  (length pages ≤ fuel)%nat →
  Fetch.pagination fuel limit status evs cur net
  = Some (Fetch.Got (evs ++ concat (Fetch.page_events <$> pages)),
          {| answers := answers net;
             sent := sent net
                     ++ (Fetch.params limit status <$> cursors_sent cur pages);
             naps := naps net + length pages |}).
Proof.
  induction pages as [|p rest IH]; intros fuel evs cur net Hcur Hans Hfuel.
  - destruct fuel; simpl; rewrite Hcur; simpl;
      rewrite !app_nil_r, Nat.add_0_r; by destruct net.
  - destruct fuel as [|fuel]; [simpl in Hfuel; lia|].
    apply answered_cons in Hans as (H0 & Ht & Hrest).
    simpl. rewrite Hcur. simpl.
    unfold Fetch.get_open_events, get. rewrite H0.
    rewrite (IH fuel _ _ _ Ht Hrest) by (simpl in Hfuel; lia).
    simpl. rewrite <- !app_assoc. simpl.
    do 3 f_equal. lia.
Qed.

Lemma pagination_Got limit status : ∀ fuel evs cur net evs' net',
  Fetch.pagination fuel limit status evs cur net = Some (Fetch.Got evs', net') →
  ∃ pages,
    Fetch.truthy cur = bool_decide (pages ≠ [])
    ∧ answered limit status cur pages net
    ∧ (length pages ≤ fuel)%nat
    ∧ evs' = evs ++ concat (Fetch.page_events <$> pages).
Proof.
  induction fuel as [|fuel IH]; intros evs cur net evs' net'; simpl.
  - destruct (Fetch.truthy cur) eqn:Hcur; [discriminate|].
    intros [= <- <-]. exists []. split; [done|]. split; [|split; [done|]].
    + intros k p Hk. by rewrite lookup_nil in Hk.
    + simpl. by rewrite app_nil_r.
  - destruct (Fetch.truthy cur) eqn:Hcur.
    + unfold Fetch.get_open_events, get.
      destruct (answers net _ _) as [|p] eqn:H0; [discriminate|].
      intros (rest & Ht & Hrest & Hlen & ->)%IH.
      exists (p :: rest). split; [done|]. split; [|split].
      * by apply cons_answered.
      * simpl. lia.
      * simpl. by rewrite app_assoc.
    + intros [= <- <-]. exists []. split; [done|]. split; [|split].
      * intros k p Hk. by rewrite lookup_nil in Hk.
      * simpl. lia.
      * simpl. by rewrite app_nil_r.
Qed.

Lemma pagination_Failed limit status : ∀ fuel evs cur net net',
  Fetch.pagination fuel limit status evs cur net = Some (Fetch.Failed, net') →
  Fetch.truthy cur = true
  ∧ ∃ pages,
      refused_after limit status cur pages net
      ∧ (length pages < fuel)%nat
      ∧ sent net' = sent net
                    ++ (Fetch.params limit status
                        <$> take (S (length pages)) (cur :: (cursor <$> pages)))
      ∧ naps net' = naps net + length pages.
Proof.
  induction fuel as [|fuel IH]; intros evs cur net net'; simpl.
  - destruct (Fetch.truthy cur); discriminate.
  - destruct (Fetch.truthy cur) eqn:Hcur; [|discriminate].
    unfold Fetch.get_open_events, get.
    destruct (answers net _ _) as [|p] eqn:H0.
    + intros [= <-]. split; [done|]. exists []. simpl. split; [split|].
      * intros k p Hk. by rewrite lookup_nil in Hk.
      * exists cur. split; [done|]. by rewrite Nat.add_0_r.
      * split; [lia|]. split; [done|lia].
    + intros (Hp & rest & [Hrest (c & Hc & Hlast)] & Hlen & Hsent & Hnaps)%IH.
      split; [done|].
      simpl in Hrest, Hlast, Hsent, Hnaps. rewrite length_app in Hrest, Hlast.
      simpl in Hrest, Hlast.
      exists (p :: rest). split; [split|].
      * intros [|k] q Hq.
        -- injection Hq as <-. split; [|done].
           exists cur. split; [done|]. by rewrite Nat.add_0_r.
        -- destruct (Hrest k q Hq) as [(c' & Hc' & Hans') Ht'].
           split; [|done]. exists c'. split; [done|].
           by rewrite <- Nat.add_assoc in Hans'.
      * exists c. split; [done|]. simpl.
        by rewrite <- Nat.add_assoc in Hlast.
      * simpl. split; [lia|]. split; [|lia].
        rewrite Hsent, <- app_assoc. done.
Qed.

Lemma refused_after_cons limit status cur p rest net :
  refused_after limit status cur (p :: rest) net →
  answers net (length (sent net)) (Fetch.params limit status cur) = Ok p
  ∧ Fetch.truthy (cursor p) = true
  ∧ refused_after limit status (cursor p) rest
      (time.sleep (get (Fetch.params limit status cur) net).2).
Proof.
  intros [H (c & Hc & Hlast)]. split; [|split; [|split]].
  - destruct (H 0 p eq_refl) as [(c' & [= <-] & Hc') _].
    by rewrite Nat.add_0_r in Hc'.
  - by destruct (H 0 p eq_refl) as [_ ->].
  - intros k q Hq. destruct (H (S k) q Hq) as [(c' & Hc' & Hans) Ht].
    split; [|done]. exists c'. split; [done|]. simpl. rewrite length_app.
    simpl. by rewrite <- Nat.add_assoc.
  - exists c. split; [done|]. simpl. rewrite length_app. simpl.
    simpl in Hlast. by rewrite <- Nat.add_assoc.
Qed.

Lemma pagination_fails limit status pages : ∀ fuel evs cur net,
  Fetch.truthy cur = true →
  refused_after limit status cur pages net →
  (length pages < fuel)%nat →
  Fetch.pagination fuel limit status evs cur net
  = Some (Fetch.Failed,
          {| answers := answers net;
             sent := sent net
                     ++ (Fetch.params limit status
                         <$> take (S (length pages)) (cur :: (cursor <$> pages)));
             naps := naps net + length pages |}).
Proof.
  induction pages as [|p rest IH]; intros fuel evs cur net Hcur Href Hfuel;
    (destruct fuel as [|fuel]; [simpl in Hfuel; lia|]).
  - destruct Href as [_ (c & [= <-] & Hlast)]. simpl in *.
    rewrite Hcur. unfold Fetch.get_open_events, get.
    rewrite Nat.add_0_r in Hlast. rewrite Hlast.
    by rewrite Nat.add_0_r.
  - apply refused_after_cons in Href as (H0 & Ht & Hrest).
    simpl. rewrite Hcur. unfold Fetch.get_open_events, get. rewrite H0.
    rewrite (IH fuel _ _ _ Ht Hrest) by (simpl in Hfuel; lia).
    simpl. rewrite <- !app_assoc. simpl. do 3 f_equal. lia.
Qed.

Lemma fetch_events_first limit status fuel net :
  Fetch.fetch_events fuel limit status net
  = match answers net (length (sent net)) (Fetch.params limit status None) with
    | RequestException =>
        Some (Fetch.Failed, (get (Fetch.params limit status None) net).2)
    | Ok response =>
        Fetch.pagination fuel limit status (Fetch.page_events response)
          (cursor response) (get (Fetch.params limit status None) net).2
    end.
Proof. reflexivity. Qed.

(** X16 (the fetch returns the pages in order).  When the pagination
    of lines 56-67 returns, the events are the concatenation, in order,
    of the [events] entries of the pages the remote end answered (none
    for a page without the entry); the first request carries no cursor
    and each later one the cursor of the page before it; every page but
    the last names a non-empty cursor and the last names none or an empty
    one; the loop sleeps once per page after the first. *)
Theorem fetched_events_are_the_pages_in_order fuel limit status net evs net' :
  Fetch.fetch_events fuel limit status net = Some (Fetch.Got evs, net') →
  ∃ pages,
    pages ≠ []
    ∧ answered limit status None pages net
    ∧ evs = concat (Fetch.page_events <$> pages)
    ∧ sent net' = sent net
                  ++ (Fetch.params limit status <$> cursors_sent None pages)
    ∧ naps net' = naps net + (length pages - 1)
    ∧ (length pages ≤ S fuel)%nat.
Proof.
  unfold Fetch.fetch_events, Fetch.get_open_events, get.
  destruct (answers net _ _) as [|p] eqn:H0; [discriminate|].
  intros Hrun.
  destruct (pagination_Got _ _ _ _ _ _ _ _ Hrun)
    as (rest & Ht & Hrest & Hlen & ->).
  rewrite (pagination_runs _ _ _ _ _ _ _ Ht Hrest Hlen) in Hrun.
  injection Hrun as <-. simpl.
  exists (p :: rest). split; [done|]. split; [by apply cons_answered|].
  split; [done|]. split; [by rewrite <- app_assoc|]. split; simpl; lia.
Qed.

(** X17 (the fetch ends at the first page without a cursor).  When
    the remote end answers a sequence of pages of which only the last
    names no cursor, the pagination run for at least as many rounds as
    there are pages after the first returns their events in order, having
    sent one request per page, and the cycle goes on to reconcile exactly
    these events. *)
Theorem enough_fuel_reaches_the_last_page fuel limit status net pages w :
  pages ≠ [] →
  answered limit status None pages net →
  (length pages ≤ S fuel)%nat →
  let evs := concat (Fetch.page_events <$> pages) in
  ∃ net',
    Fetch.fetch_events fuel limit status net = Some (Fetch.Got evs, net')
    ∧ length (sent net') = length (sent net) + length pages
    ∧ Fetch.collect fuel limit status net w
      = Some (match (get_events_dataframe evs w).1 with
              | Returned df => Fetch.Completed df
              | Raised e => Fetch.Aborted e
              end, net', (get_events_dataframe evs w).2).
Proof.
  intros Hne Hans Hfuel evs. destruct pages as [|p rest]; [done|].
  apply answered_cons in Hans as (H0 & Ht & Hrest).
  eexists. unfold Fetch.collect. rewrite fetch_events_first, H0.
  rewrite (pagination_runs limit status rest fuel (Fetch.page_events p)
             (cursor p) (get (Fetch.params limit status None) net).2 Ht Hrest)
    by (simpl in Hfuel; lia).
  split; [done|]. split.
  - cbn [sent get snd]. rewrite !length_app, length_fmap.
    unfold cursors_sent.
    rewrite length_take, !length_cons, length_fmap. simpl. lia.
  - subst evs. simpl.
    by destruct (get_events_dataframe _ w) as [[df|e] w'].
Qed.

(** X18 (a refused request ends the cycle before the store).  The
    cycle ends with a request failure exactly when the remote end
    answers some pages that all name a cursor and refuses the request
    after them.  The world is then as it was: no database client is
    created, nothing is stored or logged. *)
Theorem refused_request_aborts_before_the_store fuel limit status net w :
  (∀ net' w',
     Fetch.collect fuel limit status net w
     = Some (Fetch.RequestFailed, net', w') →
     w' = w
     ∧ ∃ pages,
         refused_after limit status None pages net
         ∧ (length pages ≤ fuel)%nat
         ∧ length (sent net') = length (sent net) + S (length pages)
         ∧ naps net' = naps net + (length pages - 1))
  ∧ (∀ pages,
       refused_after limit status None pages net →
       (length pages ≤ fuel)%nat →
       ∃ net', Fetch.collect fuel limit status net w
               = Some (Fetch.RequestFailed, net', w)).
Proof.
  unfold Fetch.collect. rewrite fetch_events_first. split.
  - intros net' w'.
    destruct (answers net _ _) as [|p] eqn:H0.
    + intros [= <- <-]. split; [done|]. exists []. simpl.
      split; [split|].
      * intros k p Hk. by rewrite lookup_nil in Hk.
      * exists None. split; [done|]. by rewrite Nat.add_0_r.
      * split; [lia|]. rewrite length_app. simpl. split; lia.
    + destruct (Fetch.pagination _ _ _ _ _ _) as [[[evs|] net1]|] eqn:Hrun;
        [by destruct (get_events_dataframe evs w) as [[]]| |discriminate].
      intros [= <- <-]. split; [done|].
      apply pagination_Failed
        in Hrun as (Hp & rest & [Hrest (c & Hc & Hlast)] & Hlen & Hsent & Hnaps).
      simpl in Hrest, Hlast, Hsent, Hnaps. rewrite length_app in Hrest, Hlast.
      simpl in Hrest, Hlast.
      exists (p :: rest). split; [split|].
      * intros [|k] q Hq.
        -- injection Hq as <-. split; [|done].
           exists None. split; [done|]. by rewrite Nat.add_0_r.
        -- destruct (Hrest k q Hq) as [(c' & Hc' & Hans') Ht'].
           split; [|done]. exists c'. split; [done|].
           by rewrite <- Nat.add_assoc in Hans'.
      * exists c. split; [done|]. simpl.
        by rewrite <- Nat.add_assoc in Hlast.
      * simpl. split; [lia|]. split; [|lia].
        rewrite Hsent, !length_app. simpl.
        rewrite length_fmap, length_take, length_fmap. lia.
  - intros [|p rest] Href Hfuel.
    + destruct Href as [_ (c & [= <-] & Hlast)]. simpl in Hlast.
      rewrite Nat.add_0_r in Hlast. rewrite Hlast. eauto.
    + apply refused_after_cons in Href as (H0 & Ht & Hrest).
      rewrite H0.
      rewrite (pagination_fails limit status rest fuel (Fetch.page_events p)
                 (cursor p) (get (Fetch.params limit status None) net).2
                 Ht Hrest)
        by (simpl in Hfuel; lia).
      eauto.
Qed.

Lemma pagination_endless limit status : ∀ fuel evs cur net,
  (∀ n c, ∃ p, answers net n (Fetch.params limit status c) = Ok p
               ∧ Fetch.truthy (cursor p) = true) →
  Fetch.truthy cur = true →
  Fetch.pagination fuel limit status evs cur net = None.
Proof.
  induction fuel as [|fuel IH]; intros evs cur net Hall Hcur; simpl;
    rewrite Hcur; [done|].
  unfold Fetch.get_open_events, get.
  destruct (Hall (length (sent net)) cur) as (p & -> & Hp).
  apply IH; [|done]. intros n c. apply Hall.
Qed.

(** X20 (the pagination has no bound of its own).  Against a remote end
    that answers every request with a page naming a non-empty cursor, the
    pagination, and with it the cycle, reaches no result however many
    rounds it is run for. *)
Theorem endless_cursors_never_finish fuel limit status net w :
  (∀ n c, ∃ p, answers net n (Fetch.params limit status c) = Ok p
               ∧ Fetch.truthy (cursor p) = true) →
  Fetch.fetch_events fuel limit status net = None
  ∧ Fetch.collect fuel limit status net w = None.
Proof.
  intros Hall.
  assert (H : Fetch.fetch_events fuel limit status net = None).
  { rewrite fetch_events_first.
    destruct (Hall (length (sent net)) None) as (p & -> & Hp).
    apply pagination_endless; [|done]. intros n c. apply Hall. }
  split; [done|]. unfold Fetch.collect. by rewrite H.
Qed.

(** ** A second cycle *)

Lemma insert_pass_columns existing df w n w' :
  insert_pass existing df w = (Returned n, w') →
  "market_ticker" ∈ pd.columns df ∧ "market_status" ∈ pd.columns df.
Proof.
  unfold insert_pass. intros (mask & w1 & Hmask & _)%bindM_Returned.
  unfold lift in Hmask. injection Hmask as Hmask _.
  unfold new_active_mask, pd.column in Hmask.
  apply bindO_Returned in Hmask as (tickers & Ht & H).
  apply bindO_Returned in H as (tr & _ & H).
  apply bindO_Returned in H as (statuses & Hs & _).
  split; [clear Hs; by case_bool_decide|clear Ht; by case_bool_decide].
Qed.

Lemma NoDup_fmap_eq {A B} (f : A → B) (l : list A) x y :
  NoDup (f <$> l) → x ∈ l → y ∈ l → f x = f y → x = y.
Proof.
  induction l as [|a l IH]; intros Hnd Hx Hy Hf; [by apply elem_of_nil in Hx|].
  rewrite fmap_cons in Hnd. apply NoDup_cons in Hnd as [Ha Hnd].
  apply elem_of_cons in Hx as [->|Hx]; apply elem_of_cons in Hy as [->|Hy].
  - done.
  - exfalso. apply Ha. rewrite Hf. by apply list_elem_of_fmap_2.
  - exfalso. apply Ha. rewrite <- Hf. by apply list_elem_of_fmap_2.
  - by apply IH.
Qed.

Lemma filter_filter_sub {A} (P Q : A → Prop) `{∀ x, Decision (P x)}
    `{∀ x, Decision (Q x)} (l : list A) :
  (∀ x, x ∈ l → P x → Q x) → filter P (filter Q l) = filter P l.
Proof.
  induction l as [|a l IH]; intros Hsub; [done|].
  assert (IH' : filter P (filter Q l) = filter P l)
    by (apply IH; intros x Hx; apply Hsub; by right).
  rewrite (filter_cons Q). destruct (decide (Q a)) as [Hq|Hq].
  - rewrite !filter_cons. by rewrite IH'.
  - rewrite filter_cons, decide_False; [done|].
    intros Hp. apply Hq, Hsub; [left|done].
Qed.

Lemma last_status_after_passes (closed : list string) rows bound t :
  t ∉ closed → t ∉ tickers_of bound →
  last_status (without_tickers closed (rows ++ bound)) t = last_status rows t.
Proof.
  intros Hc Hb. unfold last_status, without_tickers. f_equal. f_equal.
  rewrite filter_filter_sub.
  - rewrite filter_app, (filter_none _ bound), app_nil_r; [done|].
    intros r Hr Ht. apply Hb, elem_of_tickers_of. eauto.
  - intros r _ Ht. apply Forall_forall. intros t' Hin Heq.
    rewrite Ht in Heq. injection Heq as ->. done.
Qed.

Lemma passes_again_leave_alone status_map df w2 n w3 df' c w4 status_map' w :
  one_row_per_ticker df →
  (∀ t, status_map !! Some t = last_status (stored_rows w2) t) →
  insert_pass (tickers_of (stored_rows w2)) df w2 = (Returned n, w3) →
  closure_pass (tickers_of (stored_rows w2)) status_map df w3
  = (Returned (df', c), w4) →
  (∀ t, status_map' !! Some t = last_status (stored_rows w4) t) →
  insert_pass (tickers_of (stored_rows w4)) df w = (Returned 0, w)
  ∧ closure_pass (tickers_of (stored_rows w4)) status_map' df w
    = (Returned (df, 0), w).
Proof.
  intros [Hstr Hnd] Hsm Hins Hclo Hsm'.
  pose proof (insert_pass_columns _ _ _ _ _ Hins) as [Hct Hcs].
  assert (Hty : ∀ r, r ∈ pd.rows df → string_or_missing (pd.cell r "market_ticker")).
  { intros r (t & s & -> & _)%Hstr. right. eauto. }
  pose proof (stored_tickers_after_passes _ _ _ _ _ _ _ _ _ Hct Hty Hins Hclo)
    as HE'.
  set (E := tickers_of (stored_rows w2)) in *.
  set (C := omap (closure_eligible E status_map) (pd.rows df)) in *.
  pose proof (new_tickers_disjoint E df) as Hnew.
  pose proof (insert_pass_Returned _ _ _ _ _ Hins)
    as (_ & _ & bound & Hb & Hrows & _).
  pose proof Hclo as Hclo'. unfold closure_pass in Hclo'.
  apply closure_loop_Returned in Hclo' as (_ & Hrows' & _).
  simpl in Hrows', Hb. fold C in Hrows'.
  assert (Hbound : tickers_of bound = new_tickers E df).
  { unfold new_tickers. eapply tickers_of_bound; [exact Hct| |exact Hb].
    intros r [_ Hr]%list_elem_of_filter. by apply Hty. }
  assert (HinC : ∀ r t s, r ∈ pd.rows df → pd.cell r "market_ticker" = JStr t →
                 pd.cell r "market_status" = JStr s → t ∈ C → s ∈ CLOSED_STATUSES).
  { intros r t s Hr Hrt Hrs (r' & Hr' & He)%list_elem_of_omap.
    apply closure_eligible_Some in He as (Hrt' & _ & _ & s' & Hrs' & Hs').
    assert (r' = r) as ->.
    { apply (NoDup_fmap_eq (λ r, pd.cell r "market_ticker") (pd.rows df));
        try done. by rewrite Hrt, Hrt'. }
    rewrite Hrs in Hrs'. by injection Hrs' as ->. }
  assert (HinN : ∀ r t s, r ∈ pd.rows df → pd.cell r "market_ticker" = JStr t →
                 pd.cell r "market_status" = JStr s → t ∈ new_tickers E df →
                 s = "active" ∧ t ∉ E).
  { intros r t s Hr Hrt Hrs Hin. split; [|by intros ?; apply (Hnew t)].
    apply elem_of_list_to_set, list_elem_of_omap in Hin as (r' & Hr' & Hrt').
    apply list_elem_of_filter in Hr' as [[_ Hact]%new_and_active_true Hr'].
    unfold ticker_text in Hrt'.
    destruct (pd.cell r' "market_ticker") eqn:Hc'; try discriminate.
    injection Hrt' as ->.
    assert (r' = r) as ->.
    { apply (NoDup_fmap_eq (λ r, pd.cell r "market_ticker") (pd.rows df));
        try done. by rewrite Hrt, Hc'. }
    rewrite Hrs in Hact. by injection Hact as ->. }
  assert (Hactive : "active" ∉ CLOSED_STATUSES).
  { rewrite elem_of_CLOSED_STATUSES. intros [|[|[|]]]; discriminate. }
  split.
  - apply insert_pass_nothing_new; try done.
    + intros r (t & s & -> & _)%Hstr. done.
    + intros r Hr. destruct (Hstr r Hr) as (t & s & Hrt & Hrs).
      apply not_true_is_false. intros [Hout Hact]%new_and_active_true.
      apply (Hout t Hrt). rewrite HE'.
      rewrite Hrs in Hact. injection Hact as ->.
      apply elem_of_difference. split.
      * destruct (decide (t ∈ E)) as [HtE|HtE]; [by apply elem_of_union_l|].
        apply elem_of_union_r. unfold new_tickers.
        apply elem_of_list_to_set, list_elem_of_omap. exists r. split.
        -- apply list_elem_of_filter. split; [|done].
           apply new_and_active_true. split; [|done].
           intros t' Ht'. rewrite Hrt in Ht'. by injection Ht' as <-.
        -- unfold ticker_text. by rewrite Hrt.
      * rewrite elem_of_list_to_set. intros HtC.
        apply Hactive. by eapply HinC.
  - apply closure_loop_skip. intros r Hr.
    destruct (Hstr r Hr) as (t & s & Hrt & Hrs).
    rewrite closing_scalar by (by rewrite ?Hrt, ?Hrs). f_equal.
    destruct (closure_eligible _ status_map' r) as [t'|] eqn:He; [|done].
    exfalso.
    apply closure_eligible_Some in He as (Hrt' & HtE' & Hact' & s' & Hrs' & Hs').
    rewrite Hrt in Hrt'. injection Hrt' as <-.
    rewrite Hrs in Hrs'. injection Hrs' as <-.
    rewrite HE' in HtE'. apply elem_of_difference in HtE' as [HtE HtC].
    apply elem_of_union in HtE as [HtE|HtN].
    + apply HtC, elem_of_list_to_set, list_elem_of_omap. exists r.
      split; [done|]. apply closure_eligible_Some.
      split; [done|]. split; [done|]. split; [|eauto].
      rewrite Hsm. rewrite Hsm', Hrows', Hrows in Hact'.
      rewrite last_status_after_passes in Hact'; [done| |].
      * intros Hin. apply HtC. by apply elem_of_list_to_set.
      * rewrite Hbound. intros HtN. by apply (Hnew t).
    + destruct (HinN r t s Hr Hrt Hrs HtN) as [-> _]. done.
Qed.

Lemma summary_report_Returned opened_count closed_count w w' :
  summary_report opened_count closed_count w = (Returned (), w') →
  markets w' = markets w
  ∧ log w' = log w ++ summary_records
                        (strftime_date (utcnow w (clock_reads w)))
                        (size (tickers_of (stored_rows w)))
                        closed_count opened_count.
Proof.
  unfold summary_report.
  intros (total & w1 & Htot & H)%bindM_Returned.
  apply fmapM_Returned in Htot as (s & Hs & ->).
  apply get_existing_market_tickers_Returned in Hs as (-> & Hm & Hl & Hu & Hc).
  apply bindM_Returned in H as (date & w2 & Hdate & H).
  apply fmapM_Returned in Hdate as (d & Hd & ->).
  unfold now_utc in Hd. injection Hd as <- <-.
  unfold mbind, M_bind, logger_info in H. simpl in H. injection H as <-.
  simpl. split; [done|]. rewrite Hl, Hu, Hc. unfold summary_records.
  by rewrite <- !app_assoc.
Qed.

Lemma append_dataframe_keeps_columns df w w' tb :
  DatabaseClient.append_dataframe df w = (Returned (), w') →
  markets w = Some tb →
  t_columns <$> markets w' = Some (t_columns tb).
Proof.
  unfold DatabaseClient.append_dataframe, try_except_SQLAlchemyError, mbind,
    M_bind, round_trip, sql.append.
  intros H Hm. rewrite Hm in H.
  destruct (storage_fails w (round_trips w)); [discriminate|].
  destruct (mapM _ _) as [bound|]; [|discriminate].
  destruct (forallb _ _); [|discriminate].
  by injection H as <-.
Qed.

Lemma insert_pass_keeps_columns existing df w n w' tb :
  insert_pass existing df w = (Returned n, w') →
  markets w = Some tb →
  t_columns <$> markets w' = Some (t_columns tb).
Proof.
  unfold insert_pass. intros (mask & w1 & Hmask & H)%bindM_Returned Hm.
  unfold lift in Hmask. injection Hmask as _ <-.
  apply bindM_Returned in H as ([] & w2 & Hact & [= _ <-]).
  case_bool_decide.
  - injection Hact as <-. by rewrite Hm.
  - apply bindM_Returned in Hact as ([] & w3 & Happ & [= <-]).
    simpl. by eapply append_dataframe_keeps_columns.
Qed.

Lemma delete_market_keeps_columns t w w' :
  DatabaseClient.delete_market t w = (Returned (), w') →
  t_columns <$> markets w' = t_columns <$> markets w.
Proof.
  rewrite delete_market_cases.
  destruct (storage_fails w (round_trips w)); [discriminate|].
  destruct (markets w) as [tb|]; [|discriminate].
  case_bool_decide; [|discriminate]. by intros [= <-].
Qed.

Lemma closure_loop_keeps_columns existing status_map todo :
  ∀ df n w df' n' w',
  closure_loop existing status_map todo df n w = (Returned (df', n'), w') →
  t_columns <$> markets w' = t_columns <$> markets w.
Proof.
  induction todo as [|row rest IH]; intros df n w df' n' w' H; simpl in H.
  - by injection H as _ _ <-.
  - apply bindM_Returned in H as (hit & w0 & Hhit & H).
    unfold lift in Hhit. injection Hhit as _ <-.
    destruct hit as [t|]; [|by eapply IH].
    apply bindM_Returned in H as (change_time & w1 & Hnow & H).
    apply fmapM_Returned in Hnow as (d & Hnow & ->).
    unfold now_utc in Hnow. injection Hnow as _ <-.
    apply bindM_Returned in H as ([] & w2 & Hdel & H).
    apply IH in H. rewrite H.
    by apply delete_market_keeps_columns in Hdel.
Qed.

(** X19 (a second cycle on the same fetch changes nothing).  When the
    flattened fetch has a string ticker and a string status in every row
    and no ticker twice, and a cycle completes, a further completed cycle
    on the same fetch leaves the [markets] table as it is, returns the
    flattened table without any change time, and logs only the connection
    message and a summary with 0 markets closed and 0 opened. *)
Theorem second_cycle_changes_nothing events df w out w1 out' w2 :
  flatten events = Returned df →
  one_row_per_ticker df →
  get_events_dataframe events w = (Returned out, w1) →
  get_events_dataframe events w1 = (Returned out', w2) →
  markets w2 = markets w1
  ∧ out' = df
  ∧ log w2
    = log w1
      ++ [info ("Connected to database at " +:+ db_file w1)]
      ++ summary_records (strftime_date (utcnow w1 (clock_reads w1)))
           (size (tickers_of (stored_rows w1))) 0 0.
Proof.
  intros Hflat Hone
    (df1 & wa & ex & sm & wb & n & wc & c & wd & Hf1 & Hinit & Hread & Hins
     & Hclo & Hsum)%get_events_dataframe_stages
    (df2 & wa' & ex' & sm' & wb' & n' & wc' & c' & wd' & Hf2 & Hinit' & Hread'
     & Hins' & Hclo' & Hsum')%get_events_dataframe_stages.
  rewrite Hflat in Hf1, Hf2. injection Hf1 as <-. injection Hf2 as <-.
  (* the first cycle *)
  pose proof (init_Returned _ _ _ Hinit) as (Hfile & _ & tba & Htba & Hcola).
  apply read_state_Returned in Hread as (Hex & Hsm & Hmb & _).
  specialize (Hex Hfile).
  assert (Hrb : stored_rows wb = stored_rows wa)
    by (unfold stored_rows; by rewrite Hmb).
  rewrite <- Hrb in Hex, Hsm. subst ex.
  apply summary_report_Returned in Hsum as (Hm1 & _).
  assert (Hr1 : stored_rows w1 = stored_rows wd)
    by (unfold stored_rows; by rewrite Hm1).
  assert (Htb : ∃ tb, markets w1 = Some tb
                      ∧ "market_status_change_time" ∈ t_columns tb).
  { rewrite <- Hmb in Htba.
    pose proof (insert_pass_keeps_columns _ _ _ _ _ _ Hins Htba) as Hcc.
    pose proof Hclo as Hcd. unfold closure_pass in Hcd.
    apply closure_loop_keeps_columns in Hcd. rewrite Hcc, <- Hm1 in Hcd.
    destruct (markets w1) as [tb1|]; [|discriminate].
    injection Hcd as Hcd. exists tb1. by rewrite Hcd. }
  destruct Htb as (tb1 & Htb1 & Hcol1).
  (* the second cycle *)
  pose proof (init_Returned _ _ _ Hinit') as (Hfile' & Hra' & _).
  apply init_effect in Hinit' as (Hma' & _ & Hla' & Hdb' & Hua' & Hca').
  rewrite Htb1 in Hma', Hla'. cbn [default from_option id] in Hma', Hla'.
  unfold migrated in Hma'. rewrite !(bool_decide_true _ Hcol1) in Hma', Hla'.
  apply read_state_Returned in Hread' as (Hex' & Hsm' & Hmb' & Hlb' & Hub' & Hcb').
  specialize (Hex' Hfile').
  assert (Hrb' : stored_rows wb' = stored_rows wd).
  { rewrite <- Hr1, <- Hra'. unfold stored_rows. by rewrite Hmb'. }
  rewrite Hra', Hr1 in Hex', Hsm'. subst ex'.
  destruct (passes_again_leave_alone sm df wb n wc out c wd sm' wb'
              Hone Hsm Hins Hclo Hsm') as [Hins0 Hclo0].
  rewrite Hins0 in Hins'. injection Hins' as <- <-.
  rewrite Hclo0 in Hclo'. injection Hclo' as <- <- <-.
  apply summary_report_Returned in Hsum' as (Hm2 & Hl2).
  split; [|split; [done|]].
  - by rewrite Hm2, Hmb', Hma'.
  - rewrite Hl2, Hlb', Hla', Hub', Hcb', Hua', Hca', Hrb', Hr1.
    rewrite <- !app_assoc. done.
Qed.

(** ** A cycle on a healthy engine *)

Lemma steady_ret {A} (a : A) : steady (mret a).
Proof. done. Qed.

Lemma steady_lift {A} (o : Outcome A) : steady (lift o).
Proof. done. Qed.

Lemma steady_bind {A B} (m : M A) (f : A → M B) :
  steady m → (∀ a, steady (f a)) → steady (m ≫= f).
Proof.
  intros Hm Hf w. unfold mbind, M_bind. specialize (Hm w).
  destruct (m w) as [[a|e] w1]; simpl in *; [|done].
  by rewrite Hf.
Qed.

Lemma steady_fmap {A B} (f : A → B) (m : M A) : steady m → steady (f <$> m).
Proof.
  intros Hm w. unfold fmap, M_fmap. specialize (Hm w).
  by destruct (m w) as [[a|e] w1].
Qed.

Lemma steady_round_trip {A} (stmt : option Table → Outcome A * option Table) :
  steady (round_trip stmt).
Proof.
  intros w. unfold round_trip.
  destruct (storage_fails w (round_trips w)); [done|].
  by destruct (stmt (markets w)).
Qed.

Lemma steady_logger_info m : steady (logger_info m).
Proof. done. Qed.

Lemma steady_logger_exception m e : steady (logger_exception m e).
Proof. done. Qed.

Lemma steady_now_utc : steady now_utc.
Proof. done. Qed.

Lemma steady_try_except {A} (body : M A) (handler : M unit) :
  steady body → steady handler → steady (try_except_SQLAlchemyError body handler).
Proof.
  intros Hb Hh w. unfold try_except_SQLAlchemyError. specialize (Hb w).
  destruct (body w) as [[a|[]] w1]; simpl in *; try done.
  specialize (Hh w1). destruct (handler w1) as [[[]|e] w2]; simpl in *; congruence.
Qed.

Create HintDb steady.
#[local] Hint Resolve steady_ret steady_lift steady_fmap steady_round_trip
  steady_logger_info steady_logger_exception steady_now_utc steady_try_except
  : steady.

Ltac steady :=
  repeat first
    [ apply steady_bind; [|intros ?]
    | apply steady_try_except
    | progress eauto with steady
    | match goal with
      | |- steady (if ?b then _ else _) => destruct b
      | |- steady (match ?x with _ => _ end) => destruct x
      end ].

Lemma steady_init schema : steady (DatabaseClient.__init__ schema).
Proof.
  unfold DatabaseClient.__init__, DatabaseClient._ensure_table,
    DatabaseClient._ensure_status_change_column.
  apply steady_bind; [done|intros path]. steady.
Qed.

Lemma steady_get_existing_market_tickers :
  steady DatabaseClient.get_existing_market_tickers.
Proof. unfold DatabaseClient.get_existing_market_tickers. steady. Qed.

Lemma steady_get_market_status_map :
  steady DatabaseClient.get_market_status_map.
Proof. unfold DatabaseClient.get_market_status_map. steady. Qed.

Lemma steady_read_state : steady read_state.
Proof.
  unfold read_state. apply steady_bind; [done|intros file].
  apply steady_bind; [destruct file; [apply steady_get_existing_market_tickers|done]|].
  intros ex. apply steady_bind; [apply steady_get_market_status_map|].
  intros sm. done.
Qed.

Lemma steady_append_dataframe df : steady (DatabaseClient.append_dataframe df).
Proof. unfold DatabaseClient.append_dataframe. steady. Qed.

Lemma steady_delete_market t : steady (DatabaseClient.delete_market t).
Proof. unfold DatabaseClient.delete_market. steady. Qed.

Lemma steady_insert_pass existing df : steady (insert_pass existing df).
Proof.
  unfold insert_pass. apply steady_bind; [done|intros mask].
  apply steady_bind; [|done].
  case_bool_decide; [done|].
  apply steady_bind; [apply steady_append_dataframe|done].
Qed.

Lemma steady_closure_loop existing status_map todo :
  ∀ df n, steady (closure_loop existing status_map todo df n).
Proof.
  induction todo as [|row rest IH]; intros df n; simpl; [done|].
  apply steady_bind; [done|intros [t|]]; [|apply IH].
  apply steady_bind; [by apply steady_fmap|intros change_time].
  apply steady_bind; [apply steady_delete_market|intros []]. apply IH.
Qed.

Lemma steady_summary_report o c : steady (summary_report o c).
Proof.
  unfold summary_report.
  apply steady_bind;
    [apply steady_fmap, steady_get_existing_market_tickers|intros total].
  apply steady_bind; [by apply steady_fmap|intros date]. steady.
Qed.

Lemma steady_healthy {A} (m : M A) w :
  steady m → healthy w → healthy (m w).2.
Proof. intros Hm Hw k. by rewrite Hm. Qed.

Lemma round_trip_healthy {A} (stmt : option Table → Outcome A * option Table) w :
  healthy w →
  round_trip stmt w
  = ((stmt (markets w)).1, set_markets (stmt (markets w)).2 (connected w)).
Proof.
  intros Hw. unfold round_trip. rewrite Hw. by destruct (stmt (markets w)).
Qed.

Lemma bindM_runs {A B} (m : M A) (f : A → M B) w a w1 :
  m w = (Returned a, w1) → (m ≫= f) w = f a w1.
Proof. intros H. unfold mbind, M_bind. by rewrite H. Qed.

Lemma init_runs schema w :
  healthy w → ∃ w', DatabaseClient.__init__ schema w = (Returned (), w').
Proof.
  intros Hw.
  unfold DatabaseClient.__init__, DatabaseClient._ensure_table,
    DatabaseClient._ensure_status_change_column, try_except_SQLAlchemyError,
    mbind, M_bind, round_trip, logger_info, logger_exception, sql.has_table,
    sql.create_table, sql.get_columns, sql.add_column.
  unfold healthy in Hw.
  cbn [round_trips add_log markets storage_fails]. rewrite !Hw.
  destruct (markets w) as [tb|]; cbn; repeat (rewrite Hw; cbn).
  - case_bool_decide; cbn; [eauto|]. repeat (rewrite Hw; cbn).
    rewrite bool_decide_false by done. eauto.
  - case_bool_decide; cbn; [eauto|]. repeat (rewrite Hw; cbn).
    rewrite bool_decide_false by done. eauto.
Qed.

Lemma read_state_runs w :
  healthy w →
  (∀ tb, markets w = Some tb →
         "market_ticker" ∈ t_columns tb ∧ "market_status" ∈ t_columns tb) →
  ∃ existing status_map w',
    read_state w = (Returned (existing, status_map), w').
Proof.
  intros Hw Hcols.
  assert (Hsm : ∀ w0, healthy w0 → markets w0 = markets w →
                ∃ sm w', DatabaseClient.get_market_status_map w0
                         = (Returned sm, w')).
  { intros w0 Hw0 Hm0. unfold DatabaseClient.get_market_status_map.
    unfold mbind at 1, M_bind. rewrite round_trip_healthy by done.
    unfold sql.has_table. cbn [fst snd]. rewrite Hm0.
    destruct (markets w) as [tb|] eqn:Hm; cbn; [|eauto].
    destruct (Hcols tb eq_refl) as [Ht Hs].
    unfold mbind, M_bind. rewrite round_trip_healthy by (intros k; apply Hw0).
    cbn [markets set_markets]. unfold sql.read_table. cbn [find negb].
    rewrite !bool_decide_true by done. cbn. eauto. }
  unfold read_state, os_path_exists. unfold mbind at 1, M_bind.
  destruct (db_file_exists w).
  - destruct (get_existing_market_tickers_runs w (Hw _) (Hw _))
      as (w1 & Hrun & _); [intros tb Htb; by apply Hcols|].
    rewrite (bindM_runs _ _ _ _ _ Hrun).
    destruct (Hsm w1) as (sm & w2 & Hrun2).
    + pose proof (steady_get_existing_market_tickers w) as Hst.
      rewrite Hrun in Hst. intros k. simpl in Hst. by rewrite Hst.
    + by apply get_existing_market_tickers_Returned in Hrun as (_ & ? & _).
    + rewrite (bindM_runs _ _ _ _ _ Hrun2). eauto.
  - unfold mbind at 1, M_bind, mret, M_ret.
    destruct (Hsm w Hw eq_refl) as (sm & w2 & Hrun2).
    rewrite (bindM_runs _ _ _ _ _ Hrun2). eauto.
Qed.

Lemma insert_pass_runs existing df w :
  healthy w →
  "market_ticker" ∈ pd.columns df → "market_status" ∈ pd.columns df →
  bindable df → fits df w →
  ∃ n w', insert_pass existing df w = (Returned n, w').
Proof.
  intros Hw Ht Hs Hb Hf.
  destruct (new_active_mask_scalar existing df Ht Hs) as [mask Hmask].
  { intros r Hr. by apply Hb. }
  unfold insert_pass. unfold mbind at 1, M_bind, lift. rewrite Hmask.
  pose proof (new_active_mask_spec _ _ _ Hmask) as Hrows.
  set (new_active := pd.boolean_index df mask) in *.
  case_bool_decide; [unfold mbind, M_bind, mret, M_ret; eauto|].
  assert (Happ : ∃ w1, DatabaseClient.append_dataframe new_active w
                       = (Returned (), w1)).
  { unfold DatabaseClient.append_dataframe, try_except_SQLAlchemyError.
    unfold mbind, M_bind. rewrite round_trip_healthy by done.
    unfold sql.append.
    destruct (proj2 (mapM_bind_row_is_Some new_active)) as [bound ->].
    { intros r c Hr Hc. apply Hb; [|done].
      rewrite Hrows in Hr. by apply list_elem_of_filter in Hr as [_ ?]. }
    destruct (markets w) as [tb|] eqn:Hm; cbn; [|eauto].
    rewrite (proj2 (forallb_forall _ _)); [cbn; eauto|].
    intros c Hc%list_elem_of_In. apply bool_decide_eq_true. by eapply Hf. }
  destruct Happ as [w1 Happ].
  unfold mbind, M_bind. rewrite Happ. cbn. eauto.
Qed.

Lemma closure_loop_runs existing status_map todo : ∀ df n w,
  healthy w →
  (∃ tb, markets w = Some tb ∧ "market_ticker" ∈ t_columns tb) →
  (∀ r, r ∈ todo → scalar (pd.cell r "market_ticker")
                   ∧ scalar (pd.cell r "market_status")) →
  ∃ out n' w',
    closure_loop existing status_map todo df n w = (Returned (out, n'), w').
Proof.
  induction todo as [|row rest IH]; intros df n w Hw Htb Hsc; simpl.
  - unfold mret, M_ret. eauto.
  - destruct (Hsc row) as [Hst Hss]; [left|].
    unfold mbind at 1, M_bind, lift. rewrite closing_scalar by done.
    assert (Hrest : ∀ r, r ∈ rest → scalar (pd.cell r "market_ticker")
                                    ∧ scalar (pd.cell r "market_status"))
      by (intros r Hr; apply Hsc; by right).
    destruct (closure_eligible existing status_map row) as [t|]; [|by apply IH].
    unfold mbind at 1, M_bind, fmap, M_fmap, now_utc.
    unfold mbind at 1, M_bind.
    destruct Htb as (tb & Hm & Hcol).
    assert (Hdel : ∃ w1, DatabaseClient.delete_market t (tick w)
                         = (Returned (), w1)).
    { rewrite delete_market_cases. cbn [storage_fails tick markets].
      rewrite Hw, Hm. rewrite bool_decide_true by done. eauto. }
    destruct Hdel as [w1 Hdel]. rewrite Hdel.
    apply IH; [| |done].
    + pose proof (steady_delete_market t (tick w)) as Hst'.
      rewrite Hdel in Hst'. intros k. simpl in Hst'. by rewrite Hst'.
    + apply delete_market_keeps_columns in Hdel. cbn [tick markets] in Hdel.
      rewrite Hm in Hdel. destruct (markets w1) as [tb1|]; [|discriminate].
      injection Hdel as Hdel. exists tb1. by rewrite Hdel.
Qed.

Lemma summary_report_runs o c w :
  healthy w →
  (∀ tb, markets w = Some tb → "market_ticker" ∈ t_columns tb) →
  ∃ w', summary_report o c w = (Returned (), w').
Proof.
  intros Hw Hcol.
  destruct (get_existing_market_tickers_runs w (Hw _) (Hw _) Hcol)
    as (w1 & Hrun & _).
  unfold summary_report, mbind, M_bind, fmap, M_fmap. rewrite Hrun.
  unfold now_utc, logger_info. eauto.
Qed.

Lemma elem_of_uniq seen l x : x ∈ l → x ∉ seen → x ∈ pd.uniq seen l.
Proof.
  revert seen. induction l as [|y l IH]; intros seen Hx Hs;
    [by apply elem_of_nil in Hx|].
  simpl. apply elem_of_cons in Hx as [->|Hx].
  - rewrite bool_decide_false by done. left.
  - case_bool_decide; [by apply IH|].
    destruct (decide (x = y)) as [->|Hne]; [left|].
    right. apply IH; [done|]. intros [?|?]%elem_of_cons; done.
Qed.


(** ** A completed cycle *)

(** X22 (what a completed cycle does).  When a cycle returns, the
    store holds the rows it held followed by the new active rows of the
    flattened fetch, bound to text, without the rows of the tickers
    eligible for closure, where the existing-ticker set is the set of
    tickers stored before the cycle and the status map that of the last
    stored rows.  The log has grown, in this order, by the records of
    setting up the client, the two records of the insert pass if a row
    was new and active, one record per deleted ticker in row order, and
    the four summary lines, which report the number of distinct tickers
    stored at the end, the number of tickers closed and the number of
    rows opened, under the date read from the clock after the change
    times. *)
Theorem completed_cycle_effect events w out w' :
  get_events_dataframe events w = (Returned out, w') →
  ∃ df status_map bound,
    let existing := tickers_of (stored_rows w) in
    let new_active :=
      filter (λ r, new_and_active existing r = true) (pd.rows df) in
    let closed := omap (closure_eligible existing status_map) (pd.rows df) in
    flatten events = Returned df
    ∧ (∀ t, status_map !! Some t = last_status (stored_rows w) t)
    ∧ mapM (sql.bind_row (pd.columns df)) new_active = Some bound
    ∧ stored_rows w' = without_tickers closed (stored_rows w ++ bound)
    ∧ log w'
      = log w
        ++ setup_records (pd.uniq [] (pd.columns df)) w
        ++ (if decide (length new_active = 0) then []
            else [inserted_rows_record (length new_active);
                  inserted_active_record (length new_active)])
        ++ (deleted_record <$> closed)
        ++ summary_records
             (strftime_date (utcnow w (clock_reads w + length closed)))
             (size (tickers_of (stored_rows w')))
             (length closed) (length new_active).
Proof.
  intros (df & wa & ex & sm & wb & n & wc & c & wd & Hflat & Hinit & Hread
          & Hins & Hclo & Hsum)%get_events_dataframe_stages.
  pose proof (init_Returned _ _ _ Hinit) as (Hfile & Hra & _).
  apply init_effect in Hinit as (_ & _ & Hla & _ & Hua & Hca).
  apply read_state_Returned in Hread as (Hex & Hsm & Hmb & Hlb & Hub & Hcb).
  specialize (Hex Hfile). rewrite Hra in Hex, Hsm. subst ex.
  assert (Hrb : stored_rows wb = stored_rows w)
    by (rewrite <- Hra; unfold stored_rows; by rewrite Hmb).
  apply insert_pass_Returned in Hins
    as (-> & _ & bound & Hbound & Hrc & Hlc & Huc & Hcc).
  simpl in Hbound, Hlc.
  unfold closure_pass in Hclo.
  apply closure_loop_Returned in Hclo
    as (-> & Hrd & Hld & _ & _ & Hud & Hcd).
  simpl in Hrd, Hld, Hcd.
  apply summary_report_Returned in Hsum as (Hm' & Hl').
  assert (Hr' : stored_rows w' = stored_rows wd)
    by (unfold stored_rows; by rewrite Hm').
  exists df, sm, bound. simpl.
  split; [done|]. split; [done|]. split; [done|].
  split; [by rewrite Hr', Hrd, Hrc, Hrb|].
  rewrite Hl', Hld, Hlc, Hlb, Hla, Hr'. unfold setup_records.
  rewrite Hud, Huc, Hub, Hua, Hcd, Hcc, Hcb, Hca.
  rewrite <- !app_assoc. done.
Qed.

(** ** Further runs on sample data *)

Lemma raised {A} (d : Exn) (m : M A) (w : World) :
  raises (m w).1 = true → m w = (Raised (error d (m w)), (m w).2).
Proof. unfold error. by destruct (m w) as [[a|e] w']. Qed.

Lemma is_text_rows (c : string) (rows : list (gmap string Json)) :
  forallb (λ r, is_text (pd.cell r c)) rows = true →
  ∀ r, r ∈ rows → ∃ t, pd.cell r c = JStr t.
Proof.
  rewrite forallb_forall. intros H r Hr%list_elem_of_In.
  specialize (H r Hr). destruct (pd.cell r c); try discriminate. eauto.
Qed.

Lemma one_row_per_ticker_check df :
  forallb (λ r, is_text (pd.cell r "market_ticker")) (pd.rows df) = true →
  forallb (λ r, is_text (pd.cell r "market_status")) (pd.rows df) = true →
  bool_decide (NoDup ((λ r, pd.cell r "market_ticker") <$> pd.rows df)) = true →
  one_row_per_ticker df.
Proof.
  intros Ht Hs Hnd%bool_decide_eq_true. split; [|done].
  intros r Hr.
  destruct (is_text_rows _ _ Ht r Hr) as [t Hrt].
  destruct (is_text_rows _ _ Hs r Hr) as [s Hrs]. eauto.
Qed.

Lemma flatten_second_fetch : flatten second_fetch = Returned sample_df.
Proof.
  unfold flatten.
  rewrite (returns_value pd.empty (normalize_data second_fetch))
    by (vm_compute; reflexivity).
  apply (returns_value pd.empty (clean_up sample_joined)).
  vm_compute; reflexivity.
Qed.

Lemma cycle_insert_ran :
  insert_pass sample_existing sample_df cycle_state.2
  = (Returned (value 0 cycle_insert), cycle_insert.2).
Proof. apply (ran 0); vm_compute; reflexivity. Qed.

Lemma cycle_closure_ran :
  closure_pass sample_existing sample_status_map sample_df cycle_insert.2
  = (Returned ((value (pd.empty, 0) cycle_closure).1,
               (value (pd.empty, 0) cycle_closure).2), cycle_closure.2).
Proof. apply (ran_pair (pd.empty, 0)); vm_compute; reflexivity. Qed.

Lemma joined_row_count_witness :
  normalize_data repeated_event_fetch
  = Returned (match normalize_data repeated_event_fetch with
              | Returned d => d | Raised _ => pd.empty end)
  ∧ total_markets repeated_event_fetch = 2
  ∧ sum_list ((λ e, num_markets e * listings repeated_event_fetch e)
              <$> repeated_event_fetch) = 4
  ∧ pd.len (match normalize_data repeated_event_fetch with
            | Returned d => d | Raised _ => pd.empty end)
    = sum_list ((λ e, num_markets e * listings repeated_event_fetch e)
                <$> repeated_event_fetch).
Proof.
  assert (H : normalize_data repeated_event_fetch
              = Returned (match normalize_data repeated_event_fetch with
                          | Returned d => d | Raised _ => pd.empty end))
    by (apply returns_value; vm_compute; reflexivity).
  split; [exact H|]. split; [vm_compute; reflexivity|].
  split; [vm_compute; reflexivity|].
  exact (proj1 (joined_row_count _ _ H)).
Defined.

Lemma flattened_table_shape_witness :
  flatten second_fetch = Returned sample_df
  ∧ take 4 (pd.columns sample_df) = leading_columns
  ∧ "markets" ∉ pd.columns sample_df.
Proof.
  pose proof flatten_second_fetch as H.
  split; [exact H|].
  split; [exact (proj1 (flattened_table_shape _ _ H))|].
  exact (proj1 (proj2 (flattened_table_shape _ _ H))).
Defined.

Lemma unchanged_markets_are_left_alone_witness :
  insert_pass seeded_existing quiet_fetch seeded_world
  = (Returned 0, seeded_world)
  ∧ closure_pass seeded_existing seeded_status_map quiet_fetch seeded_world
    = (Returned (quiet_fetch, 0), seeded_world).
Proof.
  assert (H1 : "market_ticker" ∈ pd.columns quiet_fetch)
    by (apply (bool_decide_unpack _); vm_compute; exact I).
  assert (H2 : "market_status" ∈ pd.columns quiet_fetch)
    by (apply (bool_decide_unpack _); vm_compute; exact I).
  assert (Hactive : "active" ∉ CLOSED_STATUSES).
  { rewrite elem_of_CLOSED_STATUSES. intros [|[|[|]]]; discriminate. }
  assert (HT3 : "T3" ∉ seeded_existing)
    by (apply (bool_decide_unpack _); vm_compute; exact I).
  assert (H3 : ∀ r, r ∈ pd.rows quiet_fetch →
     ∃ t s, pd.cell r "market_ticker" = JStr t
            ∧ pd.cell r "market_status" = JStr s
            ∧ (t ∈ seeded_existing → s ∉ CLOSED_STATUSES)
            ∧ (t ∉ seeded_existing → s ≠ "active")).
  { apply Forall_forall. repeat constructor.
    - exists "T1", "active". split; [reflexivity|]. split; [reflexivity|].
      split; [intros _; exact Hactive|].
      intros Hout. exfalso. apply Hout.
      apply (bool_decide_unpack _). vm_compute. exact I.
    - exists "T3", "closed". split; [reflexivity|]. split; [reflexivity|].
      split; [intros Hin; destruct (HT3 Hin)|discriminate]. }
  exact (unchanged_markets_are_left_alone seeded_existing seeded_status_map
           quiet_fetch seeded_world H1 H2 H3).
Defined.

Lemma opened_and_closed_rows_are_disjoint_witness :
  insert_pass sample_existing sample_df cycle_state.2
  = (Returned (value 0 cycle_insert), cycle_insert.2)
  ∧ closure_pass sample_existing sample_status_map sample_df cycle_insert.2
    = (Returned ((value (pd.empty, 0) cycle_closure).1,
                 (value (pd.empty, 0) cycle_closure).2), cycle_closure.2)
  ∧ (value 0 cycle_insert + (value (pd.empty, 0) cycle_closure).2
     ≤ pd.len sample_df)%nat.
Proof.
  pose proof cycle_insert_ran as H1. pose proof cycle_closure_ran as H2.
  split; [exact H1|]. split; [exact H2|].
  exact (proj1 (opened_and_closed_rows_are_disjoint _ _ _ _ _ _ _ _ _ H1 H2)).
Defined.

Lemma sample_df_tickers :
  "market_ticker" ∈ pd.columns sample_df
  ∧ ∀ r, r ∈ pd.rows sample_df → string_or_missing (pd.cell r "market_ticker").
Proof.
  split; [apply (bool_decide_unpack _); vm_compute; exact I|].
  intros r Hr. right. revert r Hr. apply is_text_rows. vm_compute. reflexivity.
Qed.

Lemma tickers_after_reconciliation_witness :
  "market_ticker" ∈ pd.columns sample_df
  ∧ (∀ r, r ∈ pd.rows sample_df → string_or_missing (pd.cell r "market_ticker"))
  ∧ insert_pass sample_existing sample_df cycle_state.2
    = (Returned (value 0 cycle_insert), cycle_insert.2)
  ∧ closure_pass sample_existing sample_status_map sample_df cycle_insert.2
    = (Returned ((value (pd.empty, 0) cycle_closure).1,
                 (value (pd.empty, 0) cycle_closure).2), cycle_closure.2)
  ∧ tickers_of (stored_rows cycle_closure.2)
    = (tickers_of (stored_rows cycle_state.2)
       ∖ list_to_set (omap (closure_eligible sample_existing sample_status_map)
                           (pd.rows sample_df)))
      ∪ new_tickers sample_existing sample_df.
Proof.
  destruct sample_df_tickers as [H1 H2].
  pose proof cycle_insert_ran as H3. pose proof cycle_closure_ran as H4.
  split; [exact H1|]. split; [exact H2|]. split; [exact H3|]. split; [exact H4|].
  exact (proj1 (tickers_after_reconciliation _ _ _ _ _ _ _ _ _ H1 H2 H3 H4)).
Defined.


Lemma failed_closure_keeps_completed_deletes_witness :
  closure_pass seeded_existing seeded_status_map seeded_fetch flaky_world
  = (Raised (error TypeError
               (closure_pass seeded_existing seeded_status_map seeded_fetch
                  flaky_world)),
     (closure_pass seeded_existing seeded_status_map seeded_fetch
        flaky_world).2)
  ∧ length (stored_rows flaky_world) = 4
  ∧ length (stored_rows (closure_pass seeded_existing seeded_status_map
                           seeded_fetch flaky_world).2) = 2
  ∧ ∃ done,
      done `prefix_of` omap (closure_eligible seeded_existing seeded_status_map)
                            (pd.rows seeded_fetch)
      ∧ stored_rows (closure_pass seeded_existing seeded_status_map
                       seeded_fetch flaky_world).2
        = without_tickers done (stored_rows flaky_world)
      ∧ (error TypeError
           (closure_pass seeded_existing seeded_status_map seeded_fetch
              flaky_world) = TypeError
         ∨ error TypeError
             (closure_pass seeded_existing seeded_status_map seeded_fetch
                flaky_world) = SQLAlchemyError).
Proof.
  assert (H : closure_pass seeded_existing seeded_status_map seeded_fetch
                flaky_world
              = (Raised (error TypeError
                           (closure_pass seeded_existing seeded_status_map
                              seeded_fetch flaky_world)),
                 (closure_pass seeded_existing seeded_status_map seeded_fetch
                    flaky_world).2))
    by (apply raised; vm_compute; reflexivity).
  split; [exact H|]. split; [reflexivity|]. split; [vm_compute; reflexivity|].
  exact (failed_closure_keeps_completed_deletes _ _ _ _ _ _ H).
Defined.

Lemma closure_pass_touches_only_change_time_witness :
  closure_pass sample_existing sample_status_map sample_df cycle_insert.2
  = (Returned ((value (pd.empty, 0) cycle_closure).1,
               (value (pd.empty, 0) cycle_closure).2), cycle_closure.2)
  ∧ pd.columns (value (pd.empty, 0) cycle_closure).1 = pd.columns sample_df.
Proof.
  pose proof cycle_closure_ran as H. split; [exact H|].
  exact (proj1 (closure_pass_touches_only_change_time _ _ _ _ _ _ _ H)).
Defined.

Lemma client_setup_is_idempotent_witness :
  DatabaseClient.__init__ ["market_ticker"; "market_status"] fresh_world
  = (Returned (),
     (DatabaseClient.__init__ ["market_ticker"; "market_status"] fresh_world).2)
  ∧ markets (DatabaseClient.__init__ ["market_ticker"; "market_status"]
               fresh_world).2
    = Some {| t_columns := ["market_ticker"; "market_status";
                            "market_status_change_time"];
              t_rows := [] |}.
Proof.
  assert (H : DatabaseClient.__init__ ["market_ticker"; "market_status"]
                fresh_world
              = (Returned (),
                 (DatabaseClient.__init__ ["market_ticker"; "market_status"]
                    fresh_world).2))
    by (apply ran_unit; vm_compute; reflexivity).
  split; [exact H|].
  exact (proj1 (client_setup_is_idempotent _ _ _ H)).
Defined.

Lemma deleted_ticker_is_gone_witness :
  DatabaseClient.delete_market "T1" seeded_world
  = (Returned (), (DatabaseClient.delete_market "T1" seeded_world).2)
  ∧ size (tickers_of (stored_rows seeded_world)) = 2
  ∧ tickers_of (stored_rows (DatabaseClient.delete_market "T1" seeded_world).2)
    = tickers_of (stored_rows seeded_world) ∖ {["T1"]}.
Proof.
  assert (H : DatabaseClient.delete_market "T1" seeded_world
              = (Returned (), (DatabaseClient.delete_market "T1" seeded_world).2))
    by (apply ran_unit; vm_compute; reflexivity).
  split; [exact H|]. split; [vm_compute; reflexivity|].
  exact (proj1 (deleted_ticker_is_gone _ _ _ H)).
Defined.

Lemma status_map_follows_the_last_row_witness :
  DatabaseClient.get_market_status_map seeded_world
  = (Returned seeded_status_map,
     (DatabaseClient.get_market_status_map seeded_world).2)
  ∧ seeded_status_map !! Some "T2" = Some (Some "active")
  ∧ ∀ t, is_Some (seeded_status_map !! Some t)
         ↔ t ∈ tickers_of (stored_rows seeded_world).
Proof.
  assert (H : DatabaseClient.get_market_status_map seeded_world
              = (Returned seeded_status_map,
                 (DatabaseClient.get_market_status_map seeded_world).2))
    by (apply (ran ∅); vm_compute; reflexivity).
  split; [exact H|]. split; [vm_compute; reflexivity|].
  exact (proj1 (proj2 (status_map_follows_the_last_row _ _ _ H))).
Defined.


Lemma appended_tickers_are_found_witness :
  "market_ticker" ∈ pd.columns seeded_fetch
  ∧ (∀ r, r ∈ pd.rows seeded_fetch →
          string_or_missing (pd.cell r "market_ticker"))
  ∧ DatabaseClient.append_dataframe seeded_fetch seeded_world
    = (Returned (),
       (DatabaseClient.append_dataframe seeded_fetch seeded_world).2)
  ∧ size (value ∅ (DatabaseClient.get_existing_market_tickers
                     (DatabaseClient.append_dataframe seeded_fetch
                        seeded_world).2)) = 3
  ∧ value ∅ (DatabaseClient.get_existing_market_tickers
               (DatabaseClient.append_dataframe seeded_fetch seeded_world).2)
    = tickers_of (stored_rows seeded_world)
      ∪ list_to_set (omap ticker_text (pd.rows seeded_fetch)).
Proof.
  assert (H1 : "market_ticker" ∈ pd.columns seeded_fetch)
    by (apply (bool_decide_unpack _); vm_compute; exact I).
  assert (H2 : ∀ r, r ∈ pd.rows seeded_fetch →
                    string_or_missing (pd.cell r "market_ticker")).
  { intros r Hr. right. revert r Hr. apply is_text_rows.
    vm_compute. reflexivity. }
  assert (H3 : DatabaseClient.append_dataframe seeded_fetch seeded_world
               = (Returned (),
                  (DatabaseClient.append_dataframe seeded_fetch
                     seeded_world).2))
    by (apply ran_unit; vm_compute; reflexivity).
  assert (H4 : DatabaseClient.get_existing_market_tickers
                 (DatabaseClient.append_dataframe seeded_fetch seeded_world).2
               = (Returned
                    (value ∅ (DatabaseClient.get_existing_market_tickers
                                (DatabaseClient.append_dataframe seeded_fetch
                                   seeded_world).2)),
                  (DatabaseClient.get_existing_market_tickers
                     (DatabaseClient.append_dataframe seeded_fetch
                        seeded_world).2).2))
    by (apply (ran ∅); vm_compute; reflexivity).
  split; [exact H1|]. split; [exact H2|]. split; [exact H3|].
  split; [vm_compute; reflexivity|].
  exact (proj1 (appended_tickers_are_found _ _ _ _ _ H1 H2 H3 H4)).
Defined.

Lemma sample_pages_answered : answered 200 "open" None sample_pages sample_net.
Proof.
  intros [|[|k]] p Hk; simpl in Hk; try discriminate;
    injection Hk as <-; (split; [eexists; split; reflexivity|reflexivity]).
Qed.

Lemma fetched_events_are_the_pages_in_order_witness :
  Fetch.fetch_events 5 200 "open" sample_net
  = Some (Fetch.Got (concat (Fetch.page_events <$> sample_pages)),
          {| answers := answers sample_net;
             sent := [Fetch.params 200 "open" None;
                      Fetch.params 200 "open" (Some "page-2")];
             naps := 1 |})
  ∧ ∃ pages,
      pages ≠ []
      ∧ answered 200 "open" None pages sample_net
      ∧ concat (Fetch.page_events <$> sample_pages)
        = concat (Fetch.page_events <$> pages)
      ∧ [Fetch.params 200 "open" None; Fetch.params 200 "open" (Some "page-2")]
        = sent sample_net
          ++ (Fetch.params 200 "open" <$> cursors_sent None pages)
      ∧ 1 = naps sample_net + (length pages - 1)
      ∧ (length pages ≤ 6)%nat.
Proof.
  assert (H : Fetch.fetch_events 5 200 "open" sample_net
              = Some (Fetch.Got (concat (Fetch.page_events <$> sample_pages)),
                      {| answers := answers sample_net;
                         sent := [Fetch.params 200 "open" None;
                                  Fetch.params 200 "open" (Some "page-2")];
                         naps := 1 |})) by reflexivity.
  split; [exact H|].
  exact (fetched_events_are_the_pages_in_order _ _ _ _ _ _ H).
Defined.

Lemma enough_fuel_reaches_the_last_page_witness :
  sample_pages ≠ []
  ∧ answered 200 "open" None sample_pages sample_net
  ∧ (length sample_pages ≤ 2)%nat
  ∧ ∃ net',
      Fetch.fetch_events 1 200 "open" sample_net
      = Some (Fetch.Got (concat (Fetch.page_events <$> sample_pages)), net')
      ∧ length (sent net') = length (sent sample_net) + length sample_pages
      ∧ Fetch.collect 1 200 "open" sample_net fresh_world
        = Some (match (get_events_dataframe
                         (concat (Fetch.page_events <$> sample_pages))
                         fresh_world).1 with
                | Returned df => Fetch.Completed df
                | Raised e => Fetch.Aborted e
                end, net',
                (get_events_dataframe
                   (concat (Fetch.page_events <$> sample_pages))
                   fresh_world).2).
Proof.
  assert (H1 : sample_pages ≠ []) by discriminate.
  pose proof sample_pages_answered as H2.
  assert (H3 : (length sample_pages ≤ 2)%nat) by (simpl; lia).
  split; [exact H1|]. split; [exact H2|]. split; [exact H3|].
  exact (enough_fuel_reaches_the_last_page 1 200 "open" sample_net sample_pages
           fresh_world H1 H2 H3).
Defined.

Lemma sample_df_one_row_per_ticker : one_row_per_ticker sample_df.
Proof. apply one_row_per_ticker_check; vm_compute; reflexivity. Qed.

Lemma second_cycle_changes_nothing_witness :
  flatten second_fetch = Returned sample_df
  ∧ one_row_per_ticker sample_df
  ∧ (get_events_dataframe second_fetch tracked_world).1
    = Returned (value pd.empty (get_events_dataframe second_fetch tracked_world))
  ∧ markets (get_events_dataframe second_fetch
               (get_events_dataframe second_fetch tracked_world).2).2
    = markets (get_events_dataframe second_fetch tracked_world).2.
Proof.
  pose proof flatten_second_fetch as H1.
  pose proof sample_df_one_row_per_ticker as H2.
  assert (H3 : get_events_dataframe second_fetch tracked_world
               = (Returned (value pd.empty
                              (get_events_dataframe second_fetch tracked_world)),
                  (get_events_dataframe second_fetch tracked_world).2))
    by (apply (ran pd.empty); vm_compute; reflexivity).
  assert (H4 : get_events_dataframe second_fetch
                 (get_events_dataframe second_fetch tracked_world).2
               = (Returned (value pd.empty
                              (get_events_dataframe second_fetch
                                 (get_events_dataframe second_fetch
                                    tracked_world).2)),
                  (get_events_dataframe second_fetch
                     (get_events_dataframe second_fetch tracked_world).2).2))
    by (apply (ran pd.empty); vm_compute; reflexivity).
  split; [exact H1|]. split; [exact H2|].
  split; [by rewrite H3 at 1|].
  exact (proj1 (second_cycle_changes_nothing _ _ _ _ _ _ _ H1 H2 H3 H4)).
Defined.

Lemma endless_cursors_never_finish_witness :
  (∀ n c, ∃ p, answers endless_net n (Fetch.params 200 "open" c) = Ok p
               ∧ Fetch.truthy (cursor p) = true)
  ∧ Fetch.fetch_events 1000 200 "open" endless_net = None
  ∧ Fetch.collect 1000 200 "open" endless_net fresh_world = None.
Proof.
  assert (H : ∀ n c, ∃ p, answers endless_net n (Fetch.params 200 "open" c)
                          = Ok p ∧ Fetch.truthy (cursor p) = true).
  { intros n c. eexists. split; reflexivity. }
  split; [exact H|].
  exact (endless_cursors_never_finish 1000 200 "open" endless_net fresh_world H).
Defined.

Lemma bindable_check df :
  forallb (λ r, forallb (λ c, is_scalar (pd.cell r c)) (pd.columns df))
          (pd.rows df) = true →
  bindable df.
Proof.
  rewrite forallb_forall. intros H r c Hr%list_elem_of_In Hc%list_elem_of_In.
  specialize (H r Hr). rewrite forallb_forall in H. specialize (H c Hc).
  by destruct (pd.cell r c).
Qed.


Lemma completed_cycle_effect_witness :
  get_events_dataframe second_fetch tracked_world
  = (Returned (value pd.empty (get_events_dataframe second_fetch tracked_world)),
     (get_events_dataframe second_fetch tracked_world).2)
  ∧ length (stored_rows tracked_world) = 2
  ∧ ∃ df bound,
      flatten second_fetch = Returned df
      ∧ mapM (sql.bind_row (pd.columns df))
          (filter (λ r, new_and_active (tickers_of (stored_rows tracked_world)) r
                        = true) (pd.rows df)) = Some bound.
Proof.
  assert (H : get_events_dataframe second_fetch tracked_world
              = (Returned (value pd.empty
                             (get_events_dataframe second_fetch tracked_world)),
                 (get_events_dataframe second_fetch tracked_world).2))
    by (apply (ran pd.empty); vm_compute; reflexivity).
  split; [exact H|]. split; [vm_compute; reflexivity|].
  destruct (completed_cycle_effect _ _ _ _ H)
    as (df & status_map & bound & Hflat & _ & Hbound & _).
  exists df, bound. split; [exact Hflat|exact Hbound].
Defined.
